(** * Resume analyzer / job finder: role-profile parsing and job-search adapters

    A shallow embedding of [src/app.py] (text extraction, the cached model
    call, role-profile parsing, the older inline copies of the adapters and
    the search they serve) and of [src/search_api.py] (the SerpAPI adapter
    and the Jobicy/RSS adapter), together with the properties the
    specification states about them and further properties read off the
    code.

    Conventions of the embedding.
    - Python [str] values are [string]s; the case mapping and the whitespace
      class are the ASCII ones (the resume text is sanitised to printable
      ASCII by [extract_text_from_pdf]).
    - A Python [int] is a [Z]; list slicing [xs[:n]] is modelled with its
      behaviour on negative [n].
    - A JSON object read with [d.get(k)] is a record of [option] fields,
      [None] standing for an absent key.
    - An exception is a value [Raised e]; loops that mutate an accumulator and
      are wrapped in [try] return the accumulator together with the exception
      that stopped them, if any.
    - The network is an explicit argument (an oracle); every request issued is
      appended to a trace. *)

From Stdlib Require Import String Ascii List ZArith Lia Bool.
Import ListNotations.

Local Open Scope string_scope.
Local Open Scope list_scope.

(** ** Python string primitives *)

Module PyStr.

(** [str.lower] on ASCII text. *)
Definition lower_ascii (c : ascii) : ascii :=
  let n := nat_of_ascii c in
  if (65 <=? n)%nat && (n <=? 90)%nat then ascii_of_nat (n + 32) else c.

Fixpoint lower (s : string) : string :=
  match s with
  | EmptyString => EmptyString
  | String c s' => String (lower_ascii c) (lower s')
  end.

(** The ASCII characters [str.isspace] accepts: TAB, LF, VT, FF, CR,
    FS, GS, RS, US and the space. *)
Definition is_space (c : ascii) : bool :=
  let n := nat_of_ascii c in
  ((9 <=? n)%nat && (n <=? 13)%nat) || ((28 <=? n)%nat && (n <=? 32)%nat).

Fixpoint lstrip (s : string) : string :=
  match s with
  | EmptyString => EmptyString
  | String c s' => if is_space c then lstrip s' else s
  end.

Fixpoint rstrip (s : string) : string :=
  match s with
  | EmptyString => EmptyString
  | String c s' =>
      match rstrip s' with
      | EmptyString => if is_space c then EmptyString else String c EmptyString
      | r => String c r
      end
  end.

(** [s.strip()] *)
Definition strip (s : string) : string := rstrip (lstrip s).

(** A blank string: empty, or white space only ([s.strip() == ""]). *)
Fixpoint is_blank (s : string) : bool :=
  match s with
  | EmptyString => true
  | String c s' => is_space c && is_blank s'
  end.

(** [s.startswith(p)] *)
Definition startswith (s p : string) : bool := String.prefix p s.

(** [needle in hay] *)
Fixpoint contains (needle hay : string) : bool :=
  String.prefix needle hay
  || match hay with
     | EmptyString => false
     | String _ hay' => contains needle hay'
     end.

(** [s.split(sep)] for a one-character separator: one more piece than there
    are separators, never an empty list. *)
Fixpoint split (sep : ascii) (s : string) : list string :=
  match s with
  | EmptyString => [EmptyString]
  | String c s' =>
      if Ascii.eqb c sep then EmptyString :: split sep s'
      else match split sep s' with
           | piece :: pieces => String c piece :: pieces
           | [] => [String c EmptyString]
           end
  end.

(** [s.replace(old, "")] for a non-empty [old]: the occurrences are found from
    left to right and do not overlap.  [skip] counts the characters of the
    occurrence being deleted that are still ahead. *)
Fixpoint remove_from (old : string) (skip : nat) (s : string) : string :=
  match s with
  | EmptyString => EmptyString
  | String c s' =>
      match skip with
      | S k => remove_from old k s'
      | O =>
          if String.prefix old s
          then remove_from old (String.length old - 1) s'
          else String c (remove_from old 0 s')
      end
  end.

Definition remove (old s : string) : string := remove_from old 0 s.

(** Truth value of a [str]: the empty string is falsy. *)
Definition nonempty (s : string) : bool :=
  match s with
  | EmptyString => false
  | String _ _ => true
  end.

(** The line feed, as a string. *)
Definition nl : string := String "010" EmptyString.

End PyStr.

(** ** Python values shared by both modules *)

(** The exceptions the modelled code can meet. *)
Inductive exn : Type :=
| IndexError
| KeyError
| ValueError
| AttributeError
| RequestError.

Inductive result (A : Type) : Type :=
| Ok (a : A)
| Raised (e : exn).

Arguments Ok {A} a.
Arguments Raised {A} e.

(** [d.get(k, default)] on a field that may be absent. *)
Definition get {A : Type} (field : option A) (default : A) : A :=
  match field with
  | Some v => v
  | None => default
  end.

(** Truth value of an optional string ([None] and [""] are falsy). *)
Definition truthy (v : option string) : bool :=
  match v with
  | Some s => PyStr.nonempty s
  | None => false
  end.

(** [a or b] *)
Definition py_or (a b : option string) : option string :=
  if truthy a then a else b.

(** [xs[:n]]: the first [n] elements, or all but the last [-n] when [n] is
    negative. *)
Definition slice_to {A : Type} (n : Z) (xs : list A) : list A :=
  if (0 <=? n)%Z then firstn (Z.to_nat n) xs
  else firstn (Z.to_nat (Z.of_nat (length xs) + n)) xs.

(** [len(xs) >= limit] *)
Definition len_ge {A : Type} (xs : list A) (limit : Z) : bool :=
  (limit <=? Z.of_nat (length xs))%Z.

(** The role profile: the dict built by [detect_suitable_job_roles] and read
    by the adapters. *)
Record RoleProfile : Type := mkRoleProfile {
  primary_role : option string;
  alternative_roles : option (list string);
  career_level : option string;
  key_strengths : option (list string);
  recommended_keywords : option (list string)
}.

(** ** Data received from the job sources *)

(** An element of [related_links] or of [apply_options]. *)
Record LinkDict : Type := { link : option string }.

(** The [detected_extensions] object of a raw listing. *)
Record Extensions : Type := {
  posted_at : option string;
  schedule_type : option string
}.

(** A raw listing of [jobs_results], with the fields the adapter reads. *)
Record RawJob : Type := {
  job_title : option string;
  job_company_name : option string;
  job_location : option string;
  job_related_links : option (list LinkDict);
  job_apply_options : option (list LinkDict);
  job_search_link : option string;
  job_apply_link : option string;
  job_link : option string;
  job_detected_extensions : option Extensions;
  job_via : option string
}.

(** A date field once read: absent, present but rejected by the parser
    ([date.fromisoformat], [datetime.strptime]), or a date, as its proleptic
    ordinal ([date.toordinal]). *)
Inductive DateField : Type :=
| DateAbsent
| DateMalformed
| DateValue (ordinal : Z).

(** A record of the Jobicy answer. *)
Record JobicyJob : Type := {
  jobicy_published_at : DateField;
  jobicy_title : option string;
  jobicy_description : option string;
  jobicy_url : option string;
  jobicy_company_name : option string
}.

(** An entry of a parsed RSS feed. *)
Record RssEntry : Type := {
  entry_published : DateField;
  entry_title : option string;
  entry_link : option string
}.

(** The record appended to [matched] by the Jobicy/RSS adapter. *)
Record MatchedJob : Type := {
  m_url : string;
  m_title : string;
  m_company : string;
  m_match_reason : string
}.

(** What the Jobicy/RSS adapter reads from outside:
    [httpx.get(...).json().get("jobs", [])], [feedparser.parse(rss).entries]
    for each feed address, and [datetime.date.today()] as an ordinal. *)
Record Sources : Type := {
  jobicy_jobs : result (list JobicyJob);
  feed_entries : string -> result (list RssEntry);
  today : Z
}.

(** ** [src/app.py] *)

Module App.

(** The values [parsed_roles] starts with (lines 98-104). *)
Definition default_roles : RoleProfile := {|
  primary_role := Some "Software Engineer";
  alternative_roles := Some ["Developer"; "Programmer"; "Engineer"];
  career_level := Some "Mid Level";
  key_strengths := Some ["Programming"; "Problem Solving"; "Technology"];
  recommended_keywords := Some ["software engineer"; "developer"; "programming"]
|}.

(** The five labelled fields of the language-model response. *)
Inductive Field : Type :=
| PrimaryRole
| AlternativeRoles
| CareerLevel
| KeyStrengths
| RecommendedKeywords.

Definition label (f : Field) : string :=
  match f with
  | PrimaryRole => "PRIMARY ROLE:"
  | AlternativeRoles => "ALTERNATIVE ROLES:"
  | CareerLevel => "CAREER LEVEL:"
  | KeyStrengths => "KEY STRENGTHS:"
  | RecommendedKeywords => "RECOMMENDED KEYWORDS:"
  end.

(** [line.replace(LABEL, '').strip()] *)
Definition field_text (f : Field) (line : string) : string :=
  PyStr.strip (PyStr.remove (label f) line).

(** [[x.strip() for x in text.split(',')]] *)
Definition comma_list (text : string) : list string :=
  map PyStr.strip (PyStr.split "," text).

(** The body of the [for line in lines] loop (lines 109-121): an
    [if]/[elif] chain on the prefix of the line. *)
Definition parse_line (parsed_roles : RoleProfile) (line : string) : RoleProfile :=
  if PyStr.startswith line (label PrimaryRole) then
    {| primary_role := Some (field_text PrimaryRole line);
       alternative_roles := alternative_roles parsed_roles;
       career_level := career_level parsed_roles;
       key_strengths := key_strengths parsed_roles;
       recommended_keywords := recommended_keywords parsed_roles |}
  else if PyStr.startswith line (label AlternativeRoles) then
    {| primary_role := primary_role parsed_roles;
       alternative_roles := Some (comma_list (field_text AlternativeRoles line));
       career_level := career_level parsed_roles;
       key_strengths := key_strengths parsed_roles;
       recommended_keywords := recommended_keywords parsed_roles |}
  else if PyStr.startswith line (label CareerLevel) then
    {| primary_role := primary_role parsed_roles;
       alternative_roles := alternative_roles parsed_roles;
       career_level := Some (field_text CareerLevel line);
       key_strengths := key_strengths parsed_roles;
       recommended_keywords := recommended_keywords parsed_roles |}
  else if PyStr.startswith line (label KeyStrengths) then
    {| primary_role := primary_role parsed_roles;
       alternative_roles := alternative_roles parsed_roles;
       career_level := career_level parsed_roles;
       key_strengths := Some (comma_list (field_text KeyStrengths line));
       recommended_keywords := recommended_keywords parsed_roles |}
  else if PyStr.startswith line (label RecommendedKeywords) then
    {| primary_role := primary_role parsed_roles;
       alternative_roles := alternative_roles parsed_roles;
       career_level := career_level parsed_roles;
       key_strengths := key_strengths parsed_roles;
       recommended_keywords := Some (comma_list (field_text RecommendedKeywords line)) |}
  else parsed_roles.

(** [detect_suitable_job_roles], from the point where the answer of
    [ask_ollama] is known: [response] is that answer ([""] when the model is
    unavailable). *)
Definition detect_suitable_job_roles (response : string) : RoleProfile :=
  if PyStr.nonempty response
  then fold_left parse_line (PyStr.split "010" response) default_roles
  else default_roles.

(** Some line of the response starts with the label of [f]. *)
Definition labelled (f : Field) (response : string) : bool :=
  existsb (fun line => PyStr.startswith line (label f)) (PyStr.split "010" response).

(** Two profiles carry the same value in field [f]. *)
Definition same_field (f : Field) (p q : RoleProfile) : Prop :=
  match f with
  | PrimaryRole => primary_role p = primary_role q
  | AlternativeRoles => alternative_roles p = alternative_roles q
  | CareerLevel => career_level p = career_level q
  | KeyStrengths => key_strengths p = key_strengths q
  | RecommendedKeywords => recommended_keywords p = recommended_keywords q
  end.

(** The query list of the inline copy of [fetch_google_jobs_serpapi]
    (lines 136-143): the keys are read with [d[k]], so an absent key raises,
    and nothing is filtered. *)
Definition search_queries (detected_roles : RoleProfile) : result (list string) :=
  match primary_role detected_roles, career_level detected_roles,
        alternative_roles detected_roles, recommended_keywords detected_roles with
  | Some primary, Some level, Some alternatives, Some keywords =>
      Ok ([primary; (primary ++ " " ++ PyStr.lower level)%string]
            ++ firstn 2 alternatives ++ firstn 2 keywords)%list
  | _, _, _, _ => Raised KeyError
  end.

(** The ["link"] entry of the inline copy (line 180): the related link or
    [None], with no further candidate. *)
Definition inline_link (job : RawJob) : option string :=
  match job_related_links job with
  | Some (d :: _) => link d
  | Some [] | None => None
  end.

(** The test of the inline copy of [enhanced_jobicy_search] (line 217): the
    term is looked for in the title and in the description separately. *)
Definition term_matches (term title : string) (description : option string) : bool :=
  PyStr.contains (PyStr.lower term) (PyStr.lower title)
  || PyStr.contains (PyStr.lower term) (PyStr.lower (get description "")).

End App.

(** ** [src/search_api.py] *)

Module SearchApi.

(** *** Google Jobs through SerpAPI *)

(** The request dictionary [params] (lines 75-85); [location] is absent
    unless the caller's location differs from the sentinel. *)
Record Params : Type := {
  engine : string;
  q : string;
  hl : string;
  gl : string;
  api_key : string;
  no_cache : bool;
  location : option string
}.

(** What [GoogleSearch(params).get_dict()] can do: raise, or return a
    dictionary that may hold an ["error"] key and a ["jobs_results"] list. *)
Inductive Response : Type :=
| SearchRaises (e : exn)
| SearchDict (has_error : bool) (jobs_results : option (list RawJob)).

(** The search service: the answer to the [n]-th request of a call. *)
Definition Service : Type := nat -> Params -> Response.

(** The normalised record [jd] (lines 102-111). *)
Record GoogleJob : Type := {
  jd_title : option string;
  jd_company : option string;
  jd_location : option string;
  jd_link : option string;
  jd_posted : option string;
  jd_schedule_type : option string;
  jd_via : option string;
  jd_match_reason : string
}.

(** [filter(None, queries)] *)
Definition filter_None (queries : list string) : list string :=
  filter PyStr.nonempty queries.

(** The list [queries] (lines 62-67). *)
Definition queries (detected_roles : RoleProfile) : list string :=
  ([ get (primary_role detected_roles) "";
     (get (primary_role detected_roles) "" ++ " "
        ++ PyStr.lower (get (career_level detected_roles) ""))%string ]
     ++ firstn 2 (get (alternative_roles detected_roles) [])
     ++ firstn 2 (get (recommended_keywords detected_roles) []))%list.

(** [params] for one query (lines 75-85). *)
Definition make_params (key query loc : string) : Params := {|
  engine := "google_jobs";
  q := (query ++ " remote")%string;
  hl := "en";
  gl := "us";
  api_key := key;
  no_cache := false;
  location :=
    if String.eqb (PyStr.lower (PyStr.strip loc)) "remote" then None else Some loc
|}.

(** [(job.get("related_links") or [{}])[0].get("link")] *)
Definition related_link (job : RawJob) : option string :=
  match job_related_links job with
  | Some (d :: _) => link d
  | Some [] | None => None
  end.

(** [job.get("apply_options", [{}])[0].get("link")]: the default only
    replaces an absent key, so an empty list is indexed. *)
Definition apply_options_link (job : RawJob) : result (option string) :=
  match job_apply_options job with
  | None => Ok None
  | Some [] => Raised IndexError
  | Some (d :: _) => Ok (link d)
  end.

(** The expression assigned to [link] (lines 94-100); [or] evaluates its
    right operand only when the left one is falsy. *)
Definition extract_link (job : RawJob) : result (option string) :=
  if truthy (related_link job) then Ok (related_link job)
  else
    match apply_options_link job with
    | Raised e => Raised e
    | Ok from_options =>
        Ok (py_or from_options
              (py_or (job_search_link job)
                 (py_or (job_apply_link job) (job_link job))))
    end.

(** [job.get("detected_extensions", {}).get(k)] *)
Definition extension (k : Extensions -> option string) (job : RawJob) : option string :=
  match job_detected_extensions job with
  | Some ext => k ext
  | None => None
  end.

(** Lines 94-111: the link, then the record. *)
Definition normalize (query : string) (job : RawJob) : result GoogleJob :=
  match extract_link job with
  | Raised e => Raised e
  | Ok l =>
      Ok {| jd_title := job_title job;
            jd_company := job_company_name job;
            jd_location := job_location job;
            jd_link := l;
            jd_posted := extension posted_at job;
            jd_schedule_type := extension schedule_type job;
            jd_via := job_via job;
            jd_match_reason := ("Matches: " ++ query)%string |}
  end.

(** [==] on values that are a string or [None]. *)
Definition opt_eqb (a b : option string) : bool :=
  match a, b with
  | Some x, Some y => String.eqb x y
  | None, None => true
  | _, _ => false
  end.

(** [jd["title"] == e["title"] and jd["company"] == e["company"]] *)
Definition same_job (jd e : GoogleJob) : bool :=
  opt_eqb (jd_title jd) (jd_title e) && opt_eqb (jd_company jd) (jd_company e).

(** Lines 112-115. *)
Definition append_unique (jd : GoogleJob) (all_jobs : list GoogleJob) : list GoogleJob :=
  if existsb (same_job jd) all_jobs then all_jobs else all_jobs ++ [jd].

(** The inner loop (lines 90-115) from a given [all_jobs].  The list is
    mutated in place, so what was appended before an exception stays; the
    second component is the exception that left the loop, if any. *)
Fixpoint jobs_loop (limit : Z) (query : string) (jobs : list RawJob)
    (all_jobs : list GoogleJob) : list GoogleJob * option exn :=
  match jobs with
  | [] => (all_jobs, None)
  | job :: rest =>
      if len_ge all_jobs limit then (all_jobs, None)
      else
        match normalize query job with
        | Raised e => (all_jobs, Some e)
        | Ok jd => jobs_loop limit query rest (append_unique jd all_jobs)
        end
  end.

(** The body of [try] for one query (lines 87-115). *)
Definition run_query (limit : Z) (query : string) (res : Response)
    (all_jobs : list GoogleJob) : list GoogleJob * option exn :=
  match res with
  | SearchRaises e => (all_jobs, Some e)
  | SearchDict true _ => (all_jobs, None)
  | SearchDict false results => jobs_loop limit query (get results []) all_jobs
  end.

(** The outer loop (lines 71-117): [except Exception: continue] discards
    the exception and goes on with the next query.  [trace] lists the
    requests issued so far. *)
Fixpoint query_loop (search : Service) (key loc : string) (limit : Z)
    (qs : list string) (all_jobs : list GoogleJob) (trace : list Params)
    : list GoogleJob * list Params :=
  match qs with
  | [] => (all_jobs, trace)
  | query :: rest =>
      if len_ge all_jobs limit then (all_jobs, trace)
      else
        let params := make_params key query loc in
        let res := search (length trace) params in
        query_loop search key loc limit rest
          (fst (run_query limit query res all_jobs)) (trace ++ [params])
  end.

(** [fetch_google_jobs_serpapi]: [key] is the value of [_get_serpapi_key()].
    Returns the list and the requests issued. *)
Definition fetch_google_jobs_serpapi (search : Service) (key : option string)
    (detected_roles : RoleProfile) (loc : string) (limit : Z)
    : list GoogleJob * list Params :=
  match key with
  | Some k =>
      if PyStr.nonempty k then
        let '(all_jobs, trace) :=
          query_loop search k loc limit (filter_None (queries detected_roles)) [] [] in
        (slice_to limit all_jobs, trace)
      else ([], [])
  | None => ([], [])
  end.

(** The deduplication key of a normalised record. *)
Definition job_key (jd : GoogleJob) : option string * option string :=
  (jd_title jd, jd_company jd).

(** *** Jobicy and the RSS feeds *)

Definition _RSS_FEEDS : list string :=
  [ "https://weworkremotely.com/remote-programming-jobs.rss";
    "https://himalayas.app/jobs.rss" ].

(** [search_terms] (lines 134-135). *)
Definition search_terms (detected_roles : RoleProfile) : list string :=
  get (primary_role detected_roles) "" :: get (recommended_keywords detected_roles) [].

(** [datetime.date.today() - datetime.timedelta(days=30)] *)
Definition cutoff (today_ordinal : Z) : Z := (today_ordinal - 30)%Z.

(** The [for term in search_terms] loop with its [break]: the first term
    whose lower-cased form occurs in [text]. *)
Definition first_match (terms : list string) (text : string) : option string :=
  find (fun term => PyStr.contains (PyStr.lower term) text) terms.

(** [content] (line 151). *)
Definition content (job : JobicyJob) : string :=
  PyStr.lower (get (jobicy_title job) "" ++ " " ++ get (jobicy_description job) "")%string.

(** The body of the Jobicy loop (lines 148-162) on one record: an exception,
    nothing to append, or the record to append. *)
Definition jobicy_step (cut : Z) (terms : list string) (job : JobicyJob)
    : result (option MatchedJob) :=
  match jobicy_published_at job with
  | DateAbsent => Raised KeyError
  | DateMalformed => Raised ValueError
  | DateValue pub =>
      if (pub <? cut)%Z then Ok None
      else
        match first_match terms (content job) with
        | None => Ok None
        | Some term =>
            match jobicy_url job, jobicy_title job with
            | Some u, Some t =>
                Ok (Some {| m_url := u;
                            m_title := t;
                            m_company := get (jobicy_company_name job) "Unknown";
                            m_match_reason := ("Matches: " ++ term)%string |})
            | _, _ => Raised KeyError
            end
        end
  end.

(** The body of the RSS loop (lines 172-179) on one entry. *)
Definition rss_step (cut : Z) (terms : list string) (entry : RssEntry)
    : result (option MatchedJob) :=
  match entry_published entry with
  | DateAbsent => Raised AttributeError
  | DateMalformed => Raised ValueError
  | DateValue pub_dt =>
      if (pub_dt <? cut)%Z then Ok None
      else
        match entry_title entry with
        | None => Raised AttributeError
        | Some title =>
            match first_match terms (PyStr.lower title) with
            | None => Ok None
            | Some term =>
                match entry_link entry with
                | None => Raised AttributeError
                | Some l =>
                    Ok (Some {| m_url := l;
                                m_title := title;
                                m_company := "Remote";
                                m_match_reason := ("Matches: " ++ term)%string |})
                end
            end
        end
  end.

(** A [for] loop appending to [matched] in place: the first exception leaves
    the loop, what was appended before it stays. *)
Fixpoint collect {A : Type} (step : A -> result (option MatchedJob))
    (items : list A) (matched : list MatchedJob) : list MatchedJob * option exn :=
  match items with
  | [] => (matched, None)
  | item :: rest =>
      match step item with
      | Raised e => (matched, Some e)
      | Ok None => collect step rest matched
      | Ok (Some m) => collect step rest (matched ++ [m])
      end
  end.

(** The first [try] block (lines 140-164). *)
Definition jobicy_stage (src : Sources) (terms : list string)
    (matched : list MatchedJob) : list MatchedJob * option exn :=
  match jobicy_jobs src with
  | Raised e => (matched, Some e)
  | Ok data => collect (jobicy_step (cutoff (today src)) terms) data matched
  end.

(** The [for rss in _RSS_FEEDS] loop; it sits inside one [try], so an
    exception in a feed leaves the loop over the feeds as well. *)
Fixpoint feeds_loop (src : Sources) (cut : Z) (terms : list string)
    (feeds : list string) (matched : list MatchedJob) : list MatchedJob * option exn :=
  match feeds with
  | [] => (matched, None)
  | rss :: rest =>
      match feed_entries src rss with
      | Raised e => (matched, Some e)
      | Ok entries =>
          match collect (rss_step cut terms) entries matched with
          | (matched', None) => feeds_loop src cut terms rest matched'
          | (matched', Some e) => (matched', Some e)
          end
      end
  end.

(** The second [try] block (lines 167-181). *)
Definition rss_stage (src : Sources) (terms : list string)
    (matched : list MatchedJob) : list MatchedJob * option exn :=
  feeds_loop src (cutoff (today src)) terms _RSS_FEEDS matched.

(** [enhanced_jobicy_search]: both [except] clauses are [pass]. *)
Definition enhanced_jobicy_search (src : Sources) (detected_roles : RoleProfile)
    (limit : Z) : list MatchedJob :=
  let terms := search_terms detected_roles in
  let matched := fst (jobicy_stage src terms []) in
  let matched := fst (rss_stage src terms matched) in
  slice_to limit matched.

(** The deduplication key the specification speaks of, on a matched record. *)
Definition matched_key (m : MatchedJob) : string * string := (m_title m, m_company m).

End SearchApi.

(** ** [src/app.py]: the inline adapters and the search they serve *)

Module AppSearch.

(** A raw listing as the inline copy reads it: the fields both copies read
    and three more. *)
Record Listing : Type := {
  base : RawJob;
  job_id : option string;
  thumbnail : option string;
  description : option string
}.

Inductive Response : Type :=
| SearchRaises (e : exn)
| SearchDict (has_error : bool) (jobs_results : option (list Listing)).

Definition Service : Type := nat -> SearchApi.Params -> Response.

(** The record [job_data] (lines 176-188). *)
Record JobData : Type := {
  data_title : option string;
  data_company : option string;
  data_location : option string;
  data_link : option string;
  data_posted : option string;
  data_schedule_type : option string;
  data_via : option string;
  data_job_id : option string;
  data_thumbnail : option string;
  data_description : option string;
  data_match_reason : string
}.

(** [params] (lines 150-158): the location is always sent. *)
Definition make_params (key query loc : string) : SearchApi.Params := {|
  SearchApi.engine := "google_jobs";
  SearchApi.q := (query ++ " remote")%string;
  SearchApi.hl := "en";
  SearchApi.gl := "us";
  SearchApi.api_key := key;
  SearchApi.no_cache := false;
  SearchApi.location := Some loc
|}.

Definition job_data (query : string) (job : Listing) : JobData := {|
  data_title := job_title (base job);
  data_company := job_company_name (base job);
  data_location := job_location (base job);
  data_link := App.inline_link (base job);
  data_posted := SearchApi.extension posted_at (base job);
  data_schedule_type := SearchApi.extension schedule_type (base job);
  data_via := job_via (base job);
  data_job_id := job_id job;
  data_thumbnail := thumbnail job;
  data_description := description job;
  data_match_reason := ("Matches: " ++ query)%string
|}.

(** Lines 191-193. *)
Definition same_job (existing_job new : JobData) : bool :=
  SearchApi.opt_eqb (data_title existing_job) (data_title new)
  && SearchApi.opt_eqb (data_company existing_job) (data_company new).

Definition append_unique (new : JobData) (all_jobs : list JobData) : list JobData :=
  if existsb (fun existing_job => same_job existing_job new) all_jobs
  then all_jobs else all_jobs ++ [new].

(** The inner loop (lines 171-194). *)
Fixpoint jobs_loop (limit : Z) (query : string) (jobs : list Listing)
    (all_jobs : list JobData) : list JobData :=
  match jobs with
  | [] => all_jobs
  | job :: rest =>
      if len_ge all_jobs limit then all_jobs
      else jobs_loop limit query rest (append_unique (job_data query job) all_jobs)
  end.

(** The body of [try] for one query (lines 161-194). *)
Definition run_query (limit : Z) (query : string) (res : Response)
    (all_jobs : list JobData) : list JobData :=
  match res with
  | SearchRaises _ => all_jobs
  | SearchDict true _ => all_jobs
  | SearchDict false results => jobs_loop limit query (get results []) all_jobs
  end.

(** The outer loop (lines 145-198). *)
Fixpoint query_loop (search : Service) (key loc : string) (limit : Z)
    (qs : list string) (all_jobs : list JobData) (trace : list SearchApi.Params)
    : list JobData * list SearchApi.Params :=
  match qs with
  | [] => (all_jobs, trace)
  | query :: rest =>
      if len_ge all_jobs limit then (all_jobs, trace)
      else
        let params := make_params key query loc in
        query_loop search key loc limit rest
          (run_query limit query (search (length trace) params) all_jobs)
          (trace ++ [params])
  end.

(** The inline [fetch_google_jobs_serpapi] (lines 126-200): the credential
    is looked at first; the query list is built before the loop and an absent
    key of the profile raises out of the function; the list is returned as
    accumulated. *)
Definition fetch_google_jobs_serpapi (search : Service) (key : option string)
    (detected_roles : RoleProfile) (loc : string) (limit : Z)
    : result (list JobData) * list SearchApi.Params :=
  if truthy key then
    match App.search_queries detected_roles with
    | Raised e => (Raised e, [])
    | Ok qs =>
        let '(all_jobs, trace) := query_loop search (get key "") loc limit qs [] [] in
        (Ok all_jobs, trace)
    end
  else (Ok [], []).

(** The body of the loop of the inline [enhanced_jobicy_search]
    (lines 214-224) on one record. *)
Definition jobicy_step (cut : Z) (terms : list string) (job : JobicyJob)
    : result (option MatchedJob) :=
  match jobicy_published_at job with
  | DateAbsent => Raised KeyError
  | DateMalformed => Raised ValueError
  | DateValue job_date =>
      if (cut <=? job_date)%Z then
        match terms with
        | [] => Ok None
        | _ :: _ =>
            match jobicy_title job with
            | None => Raised KeyError
            | Some title =>
                match find (fun term => App.term_matches term title (jobicy_description job))
                        terms with
                | None => Ok None
                | Some term =>
                    match jobicy_url job with
                    | None => Raised KeyError
                    | Some u =>
                        Ok (Some {| m_url := u;
                                    m_title := title;
                                    m_company := get (jobicy_company_name job) "Unknown";
                                    m_match_reason := ("Matches: " ++ term)%string |})
                    end
                end
            end
        end
      else Ok None
  end.

(** The inline [enhanced_jobicy_search] (lines 203-229): one [try] around
    everything, and [return []] in its handler. *)
Definition enhanced_jobicy_search (src : Sources) (detected_roles : RoleProfile)
    (limit : Z) : list MatchedJob :=
  match jobicy_jobs src with
  | Raised _ => []
  | Ok data =>
      match primary_role detected_roles, recommended_keywords detected_roles with
      | Some primary, Some keywords =>
          match SearchApi.collect
                  (jobicy_step (SearchApi.cutoff (today src)) (primary :: keywords))
                  data [] with
          | (matched_jobs, None) => slice_to limit matched_jobs
          | (_, Some _) => []
          end
      | _, _ => []
      end
  end.

(** [final_location] (lines 307-309): the custom location when it is not
    blank, else the selected one; the sentinel becomes the empty string. *)
Definition final_location (custom_location selected : string) : string :=
  let chosen :=
    if PyStr.nonempty (PyStr.strip custom_location)
    then PyStr.strip custom_location else selected in
  if String.eqb (PyStr.lower (PyStr.strip chosen)) "remote" then "" else chosen.

(** The two calls behind the search button (lines 316 and 325), with the
    default limits 15 and 10 of the two functions. *)
Definition find_jobs (search : Service) (src : Sources) (key : option string)
    (detected_roles : RoleProfile) (custom_location selected : string)
    : result (list JobData * list MatchedJob) :=
  match fst (fetch_google_jobs_serpapi search key detected_roles
               (final_location custom_location selected) 15) with
  | Raised e => Raised e
  | Ok google_jobs => Ok (google_jobs, enhanced_jobicy_search src detected_roles 10)
  end.

(** [total_jobs] (line 333). *)
Definition total_jobs (found : list JobData * list MatchedJob) : nat :=
  length (fst found) + length (snd found).

End AppSearch.

(** ** The credential *)

(** [get_serpapi_key] of [app.py] and [_get_serpapi_key] of [search_api.py]:
    [secrets] is what reading ["SERPAPI_KEY"] from the Streamlit secrets
    gives (an exception when Streamlit or its secrets file is missing, [None]
    when the key is not in the secrets), [env] is the environment
    variable. *)
Definition get_serpapi_key (secrets : result (option string)) (env : option string)
    : option string :=
  match secrets with
  | Ok (Some key) => Some key
  | Ok None => env
  | Raised _ => env
  end.

(** ** [src/app.py]: text extraction and the cached model call *)

(** The first [n] characters of a string. *)
Fixpoint str_take (n : nat) (s : string) : string :=
  match n, s with
  | O, _ => EmptyString
  | S _, EmptyString => EmptyString
  | S n', String c s' => String c (str_take n' s')
  end.

(** [s[:n]] on a string, as [slice_to] on a list. *)
Definition str_slice_to (n : Z) (s : string) : string :=
  if (0 <=? n)%Z then str_take (Z.to_nat n) s
  else str_take (Z.to_nat (Z.of_nat (String.length s) + n)) s.

Module Pdf.

(** What [page.extract_text()] does on a page: it raises, or returns a
    string or [None]. *)
Definition Page : Type := result (option string).

(** What [pdfplumber.open(upload)] does: it raises, or gives the pages. *)
Definition Document : Type := result (list Page).

(** The test of the generator on line 41:
    [31 < ord(ch) < 127 or ch in "\n\r\t"]. *)
Definition keep_char (ch : ascii) : bool :=
  let n := nat_of_ascii ch in
  ((31 <? n)%nat && (n <? 127)%nat)
  || Ascii.eqb ch "010" || Ascii.eqb ch "013" || Ascii.eqb ch "009".

Fixpoint sanitize (text : string) : string :=
  match text with
  | EmptyString => EmptyString
  | String ch text' =>
      if keep_char ch then String ch (sanitize text') else sanitize text'
  end.

(** The loop over the pages (lines 34-39) from a given [text]; [read]
    counts the pages whose text was asked for. *)
Fixpoint pages_loop (max_chars : Z) (pages : list Page) (text : string) (read : nat)
    : result string * nat :=
  match pages with
  | [] => (Ok text, read)
  | page :: rest =>
      match page with
      | Raised e => (Raised e, S read)
      | Ok page_text =>
          let text' :=
            if truthy page_text
            then (text ++ get page_text "" ++ PyStr.nl)%string else text in
          if (max_chars <=? Z.of_nat (String.length text'))%Z
          then (Ok text', S read)
          else pages_loop max_chars rest text' (S read)
      end
  end.

(** [extract_text_from_pdf] (lines 29-44): any exception gives the empty
    string. *)
Definition extract_text_from_pdf (upload : Document) (max_chars : Z) : string :=
  match upload with
  | Raised _ => ""
  | Ok pages =>
      match fst (pages_loop max_chars pages "" 0) with
      | Raised _ => ""
      | Ok text => sanitize (str_slice_to max_chars text)
      end
  end.

End Pdf.

Module Ollama.

(** The arguments of [_ollama], which are the key of its cache. *)
Record Args : Type := {
  model : string;
  key : string;
  prompt : string
}.

Definition args_eqb (a b : Args) : bool :=
  String.eqb (model a) (model b) && String.eqb (key a) (key b)
  && String.eqb (prompt a) (prompt b).

(** The state of [functools.lru_cache(maxsize=128)]: the entries, the most
    recently used first. *)
Definition Cache : Type := list (Args * string).

Definition maxsize : nat := 128.

Definition lookup (args : Args) (cache : Cache) : option string :=
  match find (fun entry => args_eqb (fst entry) args) cache with
  | Some entry => Some (snd entry)
  | None => None
  end.

Definition forget (args : Args) (cache : Cache) : Cache :=
  filter (fun entry => negb (args_eqb (fst entry) args)) cache.

(** The language model: [ollama.chat(...)["message"]["content"]], or an
    exception. *)
Definition Chat : Type := string -> string -> result string.

(** The body of [_ollama] (lines 50-55). *)
Definition answer (chat : Chat) (args : Args) : string :=
  match chat (model args) (prompt args) with
  | Ok content => content
  | Raised _ => ""
  end.

(** [_ollama] under its cache: the answer, the cache afterwards and the
    number of calls made to the model. A hit makes the entry the most recent
    one; a miss stores the answer and, when the cache is full, drops the
    entry used longest ago. *)
Definition _ollama (chat : Chat) (cache : Cache) (args : Args) : string * Cache * nat :=
  match lookup args cache with
  | Some response => (response, (args, response) :: forget args cache, 0)
  | None =>
      let response := answer chat args in
      (response, firstn maxsize ((args, response) :: cache), 1)
  end.

(** [ask_ollama] (lines 57-63). *)
Definition ask_ollama (chat : Chat) (cache : Cache) (model_name prompt_text resume_hash : string)
    : string * Cache * nat :=
  _ollama chat cache
    {| model := model_name;
       key := (resume_hash ++ str_take 40 prompt_text)%string;
       prompt := prompt_text |}.

End Ollama.

(** ** The link chain in the words of the specification *)

(** The first truthy candidate, or the last candidate when none is truthy:
    the value of [c1 or c2 or ... or cn]. *)
Fixpoint first_truthy (candidates : list (option string)) : option string :=
  match candidates with
  | [] => None
  | [c] => c
  | c :: rest => if truthy c then c else first_truthy rest
  end.

(** [apply_options[0].get("link")] for a non-empty list, [None] otherwise. *)
Definition options_candidate (job : RawJob) : option string :=
  match job_apply_options job with
  | Some (d :: _) => link d
  | Some [] | None => None
  end.

(** ** Well-formed input of the Jobicy/RSS adapter *)

(** The loop body returns on [item] (it may or may not append). *)
Definition well_formed {A : Type} (step : A -> result (option MatchedJob)) (item : A) : Prop :=
  exists r, step item = Ok r.

(** The feed at [rss] parses and the loop body returns on each of its
    entries. *)
Definition clean_feed (src : Sources) (cut : Z) (terms : list string) (rss : string) : Prop :=
  exists entries,
    feed_entries src rss = Ok entries
    /\ Forall (well_formed (SearchApi.rss_step cut terms)) entries.

(** ** The answer format the prompt asks for *)

(** [sep.join(items)] *)
Fixpoint join (sep : string) (items : list string) : string :=
  match items with
  | [] => EmptyString
  | [item] => item
  | item :: rest => (item ++ sep ++ join sep rest)%string
  end.

(** The characters of a string. *)
Fixpoint chars (s : string) : list ascii :=
  match s with
  | EmptyString => []
  | String c s' => c :: chars s'
  end.

(** The answer laid out as the prompt of [detect_suitable_job_roles] asks
    (lines 85-89 of [app.py]): one labelled line per field, the lists
    separated by a comma and a space. *)
Definition formatted_response (primary : string) (alternatives : list string)
    (level : string) (strengths keywords : list string) : string :=
  ("PRIMARY ROLE: " ++ primary ++ PyStr.nl
   ++ "ALTERNATIVE ROLES: " ++ join ", " alternatives ++ PyStr.nl
   ++ "CAREER LEVEL: " ++ level ++ PyStr.nl
   ++ "KEY STRENGTHS: " ++ join ", " strengths ++ PyStr.nl
   ++ "RECOMMENDED KEYWORDS: " ++ join ", " keywords)%string.

(** A value that can stand in a labelled line: no white space at either
    end, no colon, no line feed. *)
Definition plain (s : string) : Prop :=
  PyStr.lstrip s = s /\ PyStr.rstrip s = s
  /\ ~ In ":"%char (chars s) /\ ~ In "010"%char (chars s).

(** A value that can stand in a comma-separated list: plain, not empty and
    without a comma. *)
Definition plain_item (s : string) : Prop :=
  plain s /\ s <> EmptyString /\ ~ In ","%char (chars s).

(** No value of the profile has white space at either end. *)
Definition all_stripped (p : RoleProfile) : Prop :=
  (forall s, primary_role p = Some s -> PyStr.strip s = s)
  /\ (forall l, alternative_roles p = Some l -> Forall (fun s => PyStr.strip s = s) l)
  /\ (forall s, career_level p = Some s -> PyStr.strip s = s)
  /\ (forall l, key_strengths p = Some l -> Forall (fun s => PyStr.strip s = s) l)
  /\ (forall l, recommended_keywords p = Some l -> Forall (fun s => PyStr.strip s = s) l).

(** ** Sample data

    Concrete listings, services and profiles on which the adapters are run
    below. *)

Module Sample.

(** A raw SerpAPI listing with a title and a company and no link at all. *)
Definition listing (title company : string) : RawJob := {|
  job_title := Some title;
  job_company_name := Some company;
  job_location := None;
  job_related_links := None;
  job_apply_options := None;
  job_search_link := None;
  job_apply_link := None;
  job_link := None;
  job_detected_extensions := None;
  job_via := None
|}.

(** Only [apply_link] is populated. *)
Definition apply_link_only : RawJob := {|
  job_title := Some "QA Engineer";
  job_company_name := Some "Acme";
  job_location := None;
  job_related_links := None;
  job_apply_options := None;
  job_search_link := None;
  job_apply_link := Some "https://acme.example/apply/42";
  job_link := None;
  job_detected_extensions := None;
  job_via := None
|}.

(** [apply_options] is present and empty; a search link is available. *)
Definition empty_apply_options : RawJob := {|
  job_title := Some "Test Lead";
  job_company_name := Some "Initech";
  job_location := None;
  job_related_links := None;
  job_apply_options := Some [];
  job_search_link := Some "https://www.google.com/search?q=test+lead";
  job_apply_link := None;
  job_link := None;
  job_detected_extensions := None;
  job_via := None
|}.

(** A service that answers every request with the same listings. *)
Definition always (jobs : list RawJob) : SearchApi.Service :=
  fun _ _ => SearchApi.SearchDict false (Some jobs).

(** A profile with one role and nothing else. *)
Definition only_role (role : string) : RoleProfile := {|
  primary_role := Some role;
  alternative_roles := Some [];
  career_level := Some "";
  key_strengths := Some [];
  recommended_keywords := Some []
|}.

Definition today_ordinal : Z := 739925.

Definition jobicy_listing (title description company : string) (published : DateField)
    : JobicyJob := {|
  jobicy_published_at := published;
  jobicy_title := Some title;
  jobicy_description := Some description;
  jobicy_url := Some "https://jobicy.com/jobs/1";
  jobicy_company_name := Some company
|}.

Definition rss_entry (title : string) (published : DateField) : RssEntry := {|
  entry_published := published;
  entry_title := Some title;
  entry_link := Some "https://weworkremotely.com/listing"
|}.

(** Jobicy answers with [jobs]; both feeds are empty. *)
Definition jobicy_only (jobs : list JobicyJob) : Sources := {|
  jobicy_jobs := Ok jobs;
  feed_entries := fun _ => Ok [];
  today := today_ordinal
|}.


End Sample.

(** ** Tactics for concrete strings *)

Ltac absent_char :=
  let H := fresh in
  simpl; intros H; repeat (destruct H as [H|H]; [discriminate H|]); exact H.

Ltac plain_value :=
  repeat first
    [ apply Forall_nil
    | apply Forall_cons
    | split
    | reflexivity
    | discriminate
    | absent_char ].

(** * Properties *)

(** ** The string primitives on examples *)

Example lower_example : PyStr.lower "Mid Level" = "mid level".
Proof. reflexivity. Qed.

Example strip_example : PyStr.strip "  Data Scientist 	" = "Data Scientist".
Proof. reflexivity. Qed.

Example split_example : PyStr.split "," "a, b,,c" = ["a"; " b"; ""; "c"].
Proof. reflexivity. Qed.

Example split_empty_example : PyStr.split "," "" = [""].
Proof. reflexivity. Qed.

Example remove_example :
  PyStr.remove "KEY:" "KEY: a KEY:b" = " a b".
Proof. reflexivity. Qed.

Example contains_example :
  PyStr.contains "data" "senior data scientist" = true
  /\ PyStr.contains "python" "senior data scientist" = false
  /\ PyStr.contains "" "x" = true.
Proof. repeat split; reflexivity. Qed.

Lemma split_not_nil (sep : ascii) (s : string) : PyStr.split sep s <> [].
Proof.
  destruct s as [|c s]; simpl; [discriminate|].
  destruct (Ascii.eqb c sep); [discriminate|].
  destruct (PyStr.split sep s); discriminate.
Qed.

Lemma nonempty_false (s : string) : PyStr.nonempty s = false <-> s = "".
Proof. destruct s; simpl; split; congruence. Qed.

(** ** Role-profile parsing ([detect_suitable_job_roles]) *)

Example detect_example :
  App.detect_suitable_job_roles
    ("Here is my analysis." ++ PyStr.nl
     ++ "PRIMARY ROLE: Data Scientist" ++ PyStr.nl
     ++ "ALTERNATIVE ROLES: ML Engineer,  Analyst" ++ PyStr.nl
     ++ "  CAREER LEVEL: Senior")
  = {| primary_role := Some "Data Scientist";
       alternative_roles := Some ["ML Engineer"; "Analyst"];
       career_level := Some "Mid Level";
       key_strengths := Some ["Programming"; "Problem Solving"; "Technology"];
       recommended_keywords := Some ["software engineer"; "developer"; "programming"] |}.
Proof. reflexivity. Qed.

Lemma same_field_refl (f : App.Field) (p : RoleProfile) : App.same_field f p p.
Proof. destruct f; reflexivity. Qed.

Lemma same_field_trans (f : App.Field) (p q r : RoleProfile) :
  App.same_field f p q -> App.same_field f q r -> App.same_field f p r.
Proof. destruct f; simpl; congruence. Qed.

Lemma same_all_fields (p q : RoleProfile) :
  (forall f, App.same_field f p q) -> p = q.
Proof.
  intros H.
  pose proof (H App.PrimaryRole) as H1.
  pose proof (H App.AlternativeRoles) as H2.
  pose proof (H App.CareerLevel) as H3.
  pose proof (H App.KeyStrengths) as H4.
  pose proof (H App.RecommendedKeywords) as H5.
  destruct p, q; simpl in *; congruence.
Qed.

(** A line that does not start with the label of [f] leaves field [f] as it
    was. *)
Lemma parse_line_other_label (f : App.Field) (parsed : RoleProfile) (line : string) :
  PyStr.startswith line (App.label f) = false ->
  App.same_field f (App.parse_line parsed line) parsed.
Proof.
  intros Hf. unfold App.parse_line.
  destruct (PyStr.startswith line (App.label App.PrimaryRole)) eqn:E1;
    [destruct f; simpl; try reflexivity; congruence|].
  destruct (PyStr.startswith line (App.label App.AlternativeRoles)) eqn:E2;
    [destruct f; simpl; try reflexivity; congruence|].
  destruct (PyStr.startswith line (App.label App.CareerLevel)) eqn:E3;
    [destruct f; simpl; try reflexivity; congruence|].
  destruct (PyStr.startswith line (App.label App.KeyStrengths)) eqn:E4;
    [destruct f; simpl; try reflexivity; congruence|].
  destruct (PyStr.startswith line (App.label App.RecommendedKeywords)) eqn:E5;
    [destruct f; simpl; try reflexivity; congruence|].
  apply same_field_refl.
Qed.

Lemma parse_lines_other_label (f : App.Field) (lines : list string) :
  forall parsed,
    existsb (fun line => PyStr.startswith line (App.label f)) lines = false ->
    App.same_field f (fold_left App.parse_line lines parsed) parsed.
Proof.
  induction lines as [|line lines IH]; intros parsed H; simpl in *.
  - apply same_field_refl.
  - apply orb_false_iff in H as [Hline Hrest].
    eapply same_field_trans; [apply IH; exact Hrest|].
    apply parse_line_other_label; exact Hline.
Qed.

Lemma detect_unlabelled_field (f : App.Field) (response : string) :
  App.labelled f response = false ->
  App.same_field f (App.detect_suitable_job_roles response) App.default_roles.
Proof.
  intros H. unfold App.detect_suitable_job_roles.
  destruct (PyStr.nonempty response); [|apply same_field_refl].
  apply parse_lines_other_label; exact H.
Qed.

(** C9, as the code has it. Parsing of the model's answer goes by line
    prefix: the empty answer gives the default profile; a field whose label
    starts no line of the answer keeps its default value (a line that starts
    with the label always replaces it, see below); and an answer in which no
    line starts with any of the five labels gives the whole default profile
    (primary role "Software Engineer", alternative roles Developer,
    Programmer, Engineer, career level "Mid Level"). *)
Theorem detect_roles_defaults :
  App.detect_suitable_job_roles "" = App.default_roles
  /\ primary_role App.default_roles = Some "Software Engineer"
  /\ alternative_roles App.default_roles = Some ["Developer"; "Programmer"; "Engineer"]
  /\ career_level App.default_roles = Some "Mid Level"
  /\ forall response : string,
       (forall f, App.labelled f response = false ->
                  App.same_field f (App.detect_suitable_job_roles response)
                    App.default_roles)
       /\ ((forall f, App.labelled f response = false) ->
           App.detect_suitable_job_roles response = App.default_roles).
Proof.
  repeat split; try reflexivity.
  - intros f H. apply detect_unlabelled_field; exact H.
  - intros H. apply same_all_fields. intros f.
    apply detect_unlabelled_field, H.
Qed.

Lemma detect_roles_defaults_witness :
  App.labelled App.PrimaryRole ("I think: primary role: tester" ++ PyStr.nl ++ "CAREER LEVEL: Senior") = false
  /\ primary_role
       (App.detect_suitable_job_roles
          ("I think: primary role: tester" ++ PyStr.nl ++ "CAREER LEVEL: Senior"))
     = Some "Software Engineer"
  /\ App.detect_suitable_job_roles "no labelled line at all" = App.default_roles.
Proof.
  destruct detect_roles_defaults as (_ & _ & _ & _ & H).
  split; [reflexivity|]. split.
  - apply (proj1 (H _) App.PrimaryRole). reflexivity.
  - apply (proj2 (H _)). intros f; destruct f; reflexivity.
Defined.

(** C9 as stated fails for a field that is labelled but malformed: a line
    that starts with the label replaces the default whatever follows the
    label, so an empty value gives the empty string and a list of commas
    gives empty entries; the default is not kept. *)
Lemma labelled_field_loses_default :
  primary_role (App.detect_suitable_job_roles "PRIMARY ROLE:") = Some ""
  /\ alternative_roles (App.detect_suitable_job_roles "ALTERNATIVE ROLES: ,,")
     = Some [""; ""; ""]
  /\ ~ App.same_field App.PrimaryRole
        (App.detect_suitable_job_roles "PRIMARY ROLE:") App.default_roles
  /\ ~ App.same_field App.AlternativeRoles
        (App.detect_suitable_job_roles "ALTERNATIVE ROLES: ,,") App.default_roles.
Proof.
  split; [reflexivity|]. split; [reflexivity|].
  split; intros H; vm_compute in H; discriminate H.
Qed.

(** ** The query list of the SerpAPI adapter *)

Example queries_example :
  SearchApi.filter_None
    (SearchApi.queries
       {| primary_role := Some "Data Scientist";
          alternative_roles := Some ["ML Engineer"; "Analyst"; "Statistician"];
          career_level := Some "Senior";
          key_strengths := None;
          recommended_keywords := Some ["python"; "statistics"; "sql"] |})
  = ["Data Scientist"; "Data Scientist senior"; "ML Engineer"; "Analyst";
     "python"; "statistics"].
Proof. reflexivity. Qed.

Example queries_missing_fields_example :
  SearchApi.filter_None
    (SearchApi.queries
       {| primary_role := Some "Tester";
          alternative_roles := Some [""; "QA"];
          career_level := None;
          key_strengths := None;
          recommended_keywords := None |})
  = ["Tester"; "Tester "; "QA"].
Proof. reflexivity. Qed.

(** The inline copy in [app.py] filters nothing: an empty alternative role
    (as parsed from a line "ALTERNATIVE ROLES:") stays in its query list. *)
Example app_search_queries_example :
  App.search_queries (App.detect_suitable_job_roles "ALTERNATIVE ROLES:")
  = Ok ["Software Engineer"; "Software Engineer mid level"; "";
        "software engineer"; "developer"].
Proof. reflexivity. Qed.

Lemma filter_None_no_empty (qs : list string) : ~ In "" (SearchApi.filter_None qs).
Proof.
  unfold SearchApi.filter_None. intros H.
  apply filter_In in H as [_ H]. discriminate H.
Qed.

Lemma firstn_2_length {A : Type} (l : list A) : length (firstn 2 l) <= 2.
Proof. apply firstn_le_length. Qed.

Lemma queries_length (p : RoleProfile) : length (SearchApi.queries p) <= 6.
Proof.
  unfold SearchApi.queries. rewrite !length_app.
  pose proof (firstn_2_length (get (alternative_roles p) [])).
  pose proof (firstn_2_length (get (recommended_keywords p) [])).
  cbn [length]. lia.
Qed.

Lemma filter_length_bound {A : Type} (f : A -> bool) (l : list A) :
  length (filter f l) <= length l.
Proof.
  induction l as [|x l IH]; simpl; [lia|].
  destruct (f x); simpl; lia.
Qed.

(** The requests of the outer loop are those of a prefix of the query list,
    one request per query, in order. *)
Lemma query_loop_trace (search : SearchApi.Service) (key loc : string) (limit : Z) :
  forall qs all_jobs trace,
  exists n,
    snd (SearchApi.query_loop search key loc limit qs all_jobs trace)
    = trace ++ map (fun query => SearchApi.make_params key query loc) (firstn n qs).
Proof.
  induction qs as [|query qs IH]; intros all_jobs trace; simpl.
  - exists 0. simpl. now rewrite app_nil_r.
  - destruct (len_ge all_jobs limit).
    + exists 0. simpl. now rewrite app_nil_r.
    + destruct (IH (fst (SearchApi.run_query limit query
                           (search (length trace) (SearchApi.make_params key query loc))
                           all_jobs))
                   (trace ++ [SearchApi.make_params key query loc])) as [n Hn].
      exists (S n). rewrite Hn. simpl. now rewrite <- app_assoc.
Qed.

Lemma fetch_trace (search : SearchApi.Service) (key : option string)
    (p : RoleProfile) (loc : string) (limit : Z) :
  exists n,
    snd (SearchApi.fetch_google_jobs_serpapi search key p loc limit)
    = map (fun query => SearchApi.make_params (get key "") query loc)
        (firstn n (SearchApi.filter_None (SearchApi.queries p))).
Proof.
  unfold SearchApi.fetch_google_jobs_serpapi.
  destruct key as [k|]; [|exists 0; reflexivity].
  destruct (PyStr.nonempty k); [|exists 0; reflexivity].
  remember (SearchApi.filter_None (SearchApi.queries p)) as qs.
  destruct (query_loop_trace search k loc limit qs [] []) as [n Hn].
  exists n. change (get (Some k) "") with k.
  destruct (SearchApi.query_loop search k loc limit qs [] []) as [jobs trace].
  exact Hn.
Qed.

(** C1, as the code has it. For every role profile the query list of the
    SerpAPI adapter is, in this order, the primary role, the primary role
    followed by a space and the lower-cased career level, the first two
    alternative roles and the first two recommended keywords, with the empty
    strings (and only those) removed; it never holds the empty string, has at
    most six entries, and the requests issued are those of a prefix of it, in
    order. Strings of white space are not removed. *)
Theorem query_builder_sequence (p : RoleProfile) :
  let primary := get (primary_role p) "" in
  let level := get (career_level p) "" in
  let out := SearchApi.filter_None (SearchApi.queries p) in
  out = filter PyStr.nonempty
          ([primary; (primary ++ " " ++ PyStr.lower level)%string]
             ++ firstn 2 (get (alternative_roles p) [])
             ++ firstn 2 (get (recommended_keywords p) []))
  /\ ~ In "" out
  /\ length out <= 6
  /\ forall search key loc limit,
     exists n,
       snd (SearchApi.fetch_google_jobs_serpapi search key p loc limit)
       = map (fun query => SearchApi.make_params (get key "") query loc) (firstn n out).
Proof.
  cbv zeta. split; [reflexivity|]. split; [apply filter_None_no_empty|]. split.
  - unfold SearchApi.filter_None.
    pose proof (filter_length_bound PyStr.nonempty (SearchApi.queries p)).
    pose proof (queries_length p). lia.
  - intros. apply fetch_trace.
Qed.

(** C1 as stated fails: parsed from an answer with an empty primary role and
    an empty career level, the second query is a single space, a blank
    string that stays in the list. *)
Lemma query_builder_blank_query :
  let p := App.detect_suitable_job_roles
             ("PRIMARY ROLE:" ++ PyStr.nl ++ "CAREER LEVEL:") in
  SearchApi.filter_None (SearchApi.queries p)
    = [" "; "Developer"; "Programmer"; "software engineer"; "developer"]
  /\ ~ (forall query, In query (SearchApi.filter_None (SearchApi.queries p)) ->
                      PyStr.is_blank query = false).
Proof.
  cbv zeta. split; [reflexivity|].
  intros H. specialize (H " " (or_introl eq_refl)). discriminate H.
Qed.

(** ** Slicing and the length bound *)

Lemma slice_to_is_firstn {A : Type} (n : Z) (xs : list A) :
  exists k, slice_to n xs = firstn k xs.
Proof. unfold slice_to. destruct (0 <=? n)%Z; eauto. Qed.

Lemma slice_to_length {A : Type} (n : Z) (xs : list A) :
  (0 <= n)%Z -> (Z.of_nat (length (slice_to n xs)) <= n)%Z.
Proof.
  intros Hn. unfold slice_to.
  destruct (Z.leb_spec 0 n) as [_|Hneg]; [|lia].
  pose proof (firstn_le_length (Z.to_nat n) xs). lia.
Qed.

Lemma slice_to_all {A : Type} (n : Z) (xs : list A) :
  (Z.of_nat (length xs) <= n)%Z -> slice_to n xs = xs.
Proof.
  intros H. unfold slice_to.
  destruct (Z.leb_spec 0 n) as [_|Hneg]; [|lia].
  apply firstn_all2. lia.
Qed.

Lemma len_ge_spec {A : Type} (xs : list A) (limit : Z) :
  len_ge xs limit = true <-> (limit <= Z.of_nat (length xs))%Z.
Proof. unfold len_ge. apply Z.leb_le. Qed.

Lemma len_ge_false {A : Type} (xs : list A) (limit : Z) :
  len_ge xs limit = false <-> (Z.of_nat (length xs) < limit)%Z.
Proof. unfold len_ge. rewrite Z.leb_gt. reflexivity. Qed.

Lemma NoDup_firstn {A : Type} (k : nat) (l : list A) : NoDup l -> NoDup (firstn k l).
Proof.
  intros H. rewrite <- (firstn_skipn k l) in H.
  eapply NoDup_app_remove_r; exact H.
Qed.

(** ** The SerpAPI adapter: deduplication *)

Lemma opt_eqb_eq (a b : option string) : SearchApi.opt_eqb a b = true <-> a = b.
Proof.
  destruct a as [x|], b as [y|]; simpl; try (split; congruence).
  rewrite String.eqb_eq. split; congruence.
Qed.

Lemma same_job_key (jd e : SearchApi.GoogleJob) :
  SearchApi.same_job jd e = true <-> SearchApi.job_key jd = SearchApi.job_key e.
Proof.
  unfold SearchApi.same_job, SearchApi.job_key.
  rewrite andb_true_iff, !opt_eqb_eq. split.
  - intros [-> ->]. reflexivity.
  - intros H. injection H. auto.
Qed.

Lemma seen_key (jd : SearchApi.GoogleJob) (all_jobs : list SearchApi.GoogleJob) :
  existsb (SearchApi.same_job jd) all_jobs = true
  <-> In (SearchApi.job_key jd) (map SearchApi.job_key all_jobs).
Proof.
  rewrite existsb_exists, in_map_iff. split.
  - intros (e & Hin & Hsame). exists e. split; [|exact Hin].
    symmetry. apply same_job_key. exact Hsame.
  - intros (e & Hkey & Hin). exists e. split; [exact Hin|].
    apply same_job_key. symmetry. exact Hkey.
Qed.

Lemma append_unique_seen (jd : SearchApi.GoogleJob) (all_jobs : list SearchApi.GoogleJob) :
  In (SearchApi.job_key jd) (map SearchApi.job_key all_jobs) ->
  SearchApi.append_unique jd all_jobs = all_jobs.
Proof.
  intros H. apply seen_key in H. unfold SearchApi.append_unique. now rewrite H.
Qed.

Lemma append_unique_fresh (jd : SearchApi.GoogleJob) (all_jobs : list SearchApi.GoogleJob) :
  ~ In (SearchApi.job_key jd) (map SearchApi.job_key all_jobs) ->
  SearchApi.append_unique jd all_jobs = all_jobs ++ [jd].
Proof.
  intros H. unfold SearchApi.append_unique.
  destruct (existsb (SearchApi.same_job jd) all_jobs) eqn:E; [|reflexivity].
  apply seen_key in E. contradiction.
Qed.

Lemma append_unique_nodup (jd : SearchApi.GoogleJob) (all_jobs : list SearchApi.GoogleJob) :
  NoDup (map SearchApi.job_key all_jobs) ->
  NoDup (map SearchApi.job_key (SearchApi.append_unique jd all_jobs)).
Proof.
  intros H. unfold SearchApi.append_unique.
  destruct (existsb (SearchApi.same_job jd) all_jobs) eqn:E; [exact H|].
  rewrite map_app. simpl. apply NoDup_app. repeat split.
  - exact H.
  - constructor; [intros []|constructor].
  - intros k Hk [Hk'|[]]. subst k.
    apply seen_key in Hk. congruence.
Qed.

Lemma append_unique_extends (jd : SearchApi.GoogleJob) (all_jobs : list SearchApi.GoogleJob) :
  exists ext, SearchApi.append_unique jd all_jobs = all_jobs ++ ext
              /\ length ext <= 1.
Proof.
  unfold SearchApi.append_unique.
  destruct (existsb (SearchApi.same_job jd) all_jobs).
  - exists []. rewrite app_nil_r. simpl. auto.
  - exists [jd]. simpl. auto.
Qed.

Lemma jobs_loop_nodup (limit : Z) (query : string) (jobs : list RawJob) :
  forall all_jobs,
    NoDup (map SearchApi.job_key all_jobs) ->
    NoDup (map SearchApi.job_key (fst (SearchApi.jobs_loop limit query jobs all_jobs))).
Proof.
  induction jobs as [|job jobs IH]; intros all_jobs H; simpl; [exact H|].
  destruct (len_ge all_jobs limit); [exact H|].
  destruct (SearchApi.normalize query job) as [jd|e]; [|exact H].
  apply IH. apply append_unique_nodup. exact H.
Qed.

Lemma jobs_loop_extends (limit : Z) (query : string) (jobs : list RawJob) :
  forall all_jobs,
  exists ext, fst (SearchApi.jobs_loop limit query jobs all_jobs) = all_jobs ++ ext.
Proof.
  induction jobs as [|job jobs IH]; intros all_jobs; simpl.
  - exists []. now rewrite app_nil_r.
  - destruct (len_ge all_jobs limit); [exists []; now rewrite app_nil_r|].
    destruct (SearchApi.normalize query job) as [jd|e];
      [|exists []; now rewrite app_nil_r].
    destruct (append_unique_extends jd all_jobs) as (ext1 & -> & _).
    destruct (IH (all_jobs ++ ext1)) as [ext2 ->].
    exists (ext1 ++ ext2). now rewrite app_assoc.
Qed.

Lemma jobs_loop_bound (limit : Z) (query : string) (jobs : list RawJob) :
  forall all_jobs,
    (Z.of_nat (length all_jobs) <= Z.max 0 limit)%Z ->
    (Z.of_nat (length (fst (SearchApi.jobs_loop limit query jobs all_jobs)))
     <= Z.max 0 limit)%Z.
Proof.
  induction jobs as [|job jobs IH]; intros all_jobs H; simpl; [exact H|].
  destruct (len_ge all_jobs limit) eqn:E; [exact H|].
  destruct (SearchApi.normalize query job) as [jd|e]; [|exact H].
  apply IH. apply len_ge_false in E.
  destruct (append_unique_extends jd all_jobs) as (ext & -> & Hext).
  rewrite length_app. lia.
Qed.

Lemma run_query_nodup (limit : Z) (query : string) (res : SearchApi.Response)
    (all_jobs : list SearchApi.GoogleJob) :
  NoDup (map SearchApi.job_key all_jobs) ->
  NoDup (map SearchApi.job_key (fst (SearchApi.run_query limit query res all_jobs))).
Proof.
  intros H. destruct res as [e|[|] results]; simpl; try exact H.
  apply jobs_loop_nodup. exact H.
Qed.

Lemma run_query_bound (limit : Z) (query : string) (res : SearchApi.Response)
    (all_jobs : list SearchApi.GoogleJob) :
  (Z.of_nat (length all_jobs) <= Z.max 0 limit)%Z ->
  (Z.of_nat (length (fst (SearchApi.run_query limit query res all_jobs)))
   <= Z.max 0 limit)%Z.
Proof.
  intros H. destruct res as [e|[|] results]; simpl; try exact H.
  apply jobs_loop_bound. exact H.
Qed.

Lemma run_query_extends (limit : Z) (query : string) (res : SearchApi.Response)
    (all_jobs : list SearchApi.GoogleJob) :
  exists ext, fst (SearchApi.run_query limit query res all_jobs) = all_jobs ++ ext.
Proof.
  destruct res as [e|[|] results]; simpl;
    try (exists []; now rewrite app_nil_r).
  apply jobs_loop_extends.
Qed.

Lemma query_loop_nodup (search : SearchApi.Service) (key loc : string) (limit : Z) :
  forall qs all_jobs trace,
    NoDup (map SearchApi.job_key all_jobs) ->
    NoDup (map SearchApi.job_key
             (fst (SearchApi.query_loop search key loc limit qs all_jobs trace))).
Proof.
  induction qs as [|query qs IH]; intros all_jobs trace H; simpl; [exact H|].
  destruct (len_ge all_jobs limit); [exact H|].
  apply IH. apply run_query_nodup. exact H.
Qed.

Lemma query_loop_bound (search : SearchApi.Service) (key loc : string) (limit : Z) :
  forall qs all_jobs trace,
    (Z.of_nat (length all_jobs) <= Z.max 0 limit)%Z ->
    (Z.of_nat (length (fst (SearchApi.query_loop search key loc limit qs all_jobs trace)))
     <= Z.max 0 limit)%Z.
Proof.
  induction qs as [|query qs IH]; intros all_jobs trace H; simpl; [exact H|].
  destruct (len_ge all_jobs limit); [exact H|].
  apply IH. apply run_query_bound. exact H.
Qed.

Lemma query_loop_extends (search : SearchApi.Service) (key loc : string) (limit : Z) :
  forall qs all_jobs trace,
  exists ext,
    fst (SearchApi.query_loop search key loc limit qs all_jobs trace) = all_jobs ++ ext.
Proof.
  induction qs as [|query qs IH]; intros all_jobs trace; simpl.
  - exists []. now rewrite app_nil_r.
  - destruct (len_ge all_jobs limit); [exists []; now rewrite app_nil_r|].
    destruct (run_query_extends limit query
                (search (length trace) (SearchApi.make_params key query loc)) all_jobs)
      as [ext1 ->].
    destruct (IH (all_jobs ++ ext1) (trace ++ [SearchApi.make_params key query loc]))
      as [ext2 ->].
    exists (ext1 ++ ext2). now rewrite app_assoc.
Qed.

(** What [fetch_google_jobs_serpapi] returns is a prefix of what its outer loop
    accumulated from the empty list. *)
Lemma fetch_is_prefix (search : SearchApi.Service) (key : option string)
    (p : RoleProfile) (loc : string) (limit : Z) :
  exists k,
    fst (SearchApi.fetch_google_jobs_serpapi search key p loc limit)
    = firstn k (fst (SearchApi.query_loop search (get key "") loc limit
                       (SearchApi.filter_None (SearchApi.queries p)) [] [])).
Proof.
  unfold SearchApi.fetch_google_jobs_serpapi.
  destruct key as [key|]; [|exists 0; reflexivity].
  destruct (PyStr.nonempty key); [|exists 0; reflexivity].
  change (get (Some key) "") with key.
  destruct (SearchApi.query_loop search key loc limit
              (SearchApi.filter_None (SearchApi.queries p)) [] []) as [jobs trace].
  apply slice_to_is_firstn.
Qed.

(** When every listing of an answer normalises and the limit leaves room for
    all of them, the inner loop is a fold of [append_unique]. *)
Lemma jobs_loop_fold (limit : Z) (query : string) (jobs : list RawJob) :
  forall jds all_jobs,
    map (SearchApi.normalize query) jobs = map Ok jds ->
    (Z.of_nat (length all_jobs + length jobs) <= limit)%Z ->
    SearchApi.jobs_loop limit query jobs all_jobs
    = (fold_left (fun acc jd => SearchApi.append_unique jd acc) jds all_jobs, None).
Proof.
  induction jobs as [|job jobs IH]; intros jds all_jobs Hmap Hroom.
  - destruct jds; [reflexivity|discriminate].
  - destruct jds as [|jd jds]; [discriminate|].
    simpl in Hmap. injection Hmap as Hjob Hmap.
    simpl. simpl length in Hroom.
    assert (len_ge all_jobs limit = false) as -> by (apply len_ge_false; lia).
    rewrite Hjob. apply IH; [exact Hmap|].
    destruct (append_unique_extends jd all_jobs) as (ext & -> & Hext).
    rewrite length_app. lia.
Qed.

(** The entries of such a fold are those of the list it started from and the
    first occurrences of the keys not yet seen. *)
Lemma fold_first_occurrences (jds : list SearchApi.GoogleJob) :
  forall all_jobs jd,
    In jd (fold_left (fun acc jd => SearchApi.append_unique jd acc) jds all_jobs)
    <-> In jd all_jobs
        \/ exists pre post,
             jds = pre ++ jd :: post
             /\ ~ In (SearchApi.job_key jd) (map SearchApi.job_key (all_jobs ++ pre)).
Proof.
  induction jds as [|j jds IH]; intros all_jobs jd; simpl.
  - split; [auto|]. intros [H|(pre & post & H & _)]; [exact H|].
    destruct pre; discriminate.
  - rewrite IH. clear IH.
    unfold SearchApi.append_unique.
    destruct (existsb (SearchApi.same_job j) all_jobs) eqn:E.
    + apply seen_key in E. split.
      * intros [H|(pre & post & -> & Hnew)]; [auto|]. right.
        exists (j :: pre), post. split; [reflexivity|].
        rewrite map_app, in_app_iff in *. simpl. intros [H|[H|H]]; auto.
        apply Hnew. left. rewrite <- H. exact E.
      * intros [H|(pre & post & Heq & Hnew)]; [auto|]. right.
        destruct pre as [|j' pre]; simpl in Heq; injection Heq as -> ->.
        -- rewrite app_nil_r in Hnew. contradiction.
        -- exists pre, post. split; [reflexivity|].
           rewrite map_app, in_app_iff in *. simpl in Hnew. tauto.
    + assert (Hfresh : ~ In (SearchApi.job_key j) (map SearchApi.job_key all_jobs)).
      { intros H. apply seen_key in H. congruence. }
      split.
      * intros [H|(pre & post & -> & Hnew)].
        -- apply in_app_iff in H as [H|[<-|[]]]; [auto|]. right.
           exists [], jds. split; [reflexivity|]. now rewrite app_nil_r.
        -- right. exists (j :: pre), post. split; [reflexivity|].
           now rewrite <- app_assoc in Hnew.
      * intros [H|(pre & post & Heq & Hnew)].
        -- left. apply in_app_iff. auto.
        -- destruct pre as [|j' pre]; simpl in Heq; injection Heq as -> ->.
           ++ left. apply in_app_iff. simpl. auto.
           ++ right. exists pre, post. split; [reflexivity|].
              now rewrite <- app_assoc.
Qed.

(** C3, as the code has it. In the list returned by the SerpAPI adapter no
    two entries have the same (title, company) pair. A listing whose pair is
    already in the accumulated list is discarded and the list stays as it is;
    a listing with a new pair is appended at the end; and the loops only ever
    extend the accumulated list, so the entry met first is the one kept: for
    an answer whose listings all normalise and fit within the limit, the
    entries accumulated are exactly the first occurrences of their pairs. The
    Jobicy/RSS adapter has no such check. *)
Theorem serpapi_first_listing_wins (search : SearchApi.Service) (key : option string)
    (p : RoleProfile) (loc : string) (limit : Z) :
  NoDup (map SearchApi.job_key
           (fst (SearchApi.fetch_google_jobs_serpapi search key p loc limit)))
  /\ (forall jd all_jobs,
        In (SearchApi.job_key jd) (map SearchApi.job_key all_jobs) ->
        SearchApi.append_unique jd all_jobs = all_jobs)
  /\ (forall jd all_jobs,
        ~ In (SearchApi.job_key jd) (map SearchApi.job_key all_jobs) ->
        SearchApi.append_unique jd all_jobs = all_jobs ++ [jd])
  /\ (forall qs all_jobs trace,
      exists ext,
        fst (SearchApi.query_loop search (get key "") loc limit qs all_jobs trace)
        = all_jobs ++ ext)
  /\ (forall query jobs jds,
        map (SearchApi.normalize query) jobs = map Ok jds ->
        (Z.of_nat (length jobs) <= limit)%Z ->
        forall jd,
          In jd (fst (SearchApi.jobs_loop limit query jobs []))
          <-> exists pre post,
                jds = pre ++ jd :: post
                /\ ~ In (SearchApi.job_key jd) (map SearchApi.job_key pre)).
Proof.
  split; [|split; [|split; [|split]]].
  - destruct (fetch_is_prefix search key p loc limit) as [k ->].
    rewrite <- firstn_map. apply NoDup_firstn.
    apply query_loop_nodup. constructor.
  - apply append_unique_seen.
  - apply append_unique_fresh.
  - apply query_loop_extends.
  - intros query jobs jds Hmap Hroom jd.
    rewrite (jobs_loop_fold limit query jobs jds [] Hmap Hroom). cbn [fst].
    rewrite fold_first_occurrences. simpl. tauto.
Qed.

Lemma serpapi_first_listing_wins_witness :
  let first := {| SearchApi.jd_title := Some "Tester"; SearchApi.jd_company := Some "Acme";
                  SearchApi.jd_location := None; SearchApi.jd_link := Some "https://a.example/1";
                  SearchApi.jd_posted := None; SearchApi.jd_schedule_type := None;
                  SearchApi.jd_via := None; SearchApi.jd_match_reason := "Matches: Tester" |} in
  let later := {| SearchApi.jd_title := Some "Tester"; SearchApi.jd_company := Some "Acme";
                  SearchApi.jd_location := Some "Berlin"; SearchApi.jd_link := Some "https://b.example/2";
                  SearchApi.jd_posted := None; SearchApi.jd_schedule_type := None;
                  SearchApi.jd_via := None; SearchApi.jd_match_reason := "Matches: QA" |} in
  SearchApi.append_unique later [first] = [first].
Proof.
  cbv zeta.
  apply (proj1 (proj2 (serpapi_first_listing_wins
                         (Sample.always []) None (Sample.only_role "Tester") "Remote" 15))).
  simpl. left. reflexivity.
Defined.

Example serpapi_dedup_example :
  map SearchApi.jd_link
    (fst (SearchApi.fetch_google_jobs_serpapi
            (Sample.always
               [Sample.apply_link_only; Sample.listing "QA Engineer" "Acme";
                Sample.listing "QA Engineer" "Globex"])
            (Some "secret") (Sample.only_role "QA Engineer") "Remote" 15))
  = [Some "https://acme.example/apply/42"; None].
Proof. reflexivity. Qed.

(** ** The SerpAPI adapter: the missing credential *)

(** C5. When no credential is configured (the key is absent or empty) the
    SerpAPI adapter returns the empty list, an ordinary value, and issues no
    request at all. *)
Theorem no_credential_no_request (search : SearchApi.Service) (key : option string)
    (p : RoleProfile) (loc : string) (limit : Z) :
  truthy key = false ->
  SearchApi.fetch_google_jobs_serpapi search key p loc limit = ([], []).
Proof.
  intros H. unfold SearchApi.fetch_google_jobs_serpapi.
  destruct key as [k|]; [|reflexivity].
  simpl in H. rewrite H. reflexivity.
Qed.

Lemma no_credential_no_request_witness :
  SearchApi.fetch_google_jobs_serpapi
    (Sample.always [Sample.apply_link_only]) None
    (Sample.only_role "QA Engineer") "Berlin" 15 = ([], [])
  /\ SearchApi.fetch_google_jobs_serpapi
       (Sample.always [Sample.apply_link_only]) (Some "")
       (Sample.only_role "QA Engineer") "Berlin" 15 = ([], []).
Proof.
  split; apply no_credential_no_request; reflexivity.
Defined.

(** ** The SerpAPI adapter: the link *)

(** X6. Where the link expression returns, its value is the first non-empty
    candidate in the order related link, apply options, search link, apply
    link, link. *)
Lemma extract_link_first_candidate (job : RawJob) :
  truthy (SearchApi.related_link job) = true \/ job_apply_options job <> Some [] ->
  SearchApi.extract_link job
  = Ok (first_truthy [SearchApi.related_link job; options_candidate job;
                      job_search_link job; job_apply_link job; job_link job]).
Proof.
  intros H. unfold SearchApi.extract_link, SearchApi.apply_options_link, options_candidate.
  simpl. destruct (truthy (SearchApi.related_link job)) eqn:E; [reflexivity|].
  destruct H as [H|H]; [discriminate|].
  destruct (job_apply_options job) as [[|d ds]|]; try reflexivity.
  now contradiction H.
Qed.

(** It raises exactly when the related link is missing or empty and
    [apply_options] is present and empty. *)
Lemma extract_link_raises (job : RawJob) (e : exn) :
  SearchApi.extract_link job = Raised e
  <-> truthy (SearchApi.related_link job) = false
      /\ job_apply_options job = Some [] /\ e = IndexError.
Proof.
  unfold SearchApi.extract_link, SearchApi.apply_options_link.
  destruct (truthy (SearchApi.related_link job)).
  - split; [discriminate|]. intros (H & _). discriminate.
  - destruct (job_apply_options job) as [[|d ds]|]; split;
      try discriminate; try (intros (_ & H & _); discriminate).
    + intros H. injection H as <-. auto.
    + intros (_ & _ & ->). reflexivity.
Qed.

(** A record in which only [apply_link] is populated gets that link. *)
Lemma extract_link_apply_link_only (job : RawJob) (url : string) :
  job_related_links job = None ->
  job_apply_options job = None ->
  job_search_link job = None ->
  job_apply_link job = Some url ->
  PyStr.nonempty url = true ->
  SearchApi.extract_link job = Ok (Some url).
Proof.
  intros H1 H2 H3 H4 H5.
  unfold SearchApi.extract_link, SearchApi.apply_options_link, SearchApi.related_link.
  rewrite H1, H2, H3, H4. simpl. unfold py_or. simpl. now rewrite H5.
Qed.

(** C8 at the input where the code departs from it. The listing has no
    related link, an [apply_options] list that is present and empty, and a
    search link: the first non-empty candidate is the search link, but the
    link expression raises [IndexError], the listing gets no link and is not
    returned. The inline copy in [app.py] has no fallback at all. *)
Theorem link_fallback_raises_on_empty_apply_options :
  first_truthy [SearchApi.related_link Sample.empty_apply_options;
                options_candidate Sample.empty_apply_options;
                job_search_link Sample.empty_apply_options;
                job_apply_link Sample.empty_apply_options;
                job_link Sample.empty_apply_options]
    = Some "https://www.google.com/search?q=test+lead"
  /\ SearchApi.extract_link Sample.empty_apply_options = Raised IndexError
  /\ fst (SearchApi.fetch_google_jobs_serpapi
            (Sample.always [Sample.empty_apply_options]) (Some "secret")
            (Sample.only_role "Test Lead") "Remote" 15) = []
  /\ SearchApi.extract_link Sample.apply_link_only
       = Ok (Some "https://acme.example/apply/42")
  /\ App.inline_link Sample.apply_link_only = None.
Proof. repeat split; reflexivity. Qed.

(** ** The SerpAPI adapter: an empty [apply_options] list *)

(** A run of the inner loop that ended below the limit without an exception
    went through all its listings, so more listings continue from its
    result. *)
Lemma jobs_loop_app (limit : Z) (query : string) (pre : list RawJob) :
  forall all_jobs all_jobs' more,
    SearchApi.jobs_loop limit query pre all_jobs = (all_jobs', None) ->
    len_ge all_jobs' limit = false ->
    SearchApi.jobs_loop limit query (pre ++ more) all_jobs
    = SearchApi.jobs_loop limit query more all_jobs'.
Proof.
  induction pre as [|job pre IH]; intros all_jobs all_jobs' more Hrun Hroom; simpl in *.
  - injection Hrun as <-. reflexivity.
  - destruct (len_ge all_jobs limit) eqn:E.
    + injection Hrun as <-. congruence.
    + destruct (SearchApi.normalize query job) as [jd|e]; [|discriminate].
      apply IH; assumption.
Qed.

Lemma normalize_raises (query : string) (job : RawJob) :
  truthy (SearchApi.related_link job) = false ->
  job_apply_options job = Some [] ->
  SearchApi.normalize query job = Raised IndexError.
Proof.
  intros H1 H2. unfold SearchApi.normalize.
  assert (SearchApi.extract_link job = Raised IndexError) as ->; [|reflexivity].
  apply extract_link_raises. auto.
Qed.

(** C10. In the SerpAPI adapter, a raw listing without a usable related link
    and with an [apply_options] list that is present and empty makes the link
    expression raise [IndexError]. When the listings before it in the answer
    were processed and the limit is not reached, the inner loop stops there
    with what it had accumulated: the entries accepted so far are kept, the
    rest of the listings of that query are never looked at, and the outer
    loop goes on with the next query after recording the request, so the
    adapter returns a list and no exception leaves it. *)
Theorem empty_apply_options_ends_query
    (search : SearchApi.Service) (key loc : string) (limit : Z)
    (query : string) (qs : list string) (pre rest : list RawJob) (bad : RawJob)
    (all_jobs all_jobs' : list SearchApi.GoogleJob) (trace : list SearchApi.Params) :
  truthy (SearchApi.related_link bad) = false ->
  job_apply_options bad = Some [] ->
  search (length trace) (SearchApi.make_params key query loc)
    = SearchApi.SearchDict false (Some (pre ++ bad :: rest)) ->
  SearchApi.jobs_loop limit query pre all_jobs = (all_jobs', None) ->
  len_ge all_jobs' limit = false ->
  SearchApi.extract_link bad = Raised IndexError
  /\ SearchApi.jobs_loop limit query (pre ++ bad :: rest) all_jobs
     = (all_jobs', Some IndexError)
  /\ SearchApi.query_loop search key loc limit (query :: qs) all_jobs trace
     = SearchApi.query_loop search key loc limit qs all_jobs'
         (trace ++ [SearchApi.make_params key query loc]).
Proof.
  intros Hrel Hopt Hres Hpre Hroom.
  assert (Hbad : SearchApi.jobs_loop limit query (pre ++ bad :: rest) all_jobs
                 = (all_jobs', Some IndexError)).
  { rewrite (jobs_loop_app limit query pre all_jobs all_jobs' (bad :: rest) Hpre Hroom).
    simpl. rewrite Hroom, (normalize_raises query bad Hrel Hopt). reflexivity. }
  split; [apply extract_link_raises; auto|]. split; [exact Hbad|].
  assert (Hstart : len_ge all_jobs limit = false).
  { destruct (jobs_loop_extends limit query pre all_jobs) as [ext Hext].
    rewrite Hpre in Hext. simpl in Hext. subst all_jobs'.
    apply len_ge_false in Hroom. apply len_ge_false.
    rewrite length_app in Hroom. lia. }
  simpl. rewrite Hstart, Hres. simpl. rewrite Hbad. reflexivity.
Qed.

Lemma empty_apply_options_ends_query_witness :
  let answer := [Sample.apply_link_only; Sample.empty_apply_options;
                 Sample.listing "Tester" "Globex"] in
  fst (SearchApi.query_loop (Sample.always answer) "secret" "Remote" 15
         ["QA Engineer"] [] [])
  = fst (SearchApi.jobs_loop 15 "QA Engineer" [Sample.apply_link_only] []).
Proof.
  cbv zeta.
  pose proof (empty_apply_options_ends_query
                (Sample.always [Sample.apply_link_only; Sample.empty_apply_options;
                                Sample.listing "Tester" "Globex"])
                "secret" "Remote" 15 "QA Engineer" []
                [Sample.apply_link_only] [Sample.listing "Tester" "Globex"]
                Sample.empty_apply_options []
                (fst (SearchApi.jobs_loop 15 "QA Engineer" [Sample.apply_link_only] []))
                [] eq_refl eq_refl eq_refl eq_refl eq_refl) as (_ & _ & H).
  rewrite H. reflexivity.
Defined.

Example empty_apply_options_example :
  map SearchApi.jd_title
    (fst (SearchApi.fetch_google_jobs_serpapi
            (Sample.always [Sample.apply_link_only; Sample.empty_apply_options;
                            Sample.listing "Tester" "Globex"])
            (Some "secret") (Sample.only_role "QA Engineer") "Remote" 15))
  = [Some "QA Engineer"].
Proof. reflexivity. Qed.

(** ** The Jobicy/RSS adapter: the loops *)

Lemma collect_extends {A : Type} (step : A -> result (option MatchedJob)) (items : list A) :
  forall matched, exists ext, fst (SearchApi.collect step items matched) = matched ++ ext.
Proof.
  induction items as [|item items IH]; intros matched; simpl.
  - exists []. now rewrite app_nil_r.
  - destruct (step item) as [[m|]|e].
    + destruct (IH (matched ++ [m])) as [ext ->].
      exists (m :: ext). now rewrite <- app_assoc.
    + apply IH.
    + exists []. now rewrite app_nil_r.
Qed.

(** Over well-formed items the loop runs to its end, and what follows them
    continues from its result. *)
Lemma collect_app {A : Type} (step : A -> result (option MatchedJob)) (good : list A) :
  Forall (well_formed step) good ->
  forall rest matched,
    SearchApi.collect step (good ++ rest) matched
    = SearchApi.collect step rest (fst (SearchApi.collect step good matched))
    /\ snd (SearchApi.collect step good matched) = None.
Proof.
  induction 1 as [|item good [r Hr] _ IH]; intros rest matched; simpl.
  - auto.
  - rewrite Hr. destruct r as [m|]; apply IH.
Qed.

(** Every well-formed item on which the body appends has its record in the
    result. *)
Lemma collect_keeps {A : Type} (step : A -> result (option MatchedJob)) (good : list A) :
  Forall (well_formed step) good ->
  forall matched item m,
    In item good -> step item = Ok (Some m) ->
    In m (fst (SearchApi.collect step good matched)).
Proof.
  induction 1 as [|first good [r Hr] _ IH]; intros matched item m Hin Hstep.
  - destruct Hin.
  - simpl. rewrite Hr. destruct Hin as [<-|Hin].
    + rewrite Hr in Hstep. injection Hstep as ->.
      destruct (collect_extends step good (matched ++ [m])) as [ext ->].
      rewrite !in_app_iff. simpl. auto.
    + destruct r as [m'|]; eapply IH; eassumption.
Qed.

Lemma feeds_loop_extends (src : Sources) (cut : Z) (terms : list string)
    (feeds : list string) :
  forall matched,
  exists ext, fst (SearchApi.feeds_loop src cut terms feeds matched) = matched ++ ext.
Proof.
  induction feeds as [|rss feeds IH]; intros matched; simpl.
  - exists []. now rewrite app_nil_r.
  - destruct (feed_entries src rss) as [entries|e];
      [|exists []; now rewrite app_nil_r].
    destruct (collect_extends (SearchApi.rss_step cut terms) entries matched) as [ext1 H1].
    destruct (SearchApi.collect (SearchApi.rss_step cut terms) entries matched)
      as [matched' [e|]]; simpl in H1; subst matched'.
    + exists ext1. reflexivity.
    + destruct (IH (matched ++ ext1)) as [ext2 ->].
      exists (ext1 ++ ext2). now rewrite app_assoc.
Qed.

(** Clean feeds are read to their end; every entry of theirs on which the
    body appends has its record in the result, and the feeds after them
    continue from that result. *)
Lemma feeds_loop_clean (src : Sources) (cut : Z) (terms : list string)
    (before : list string) :
  Forall (clean_feed src cut terms) before ->
  forall after matched,
    SearchApi.feeds_loop src cut terms (before ++ after) matched
    = SearchApi.feeds_loop src cut terms after
        (fst (SearchApi.feeds_loop src cut terms before matched))
    /\ forall rss entries entry m,
         In rss before -> feed_entries src rss = Ok entries ->
         In entry entries -> SearchApi.rss_step cut terms entry = Ok (Some m) ->
         In m (fst (SearchApi.feeds_loop src cut terms before matched)).
Proof.
  induction 1 as [|first before (entries0 & Hfeed & Hclean) _ IH]; intros after matched.
  - simpl. split; [reflexivity|]. intros ? ? ? ? [].
  - simpl. rewrite Hfeed.
    destruct (collect_app (SearchApi.rss_step cut terms) entries0 Hclean [] matched)
      as [_ Hnone].
    destruct (SearchApi.collect (SearchApi.rss_step cut terms) entries0 matched)
      as [matched' status] eqn:Hrun.
    simpl in Hnone. subst status.
    destruct (IH after matched') as [Hcont Hin]. split; [exact Hcont|].
    intros rss entries entry m [<-|Hrss] Hentries Hentry Hstep.
    + rewrite Hfeed in Hentries. injection Hentries as <-.
      pose proof (collect_keeps (SearchApi.rss_step cut terms) entries0 Hclean
                    matched entry m Hentry Hstep) as Hm.
      rewrite Hrun in Hm. simpl in Hm.
      destruct (feeds_loop_extends src cut terms before matched') as [ext ->].
      apply in_app_iff. auto.
    + eapply Hin; eassumption.
Qed.

Lemma feeds_loop_first_feed (src : Sources) (cut : Z) (terms : list string)
    (rss : string) (after : list string) (good rest : list RssEntry)
    (matched : list MatchedJob) :
  feed_entries src rss = Ok (good ++ rest) ->
  Forall (well_formed (SearchApi.rss_step cut terms)) good ->
  exists ext,
    fst (SearchApi.feeds_loop src cut terms (rss :: after) matched)
    = fst (SearchApi.collect (SearchApi.rss_step cut terms) good matched) ++ ext.
Proof.
  intros Hfeed Hgood. simpl. rewrite Hfeed.
  destruct (collect_app (SearchApi.rss_step cut terms) good Hgood rest matched) as [-> _].
  set (kept := fst (SearchApi.collect (SearchApi.rss_step cut terms) good matched)).
  destruct (collect_extends (SearchApi.rss_step cut terms) rest kept) as [ext1 H1].
  destruct (SearchApi.collect (SearchApi.rss_step cut terms) rest kept)
    as [matched' [e|]]; simpl in H1; subst matched'.
  - exists ext1. reflexivity.
  - destruct (feeds_loop_extends src cut terms after (kept ++ ext1)) as [ext2 ->].
    exists (ext1 ++ ext2). now rewrite app_assoc.
Qed.

(** ** The Jobicy/RSS adapter: failures while reading the feeds *)




(** ** The Jobicy/RSS adapter: the recency filter *)

(** The recency test of the two loop bodies. With [today] the current date,
    the loop body of either source
    appends a record only for a listing whose published date is not earlier
    than [today - 30]; a listing dated [today - 30] or later whose other
    conditions are met (a term matches, the fields read are present) is
    appended, the one dated exactly thirty days back included; a listing
    dated 31 days back or more is skipped. *)
Theorem recency_filter_thirty_days (today_ordinal : Z) (terms : list string) :
  let cut := SearchApi.cutoff today_ordinal in
  (forall job m,
     SearchApi.jobicy_step cut terms job = Ok (Some m) ->
     exists pub, jobicy_published_at job = DateValue pub /\ (today_ordinal - 30 <= pub)%Z)
  /\ (forall job pub term u t,
        jobicy_published_at job = DateValue pub -> (today_ordinal - 30 <= pub)%Z ->
        SearchApi.first_match terms (SearchApi.content job) = Some term ->
        jobicy_url job = Some u -> jobicy_title job = Some t ->
        SearchApi.jobicy_step cut terms job
        = Ok (Some {| m_url := u; m_title := t;
                      m_company := get (jobicy_company_name job) "Unknown";
                      m_match_reason := ("Matches: " ++ term)%string |}))
  /\ (forall job days,
        jobicy_published_at job = DateValue (today_ordinal - days) -> (31 <= days)%Z ->
        SearchApi.jobicy_step cut terms job = Ok None)
  /\ (forall entry m,
        SearchApi.rss_step cut terms entry = Ok (Some m) ->
        exists pub, entry_published entry = DateValue pub /\ (today_ordinal - 30 <= pub)%Z)
  /\ (forall entry pub term l t,
        entry_published entry = DateValue pub -> (today_ordinal - 30 <= pub)%Z ->
        entry_title entry = Some t ->
        SearchApi.first_match terms (PyStr.lower t) = Some term ->
        entry_link entry = Some l ->
        SearchApi.rss_step cut terms entry
        = Ok (Some {| m_url := l; m_title := t; m_company := "Remote";
                      m_match_reason := ("Matches: " ++ term)%string |}))
  /\ (forall entry days,
        entry_published entry = DateValue (today_ordinal - days) -> (31 <= days)%Z ->
        SearchApi.rss_step cut terms entry = Ok None).
Proof.
  cbv zeta. unfold SearchApi.cutoff. repeat apply conj.
  - intros job m H. unfold SearchApi.jobicy_step in H.
    destruct (jobicy_published_at job) as [| |pub]; try discriminate.
    exists pub. split; [reflexivity|].
    destruct (Z.ltb_spec pub (today_ordinal - 30)); [discriminate|lia].
  - intros job pub term u t Hpub Hrecent Hterm Hu Ht.
    unfold SearchApi.jobicy_step. rewrite Hpub.
    destruct (Z.ltb_spec pub (today_ordinal - 30)); [lia|].
    rewrite Hterm, Hu, Ht. reflexivity.
  - intros job days Hpub Hold. unfold SearchApi.jobicy_step. rewrite Hpub.
    destruct (Z.ltb_spec (today_ordinal - days) (today_ordinal - 30)); [reflexivity|lia].
  - intros entry m H. unfold SearchApi.rss_step in H.
    destruct (entry_published entry) as [| |pub]; try discriminate.
    exists pub. split; [reflexivity|].
    destruct (Z.ltb_spec pub (today_ordinal - 30)); [discriminate|lia].
  - intros entry pub term l t Hpub Hrecent Ht Hterm Hl.
    unfold SearchApi.rss_step. rewrite Hpub.
    destruct (Z.ltb_spec pub (today_ordinal - 30)); [lia|].
    rewrite Ht, Hterm, Hl. reflexivity.
  - intros entry days Hpub Hold. unfold SearchApi.rss_step. rewrite Hpub.
    destruct (Z.ltb_spec (today_ordinal - days) (today_ordinal - 30)); [reflexivity|lia].
Qed.

Lemma recency_filter_thirty_days_witness :
  let terms := ["Data Scientist"; "python"] in
  let cut := SearchApi.cutoff Sample.today_ordinal in
  SearchApi.jobicy_step cut terms
    (Sample.jobicy_listing "Senior Data Scientist" "python and statistics" "Acme"
       (DateValue (Sample.today_ordinal - 30)))
  = Ok (Some {| m_url := "https://jobicy.com/jobs/1";
                m_title := "Senior Data Scientist";
                m_company := "Acme";
                m_match_reason := "Matches: Data Scientist" |})
  /\ SearchApi.jobicy_step cut terms
       (Sample.jobicy_listing "Senior Data Scientist" "python and statistics" "Acme"
          (DateValue (Sample.today_ordinal - 31)))
     = Ok None
  /\ SearchApi.rss_step cut terms
       (Sample.rss_entry "Data Scientist" (DateValue (Sample.today_ordinal - 30)))
     = Ok (Some {| m_url := "https://weworkremotely.com/listing";
                   m_title := "Data Scientist";
                   m_company := "Remote";
                   m_match_reason := "Matches: Data Scientist" |})
  /\ SearchApi.rss_step cut terms
       (Sample.rss_entry "Data Scientist" (DateValue (Sample.today_ordinal - 31)))
     = Ok None.
Proof.
  cbv zeta.
  destruct (recency_filter_thirty_days Sample.today_ordinal ["Data Scientist"; "python"])
    as (_ & Hin & Hout & _ & Hin' & Hout').
  repeat apply conj.
  - refine (Hin (Sample.jobicy_listing "Senior Data Scientist" "python and statistics"
                   "Acme" (DateValue (Sample.today_ordinal - 30)))
              (Sample.today_ordinal - 30)%Z "Data Scientist"
              "https://jobicy.com/jobs/1" "Senior Data Scientist"
              eq_refl _ eq_refl eq_refl eq_refl).
    lia.
  - refine (Hout (Sample.jobicy_listing "Senior Data Scientist" "python and statistics"
                    "Acme" (DateValue (Sample.today_ordinal - 31)))
              31%Z eq_refl _).
    lia.
  - refine (Hin' (Sample.rss_entry "Data Scientist" (DateValue (Sample.today_ordinal - 30)))
              (Sample.today_ordinal - 30)%Z "Data Scientist"
              "https://weworkremotely.com/listing" "Data Scientist"
              eq_refl _ eq_refl eq_refl eq_refl).
    lia.
  - refine (Hout' (Sample.rss_entry "Data Scientist" (DateValue (Sample.today_ordinal - 31)))
              31%Z eq_refl _).
    lia.
Defined.

Example recency_end_to_end :
  SearchApi.enhanced_jobicy_search
    (Sample.jobicy_only
       [Sample.jobicy_listing "Data Scientist I" "" "Old" (DateValue (Sample.today_ordinal - 31));
        Sample.jobicy_listing "Data Scientist II" "" "Edge" (DateValue (Sample.today_ordinal - 30));
        Sample.jobicy_listing "Data Scientist III" "" "New" (DateValue (Sample.today_ordinal - 10))])
    (Sample.only_role "Data Scientist") 10
  = [ {| m_url := "https://jobicy.com/jobs/1"; m_title := "Data Scientist II";
         m_company := "Edge"; m_match_reason := "Matches: Data Scientist" |};
      {| m_url := "https://jobicy.com/jobs/1"; m_title := "Data Scientist III";
         m_company := "New"; m_match_reason := "Matches: Data Scientist" |} ].
Proof. reflexivity. Qed.

(** ** The Jobicy/RSS adapter: keyword match *)

Lemma first_match_first (terms : list string) (text term : string) :
  SearchApi.first_match terms text = Some term ->
  exists before after,
    terms = before ++ term :: after
    /\ PyStr.contains (PyStr.lower term) text = true
    /\ forall t, In t before -> PyStr.contains (PyStr.lower t) text = false.
Proof.
  unfold SearchApi.first_match.
  induction terms as [|t0 terms IH]; simpl; [discriminate|].
  destruct (PyStr.contains (PyStr.lower t0) text) eqn:E.
  - intros H. injection H as <-. exists [], terms. repeat split; auto.
    intros t [].
  - intros H. destruct (IH H) as (before & after & -> & Hm & Hb).
    exists (t0 :: before), after. repeat split; auto.
    intros t [<-|Hin]; auto.
Qed.

Lemma first_match_none (terms : list string) (text : string) :
  SearchApi.first_match terms text = None
  <-> forall t, In t terms -> PyStr.contains (PyStr.lower t) text = false.
Proof.
  unfold SearchApi.first_match. split.
  - intros H t Hin. exact (find_none _ _ H t Hin).
  - intros H. induction terms as [|t0 terms IH]; simpl; [reflexivity|].
    rewrite (H t0 (or_introl eq_refl)). apply IH. intros t Hin. apply H. now right.
Qed.

Lemma lower_app (a b : string) :
  PyStr.lower (a ++ b) = (PyStr.lower a ++ PyStr.lower b)%string.
Proof. induction a as [|c a IH]; simpl; [reflexivity|]. now rewrite IH. Qed.

Lemma prefix_app (n a b : string) :
  String.prefix n a = true -> String.prefix n (a ++ b) = true.
Proof.
  revert a. induction n as [|c n IH]; intros a H;
    [destruct (a ++ b)%string; reflexivity|].
  destruct a as [|c' a]; simpl in *; [discriminate|].
  destruct (Ascii.ascii_dec c c'); [auto|discriminate].
Qed.

Lemma contains_app_l (n a b : string) :
  PyStr.contains n a = true -> PyStr.contains n (a ++ b) = true.
Proof.
  induction a as [|c a IH]; intros H.
  - simpl in H. rewrite orb_false_r in H.
    destruct n; [|discriminate]. destruct b; reflexivity.
  - cbn [PyStr.contains] in H. apply orb_true_iff in H as [H|H].
    + change (String c a ++ b)%string with (String c (a ++ b)%string).
      cbn [PyStr.contains]. apply orb_true_iff. left.
      change (String c (a ++ b)%string) with (String c a ++ b)%string.
      apply prefix_app. exact H.
    + change (String c a ++ b)%string with (String c (a ++ b)%string).
      cbn [PyStr.contains]. apply orb_true_iff. right. apply IH. exact H.
Qed.

Lemma contains_app_r (n a b : string) :
  PyStr.contains n b = true -> PyStr.contains n (a ++ b) = true.
Proof.
  intros H. induction a as [|c a IH]; [exact H|].
  change (String c a ++ b)%string with (String c (a ++ b)%string).
  cbn [PyStr.contains]. apply orb_true_iff. right. exact IH.
Qed.

(** A term found in the title or in the description of a Jobicy record is
    found in [content]; the converse fails, see below. *)
Lemma content_covers_title_and_description (term : string) (job : JobicyJob) :
  PyStr.contains (PyStr.lower term) (PyStr.lower (get (jobicy_title job) "")) = true
  \/ PyStr.contains (PyStr.lower term) (PyStr.lower (get (jobicy_description job) "")) = true ->
  PyStr.contains (PyStr.lower term) (SearchApi.content job) = true.
Proof.
  unfold SearchApi.content. rewrite !lower_app. intros [H|H].
  - apply contains_app_l. exact H.
  - apply contains_app_r, contains_app_r. exact H.
Qed.

(** For an RSS entry that is recent and carries the fields read, a record is
    appended exactly when some term occurs in the lower-cased title, and the
    reason names the first such term. *)
Lemma rss_step_match (cut : Z) (terms : list string) (entry : RssEntry)
    (pub : Z) (t l : string) :
  entry_published entry = DateValue pub -> (cut <= pub)%Z ->
  entry_title entry = Some t -> entry_link entry = Some l ->
  SearchApi.rss_step cut terms entry
  = Ok (match SearchApi.first_match terms (PyStr.lower t) with
        | Some term => Some {| m_url := l; m_title := t; m_company := "Remote";
                               m_match_reason := ("Matches: " ++ term)%string |}
        | None => None
        end).
Proof.
  intros Hpub Hrecent Ht Hl. unfold SearchApi.rss_step. rewrite Hpub.
  destruct (Z.ltb_spec pub cut); [lia|]. rewrite Ht, Hl.
  destruct (SearchApi.first_match terms (PyStr.lower t)); reflexivity.
Qed.

Lemma jobicy_step_match (cut : Z) (terms : list string) (job : JobicyJob)
    (pub : Z) (t u : string) :
  jobicy_published_at job = DateValue pub -> (cut <= pub)%Z ->
  jobicy_title job = Some t -> jobicy_url job = Some u ->
  SearchApi.jobicy_step cut terms job
  = Ok (match SearchApi.first_match terms (SearchApi.content job) with
        | Some term => Some {| m_url := u; m_title := t;
                               m_company := get (jobicy_company_name job) "Unknown";
                               m_match_reason := ("Matches: " ++ term)%string |}
        | None => None
        end).
Proof.
  intros Hpub Hrecent Ht Hu. unfold SearchApi.jobicy_step. rewrite Hpub.
  destruct (Z.ltb_spec pub cut); [lia|]. rewrite Ht, Hu.
  destruct (SearchApi.first_match terms (SearchApi.content job)); reflexivity.
Qed.

Example first_term_wins_example :
  SearchApi.enhanced_jobicy_search
    (Sample.jobicy_only
       [Sample.jobicy_listing "Senior Data Scientist" "we use python every day" "Acme"
          (DateValue (Sample.today_ordinal - 10))])
    {| primary_role := Some "Data Scientist"; alternative_roles := None;
       career_level := None; key_strengths := None;
       recommended_keywords := Some ["python"] |} 10
  = [ {| m_url := "https://jobicy.com/jobs/1"; m_title := "Senior Data Scientist";
         m_company := "Acme"; m_match_reason := "Matches: Data Scientist" |} ].
Proof. reflexivity. Qed.

(** C6 at the input where the code departs from it. The search term
    "AI Engineer" is a substring neither of the title "Head of AI" nor of the
    description "Engineer wanted for the platform team", in any letter case,
    and the test of the inline copy in [app.py] rejects the listing; the
    adapter joins title and description with a space before it searches,
    finds "ai engineer" across the joint and returns the listing with the
    reason "Matches: AI Engineer". *)
Theorem jobicy_match_across_title_and_description :
  let title := "Head of AI" in
  let description := "Engineer wanted for the platform team" in
  let job := Sample.jobicy_listing title description "Acme"
               (DateValue Sample.today_ordinal) in
  PyStr.contains (PyStr.lower "AI Engineer") (PyStr.lower title) = false
  /\ PyStr.contains (PyStr.lower "AI Engineer") (PyStr.lower description) = false
  /\ App.term_matches "AI Engineer" title (Some description) = false
  /\ SearchApi.enhanced_jobicy_search (Sample.jobicy_only [job])
       (Sample.only_role "AI Engineer") 10
     = [ {| m_url := "https://jobicy.com/jobs/1"; m_title := "Head of AI";
            m_company := "Acme"; m_match_reason := "Matches: AI Engineer" |} ].
Proof. cbv zeta. repeat split; reflexivity. Qed.

(** ** Both adapters: the limit *)

(** C2, as the code has it. For a limit that is not negative, the list
    returned by the SerpAPI adapter and the list returned by the Jobicy/RSS
    adapter have at most [limit] entries, whatever the sources answer. *)
Theorem adapters_respect_limit (search : SearchApi.Service) (key : option string)
    (src : Sources) (p : RoleProfile) (loc : string) (limit : Z) :
  (0 <= limit)%Z ->
  (Z.of_nat (length (fst (SearchApi.fetch_google_jobs_serpapi search key p loc limit)))
   <= limit)%Z
  /\ (Z.of_nat (length (SearchApi.enhanced_jobicy_search src p limit)) <= limit)%Z.
Proof.
  intros Hlimit. split.
  - unfold SearchApi.fetch_google_jobs_serpapi.
    destruct key as [k|]; [|simpl; lia].
    destruct (PyStr.nonempty k); [|simpl; lia].
    destruct (SearchApi.query_loop search k loc limit
                (SearchApi.filter_None (SearchApi.queries p)) [] []) as [jobs trace].
    cbn [fst]. apply slice_to_length. exact Hlimit.
  - unfold SearchApi.enhanced_jobicy_search. apply slice_to_length. exact Hlimit.
Qed.

Lemma adapters_respect_limit_witness :
  let jobs := [Sample.listing "Tester" "A"; Sample.listing "Tester" "B";
               Sample.listing "Tester" "C"] in
  let found := [Sample.jobicy_listing "Tester" "" "A" (DateValue Sample.today_ordinal);
                Sample.jobicy_listing "Tester" "" "B" (DateValue Sample.today_ordinal);
                Sample.jobicy_listing "Tester" "" "C" (DateValue Sample.today_ordinal)] in
  (0 <= 2)%Z
  /\ (Z.of_nat (length (fst (SearchApi.fetch_google_jobs_serpapi (Sample.always jobs)
                               (Some "secret") (Sample.only_role "Tester") "Remote" 2)))
      <= 2)%Z
  /\ (Z.of_nat (length (SearchApi.enhanced_jobicy_search (Sample.jobicy_only found)
                          (Sample.only_role "Tester") 2)) <= 2)%Z.
Proof.
  cbv zeta. split; [lia|].
  apply adapters_respect_limit. lia.
Defined.

(** Before it is sliced, the list accumulated by the SerpAPI adapter is
    already within a limit that is not negative. *)
Lemma serpapi_accumulator_within_limit (search : SearchApi.Service) (key loc : string)
    (limit : Z) (qs : list string) :
  (0 <= limit)%Z ->
  (Z.of_nat (length (fst (SearchApi.query_loop search key loc limit qs [] []))) <= limit)%Z.
Proof.
  intros H.
  pose proof (query_loop_bound search key loc limit qs [] []) as Hb.
  simpl length in Hb. rewrite Z.max_r in Hb by lia. apply Hb. lia.
Qed.

(** C2 as stated fails for a negative limit: [matched[:-1]] drops the last
    record only, so two matching records and the limit -1 give a list of one
    record. *)
Lemma negative_limit_exceeded :
  let found := [Sample.jobicy_listing "Tester" "" "A" (DateValue Sample.today_ordinal);
                Sample.jobicy_listing "Tester" "" "B" (DateValue Sample.today_ordinal)] in
  length (SearchApi.enhanced_jobicy_search (Sample.jobicy_only found)
            (Sample.only_role "Tester") (-1)) = 1
  /\ ~ (Z.of_nat (length (SearchApi.enhanced_jobicy_search (Sample.jobicy_only found)
                            (Sample.only_role "Tester") (-1))) <= -1)%Z.
Proof.
  cbv zeta. split; [reflexivity|].
  intros H. vm_compute in H. apply H. reflexivity.
Qed.

(** C3 as stated fails for the Jobicy/RSS adapter: it appends without
    looking at what it holds, so two records with the same title and company
    are both returned. *)
Lemma jobicy_returns_duplicates :
  let found := [Sample.jobicy_listing "Tester" "manual testing" "Acme"
                  (DateValue Sample.today_ordinal);
                Sample.jobicy_listing "Tester" "test automation" "Acme"
                  (DateValue (Sample.today_ordinal - 3))] in
  map SearchApi.matched_key
    (SearchApi.enhanced_jobicy_search (Sample.jobicy_only found)
       (Sample.only_role "Tester") 10)
  = [("Tester", "Acme"); ("Tester", "Acme")]
  /\ ~ NoDup (map SearchApi.matched_key
                (SearchApi.enhanced_jobicy_search (Sample.jobicy_only found)
                   (Sample.only_role "Tester") 10)).
Proof.
  cbv zeta. split; [reflexivity|].
  intros H. vm_compute in H. inversion H as [|k ks Hnot _]. apply Hnot. left. reflexivity.
Qed.

(** * Further properties of the adapters of [search_api.py] *)

(** ** The SerpAPI adapter: limits, failures, provenance *)

Lemma in_firstn {A : Type} (k : nat) (l : list A) (x : A) :
  In x (firstn k l) -> In x l.
Proof.
  intros H. rewrite <- (firstn_skipn k l). apply in_app_iff. now left.
Qed.

Lemma slice_to_nil {A : Type} (n : Z) : slice_to n (@nil A) = [].
Proof. unfold slice_to. destruct (0 <=? n)%Z; apply firstn_nil. Qed.

Lemma in_slice_to {A : Type} (n : Z) (l : list A) (x : A) :
  In x (slice_to n l) -> In x l.
Proof.
  destruct (slice_to_is_firstn n l) as [k ->]. apply in_firstn.
Qed.

Lemma query_loop_no_room (search : SearchApi.Service) (key loc : string) (limit : Z)
    (qs : list string) (trace : list SearchApi.Params) :
  (limit <= 0)%Z ->
  SearchApi.query_loop search key loc limit qs [] trace = ([], trace).
Proof.
  intros H. destruct qs as [|query qs]; [reflexivity|]. simpl.
  assert (len_ge (@nil SearchApi.GoogleJob) limit = true) as ->; [|reflexivity].
  apply len_ge_spec. simpl. lia.
Qed.

(** X1. With a limit of zero or less the adapter asks nothing and returns
    nothing, whatever the credential. *)
Theorem fetch_nonpositive_limit (search : SearchApi.Service) (key : option string)
    (p : RoleProfile) (loc : string) (limit : Z) :
  (limit <= 0)%Z ->
  SearchApi.fetch_google_jobs_serpapi search key p loc limit = ([], []).
Proof.
  intros H. unfold SearchApi.fetch_google_jobs_serpapi.
  destruct key as [k|]; [|reflexivity].
  destruct (PyStr.nonempty k); [|reflexivity].
  rewrite (query_loop_no_room search k loc limit _ [] H).
  now rewrite slice_to_nil.
Qed.

Lemma fetch_nonpositive_limit_witness :
  SearchApi.fetch_google_jobs_serpapi
    (Sample.always [Sample.apply_link_only]) (Some "secret")
    (Sample.only_role "QA Engineer") "Berlin" 0 = ([], []).
Proof. apply fetch_nonpositive_limit. lia. Defined.

(** X2. The slice that ends the adapter never removes an entry: the loops have
    already kept the list within the limit. *)
Theorem fetch_slice_keeps_all (search : SearchApi.Service) (key : string)
    (p : RoleProfile) (loc : string) (limit : Z) :
  PyStr.nonempty key = true ->
  fst (SearchApi.fetch_google_jobs_serpapi search (Some key) p loc limit)
  = fst (SearchApi.query_loop search key loc limit
           (SearchApi.filter_None (SearchApi.queries p)) [] []).
Proof.
  intros Hkey. unfold SearchApi.fetch_google_jobs_serpapi. rewrite Hkey.
  destruct (Z.le_gt_cases 0 limit) as [Hpos|Hneg].
  - pose proof (serpapi_accumulator_within_limit search key loc limit
                  (SearchApi.filter_None (SearchApi.queries p)) Hpos) as Hb.
    destruct (SearchApi.query_loop search key loc limit
                (SearchApi.filter_None (SearchApi.queries p)) [] []) as [jobs trace].
    cbn [fst] in *. apply slice_to_all. exact Hb.
  - rewrite (query_loop_no_room search key loc limit _ []) by lia.
    cbn [fst]. apply slice_to_nil.
Qed.

Lemma fetch_slice_keeps_all_witness :
  fst (SearchApi.fetch_google_jobs_serpapi
         (Sample.always [Sample.listing "Tester" "A"; Sample.listing "Tester" "B";
                         Sample.listing "Tester" "C"])
         (Some "secret") (Sample.only_role "Tester") "Remote" 2)
  = fst (SearchApi.query_loop
           (Sample.always [Sample.listing "Tester" "A"; Sample.listing "Tester" "B";
                           Sample.listing "Tester" "C"])
           "secret" "Remote" 2
           (SearchApi.filter_None (SearchApi.queries (Sample.only_role "Tester"))) [] []).
Proof. apply fetch_slice_keeps_all. reflexivity. Defined.

(** A query whose answer brings no listing (the request raises, the answer
    holds an error, or it has no results) changes nothing. *)
Lemma run_query_nothing (limit : Z) (query : string) (res : SearchApi.Response)
    (all_jobs : list SearchApi.GoogleJob) :
  (exists e, res = SearchApi.SearchRaises e)
  \/ (exists r, res = SearchApi.SearchDict true r)
  \/ res = SearchApi.SearchDict false None
  \/ res = SearchApi.SearchDict false (Some []) ->
  fst (SearchApi.run_query limit query res all_jobs) = all_jobs.
Proof.
  intros [[e ->]|[[r ->]|[->| ->]]]; reflexivity.
Qed.

Lemma query_loop_all_fail (search : SearchApi.Service) (key loc : string) (limit : Z) :
  (0 < limit)%Z ->
  (forall n params,
      (exists e, search n params = SearchApi.SearchRaises e)
      \/ (exists r, search n params = SearchApi.SearchDict true r)
      \/ search n params = SearchApi.SearchDict false None
      \/ search n params = SearchApi.SearchDict false (Some [])) ->
  forall qs trace,
    SearchApi.query_loop search key loc limit qs [] trace
    = ([], trace ++ map (fun query => SearchApi.make_params key query loc) qs).
Proof.
  intros Hlimit Hfail. induction qs as [|query qs IH]; intros trace; simpl.
  - now rewrite app_nil_r.
  - assert (len_ge (@nil SearchApi.GoogleJob) limit = false) as ->
        by (apply len_ge_false; simpl; lia).
    rewrite run_query_nothing by apply Hfail.
    rewrite IH, <- app_assoc. reflexivity.
Qed.

(** X3. When no request brings a listing, because it raises, is answered with an
    error or with no results, every query is still tried, once and in order,
    and the adapter returns the empty list. *)
Theorem fetch_every_query_tried (search : SearchApi.Service) (key : string)
    (p : RoleProfile) (loc : string) (limit : Z) :
  PyStr.nonempty key = true ->
  (0 < limit)%Z ->
  (forall n params,
      (exists e, search n params = SearchApi.SearchRaises e)
      \/ (exists r, search n params = SearchApi.SearchDict true r)
      \/ search n params = SearchApi.SearchDict false None
      \/ search n params = SearchApi.SearchDict false (Some [])) ->
  SearchApi.fetch_google_jobs_serpapi search (Some key) p loc limit
  = ([], map (fun query => SearchApi.make_params key query loc)
           (SearchApi.filter_None (SearchApi.queries p))).
Proof.
  intros Hkey Hlimit Hfail. unfold SearchApi.fetch_google_jobs_serpapi.
  rewrite Hkey, (query_loop_all_fail search key loc limit Hlimit Hfail).
  now rewrite slice_to_nil.
Qed.

Lemma fetch_every_query_tried_witness :
  SearchApi.fetch_google_jobs_serpapi
    (fun n _ => if Nat.even n then SearchApi.SearchRaises RequestError
                else SearchApi.SearchDict true None)
    (Some "secret")
    {| primary_role := Some "Tester"; alternative_roles := Some ["QA"];
       career_level := Some "Senior"; key_strengths := None;
       recommended_keywords := None |} "Berlin" 15
  = ([], map (fun query => SearchApi.make_params "secret" query "Berlin")
           ["Tester"; "Tester senior"; "QA"]).
Proof.
  apply (fetch_every_query_tried
           (fun n _ => if Nat.even n then SearchApi.SearchRaises RequestError
                       else SearchApi.SearchDict true None)
           "secret"
           {| primary_role := Some "Tester"; alternative_roles := Some ["QA"];
              career_level := Some "Senior"; key_strengths := None;
              recommended_keywords := None |} "Berlin" 15).
  - reflexivity.
  - lia.
  - intros n params. destruct (Nat.even n); eauto.
Defined.

Lemma append_unique_forall (P : SearchApi.GoogleJob -> Prop) (jd : SearchApi.GoogleJob)
    (all_jobs : list SearchApi.GoogleJob) :
  P jd -> Forall P all_jobs -> Forall P (SearchApi.append_unique jd all_jobs).
Proof.
  intros Hjd Hall. unfold SearchApi.append_unique.
  destruct (existsb (SearchApi.same_job jd) all_jobs); [exact Hall|].
  apply Forall_app. split; [exact Hall|]. constructor; [exact Hjd|constructor].
Qed.

Lemma jobs_loop_forall (P : SearchApi.GoogleJob -> Prop) (limit : Z) (query : string)
    (jobs : list RawJob) :
  (forall job jd, In job jobs -> SearchApi.normalize query job = Ok jd -> P jd) ->
  forall all_jobs,
    Forall P all_jobs ->
    Forall P (fst (SearchApi.jobs_loop limit query jobs all_jobs)).
Proof.
  induction jobs as [|job jobs IH]; intros Hnew all_jobs Hall; simpl; [exact Hall|].
  destruct (len_ge all_jobs limit); [exact Hall|].
  destruct (SearchApi.normalize query job) as [jd|e] eqn:E; [|exact Hall].
  apply IH.
  - intros job' jd' Hin. apply Hnew. now right.
  - apply append_unique_forall; [|exact Hall].
    apply (Hnew job jd); [now left|exact E].
Qed.

(** X4. Every entry the adapter returns is the normalised form of a listing that
    the service returned, without an error, for one of the queries of the
    profile, and its match reason names that query: nothing is made up and
    nothing is attributed to a query that did not bring it. *)
Theorem fetch_provenance (search : SearchApi.Service) (key : option string)
    (p : RoleProfile) (loc : string) (limit : Z) (jd : SearchApi.GoogleJob) :
  In jd (fst (SearchApi.fetch_google_jobs_serpapi search key p loc limit)) ->
  exists query n results job,
    In query (SearchApi.filter_None (SearchApi.queries p))
    /\ search n (SearchApi.make_params (get key "") query loc)
       = SearchApi.SearchDict false results
    /\ In job (get results [])
    /\ SearchApi.normalize query job = Ok jd
    /\ SearchApi.jd_match_reason jd = ("Matches: " ++ query)%string
    /\ SearchApi.jd_title jd = job_title job
    /\ SearchApi.jd_company jd = job_company_name job.
Proof.
  intros Hin.
  destruct (fetch_is_prefix search key p loc limit) as [k Hk].
  rewrite Hk in Hin. apply in_firstn in Hin.
  set (qs0 := SearchApi.filter_None (SearchApi.queries p)) in *.
  set (P := fun jd : SearchApi.GoogleJob =>
              exists query n results job,
                In query qs0
                /\ search n (SearchApi.make_params (get key "") query loc)
                   = SearchApi.SearchDict false results
                /\ In job (get results [])
                /\ SearchApi.normalize query job = Ok jd
                /\ SearchApi.jd_match_reason jd = ("Matches: " ++ query)%string
                /\ SearchApi.jd_title jd = job_title job
                /\ SearchApi.jd_company jd = job_company_name job).
  assert (Hloop : forall qs all_jobs trace,
             (forall query, In query qs -> In query qs0) ->
             Forall P all_jobs ->
             Forall P (fst (SearchApi.query_loop search (get key "") loc limit
                              qs all_jobs trace))).
  { induction qs as [|query qs IH]; intros all_jobs trace Hsub Hall; simpl; [exact Hall|].
    destruct (len_ge all_jobs limit); [exact Hall|].
    apply IH; [intros q' Hq'; apply Hsub; now right|].
    destruct (search (length trace) (SearchApi.make_params (get key "") query loc))
      as [e|[|] results] eqn:Hres; simpl; try exact Hall.
    apply jobs_loop_forall; [|exact Hall].
    intros job jd' Hjob Hnorm.
    exists query, (length trace), results, job.
    split; [apply Hsub; now left|]. split; [exact Hres|]. split; [exact Hjob|].
    split; [exact Hnorm|].
    unfold SearchApi.normalize in Hnorm.
    destruct (SearchApi.extract_link job); [|discriminate].
    injection Hnorm as <-. simpl. auto. }
  specialize (Hloop qs0 [] [] (fun _ H => H) (Forall_nil _)).
  rewrite Forall_forall in Hloop. exact (Hloop jd Hin).
Qed.

Lemma fetch_provenance_witness :
  exists query n results job,
    In query ["QA Engineer"; "QA Engineer "]
    /\ Sample.always [Sample.apply_link_only] n
         (SearchApi.make_params "secret" query "Remote")
       = SearchApi.SearchDict false results
    /\ In job (get results [])
    /\ SearchApi.normalize query job
       = Ok {| SearchApi.jd_title := Some "QA Engineer";
               SearchApi.jd_company := Some "Acme";
               SearchApi.jd_location := None;
               SearchApi.jd_link := Some "https://acme.example/apply/42";
               SearchApi.jd_posted := None;
               SearchApi.jd_schedule_type := None;
               SearchApi.jd_via := None;
               SearchApi.jd_match_reason := "Matches: QA Engineer" |}.
Proof.
  destruct (fetch_provenance (Sample.always [Sample.apply_link_only]) (Some "secret")
              (Sample.only_role "QA Engineer") "Remote" 15
              {| SearchApi.jd_title := Some "QA Engineer";
                 SearchApi.jd_company := Some "Acme";
                 SearchApi.jd_location := None;
                 SearchApi.jd_link := Some "https://acme.example/apply/42";
                 SearchApi.jd_posted := None;
                 SearchApi.jd_schedule_type := None;
                 SearchApi.jd_via := None;
                 SearchApi.jd_match_reason := "Matches: QA Engineer" |})
    as (query & n & results & job & H1 & H2 & H3 & H4 & _).
  - left. reflexivity.
  - exists query, n, results, job. auto.
Defined.

(** ** The Jobicy/RSS adapter: composition, provenance, empty role *)

(** What a loop appends does not depend on what [matched] held before. *)
Lemma collect_from_nil {A : Type} (step : A -> result (option MatchedJob))
    (items : list A) :
  forall matched,
    SearchApi.collect step items matched
    = (matched ++ fst (SearchApi.collect step items []),
       snd (SearchApi.collect step items [])).
Proof.
  induction items as [|item items IH]; intros matched; simpl.
  - now rewrite app_nil_r.
  - destruct (step item) as [[m|]|e].
    + rewrite (IH (matched ++ [m])), (IH [m]). simpl.
      now rewrite <- app_assoc.
    + apply IH.
    + simpl. now rewrite app_nil_r.
Qed.

Lemma feeds_loop_from_nil (src : Sources) (cut : Z) (terms : list string)
    (feeds : list string) :
  forall matched,
    SearchApi.feeds_loop src cut terms feeds matched
    = (matched ++ fst (SearchApi.feeds_loop src cut terms feeds []),
       snd (SearchApi.feeds_loop src cut terms feeds [])).
Proof.
  induction feeds as [|rss feeds IH]; intros matched; simpl.
  - now rewrite app_nil_r.
  - destruct (feed_entries src rss) as [entries|e]; [|simpl; now rewrite app_nil_r].
    rewrite (collect_from_nil (SearchApi.rss_step cut terms) entries matched).
    destruct (SearchApi.collect (SearchApi.rss_step cut terms) entries [])
      as [found [e|]]; simpl.
    + reflexivity.
    + rewrite (IH (matched ++ found)), (IH found). simpl.
      now rewrite <- app_assoc.
Qed.

(** X7. The output is the Jobicy matches followed by the RSS matches, cut to the
    limit; the RSS part is computed as if from an empty list, so it does not
    depend on what Jobicy answered, and when the Jobicy request or one of its
    records fails the RSS feeds are still read. *)
Theorem enhanced_is_jobicy_then_rss (src : Sources) (p : RoleProfile) (limit : Z) :
  let terms := SearchApi.search_terms p in
  SearchApi.enhanced_jobicy_search src p limit
  = slice_to limit (fst (SearchApi.jobicy_stage src terms [])
                      ++ fst (SearchApi.rss_stage src terms []))
  /\ (forall e, jobicy_jobs src = Raised e ->
        SearchApi.enhanced_jobicy_search src p limit
        = slice_to limit (fst (SearchApi.rss_stage src terms []))).
Proof.
  cbv zeta. unfold SearchApi.enhanced_jobicy_search, SearchApi.rss_stage. split.
  - rewrite (feeds_loop_from_nil src _ _ _ (fst (SearchApi.jobicy_stage src _ []))).
    reflexivity.
  - intros e He. unfold SearchApi.jobicy_stage. rewrite He. reflexivity.
Qed.

Lemma enhanced_is_jobicy_then_rss_witness :
  let src := {| jobicy_jobs := Raised RequestError;
                feed_entries := fun _ =>
                  Ok [Sample.rss_entry "Tester" (DateValue Sample.today_ordinal)];
                today := Sample.today_ordinal |} in
  SearchApi.enhanced_jobicy_search src (Sample.only_role "Tester") 1
  = [ {| m_url := "https://weworkremotely.com/listing"; m_title := "Tester";
         m_company := "Remote"; m_match_reason := "Matches: Tester" |} ].
Proof.
  cbv zeta.
  rewrite (proj2 (enhanced_is_jobicy_then_rss
                    {| jobicy_jobs := Raised RequestError;
                       feed_entries := fun _ =>
                         Ok [Sample.rss_entry "Tester" (DateValue Sample.today_ordinal)];
                       today := Sample.today_ordinal |}
                    (Sample.only_role "Tester") 1)
             RequestError eq_refl).
  reflexivity.
Defined.

Lemma collect_forall {A : Type} (P : MatchedJob -> Prop)
    (step : A -> result (option MatchedJob)) (items : list A) :
  (forall item m, In item items -> step item = Ok (Some m) -> P m) ->
  forall matched,
    Forall P matched -> Forall P (fst (SearchApi.collect step items matched)).
Proof.
  induction items as [|item items IH]; intros Hnew matched Hall; simpl; [exact Hall|].
  destruct (step item) as [[m|]|e] eqn:E; [| |exact Hall].
  - apply IH; [intros i m' Hi; apply Hnew; now right|].
    apply Forall_app. split; [exact Hall|].
    constructor; [|constructor]. apply (Hnew item m); [now left|exact E].
  - apply IH; [intros i m' Hi; apply Hnew; now right|exact Hall].
Qed.

Lemma feeds_loop_forall (P : MatchedJob -> Prop) (src : Sources) (cut : Z)
    (terms : list string) (feeds : list string) :
  (forall rss entries entry m,
      In rss feeds -> feed_entries src rss = Ok entries -> In entry entries ->
      SearchApi.rss_step cut terms entry = Ok (Some m) -> P m) ->
  forall matched,
    Forall P matched -> Forall P (fst (SearchApi.feeds_loop src cut terms feeds matched)).
Proof.
  induction feeds as [|rss feeds IH]; intros Hnew matched Hall; simpl; [exact Hall|].
  destruct (feed_entries src rss) as [entries|e] eqn:Hfeed; [|exact Hall].
  pose proof (collect_forall P (SearchApi.rss_step cut terms) entries
                (fun entry m Hin Hstep => Hnew rss entries entry m
                                            (or_introl eq_refl) Hfeed Hin Hstep)
                matched Hall) as Hrun.
  destruct (SearchApi.collect (SearchApi.rss_step cut terms) entries matched)
    as [matched' [e|]]; simpl in Hrun; [exact Hrun|].
  apply IH; [|exact Hrun].
  intros rss' entries' entry m Hin. apply Hnew. now right.
Qed.

Lemma jobicy_step_appends (cut : Z) (terms : list string) (job : JobicyJob)
    (m : MatchedJob) :
  SearchApi.jobicy_step cut terms job = Ok (Some m) ->
  exists term pub,
    In term terms
    /\ jobicy_published_at job = DateValue pub /\ (cut <= pub)%Z
    /\ PyStr.contains (PyStr.lower term) (SearchApi.content job) = true
    /\ jobicy_title job = Some (m_title m)
    /\ jobicy_url job = Some (m_url m)
    /\ m_company m = get (jobicy_company_name job) "Unknown"
    /\ m_match_reason m = ("Matches: " ++ term)%string.
Proof.
  unfold SearchApi.jobicy_step.
  destruct (jobicy_published_at job) as [| |pub]; try discriminate.
  destruct (Z.ltb_spec pub cut); [discriminate|].
  destruct (SearchApi.first_match terms (SearchApi.content job)) as [term|] eqn:E;
    [|discriminate].
  destruct (jobicy_url job) as [u|]; [|discriminate].
  destruct (jobicy_title job) as [t|]; [|discriminate].
  intros Heq. injection Heq as <-. apply find_some in E as [Hin Hc].
  exists term, pub. simpl. repeat split; auto.
Qed.

Lemma rss_step_appends (cut : Z) (terms : list string) (entry : RssEntry)
    (m : MatchedJob) :
  SearchApi.rss_step cut terms entry = Ok (Some m) ->
  exists term pub,
    In term terms
    /\ entry_published entry = DateValue pub /\ (cut <= pub)%Z
    /\ PyStr.contains (PyStr.lower term) (PyStr.lower (m_title m)) = true
    /\ entry_title entry = Some (m_title m)
    /\ entry_link entry = Some (m_url m)
    /\ m_company m = "Remote"
    /\ m_match_reason m = ("Matches: " ++ term)%string.
Proof.
  unfold SearchApi.rss_step.
  destruct (entry_published entry) as [| |pub]; try discriminate.
  destruct (Z.ltb_spec pub cut); [discriminate|].
  destruct (entry_title entry) as [t|]; [|discriminate].
  destruct (SearchApi.first_match terms (PyStr.lower t)) as [term|] eqn:E;
    [|discriminate].
  destruct (entry_link entry) as [l|]; [|discriminate].
  intros Heq. injection Heq as <-. apply find_some in E as [Hin Hc].
  exists term, pub. simpl. repeat split; auto.
Qed.

(** X8. Every record the adapter returns comes from a Jobicy record or from an
    entry of one of the two feeds that is dated within the last thirty days;
    its reason names a search term of the profile whose lower-cased form
    occurs in the searched text of that listing, and its title and address
    are those of the listing. *)
Theorem enhanced_provenance (src : Sources) (p : RoleProfile) (limit : Z)
    (m : MatchedJob) :
  In m (SearchApi.enhanced_jobicy_search src p limit) ->
  exists term pub,
    In term (SearchApi.search_terms p)
    /\ m_match_reason m = ("Matches: " ++ term)%string
    /\ (today src - 30 <= pub)%Z
    /\ ((exists data job,
           jobicy_jobs src = Ok data /\ In job data
           /\ jobicy_published_at job = DateValue pub
           /\ jobicy_title job = Some (m_title m)
           /\ jobicy_url job = Some (m_url m)
           /\ PyStr.contains (PyStr.lower term) (SearchApi.content job) = true)
        \/ (exists rss entries entry,
              In rss SearchApi._RSS_FEEDS
              /\ feed_entries src rss = Ok entries /\ In entry entries
              /\ entry_published entry = DateValue pub
              /\ entry_title entry = Some (m_title m)
              /\ entry_link entry = Some (m_url m)
              /\ m_company m = "Remote"
              /\ PyStr.contains (PyStr.lower term) (PyStr.lower (m_title m)) = true)).
Proof.
  intros Hin. unfold SearchApi.enhanced_jobicy_search in Hin.
  apply in_slice_to in Hin.
  set (terms := SearchApi.search_terms p) in *.
  set (cut := SearchApi.cutoff (today src)).
  set (P := fun m : MatchedJob =>
              exists term pub,
                In term terms
                /\ m_match_reason m = ("Matches: " ++ term)%string
                /\ (today src - 30 <= pub)%Z
                /\ ((exists data job,
                       jobicy_jobs src = Ok data /\ In job data
                       /\ jobicy_published_at job = DateValue pub
                       /\ jobicy_title job = Some (m_title m)
                       /\ jobicy_url job = Some (m_url m)
                       /\ PyStr.contains (PyStr.lower term) (SearchApi.content job) = true)
                    \/ (exists rss entries entry,
                          In rss SearchApi._RSS_FEEDS
                          /\ feed_entries src rss = Ok entries /\ In entry entries
                          /\ entry_published entry = DateValue pub
                          /\ entry_title entry = Some (m_title m)
                          /\ entry_link entry = Some (m_url m)
                          /\ m_company m = "Remote"
                          /\ PyStr.contains (PyStr.lower term)
                               (PyStr.lower (m_title m)) = true))).
  assert (Hjobicy : Forall P (fst (SearchApi.jobicy_stage src terms []))).
  { unfold SearchApi.jobicy_stage.
    destruct (jobicy_jobs src) as [data|e] eqn:Hdata; [|constructor].
    apply collect_forall; [|constructor].
    intros job m' Hjob Hstep.
    apply jobicy_step_appends in Hstep
      as (term & pub & Ht & Hpub & Hrecent & Hc & Htitle & Hurl & _ & Hreason).
    exists term, pub. unfold SearchApi.cutoff in Hrecent.
    split; [exact Ht|]. split; [exact Hreason|]. split; [exact Hrecent|].
    left. exists data, job. repeat split; assumption. }
  assert (Hall : Forall P (fst (SearchApi.rss_stage src terms
                                  (fst (SearchApi.jobicy_stage src terms []))))).
  { unfold SearchApi.rss_stage. apply feeds_loop_forall; [|exact Hjobicy].
    intros rss entries entry m' Hrss Hfeed Hentry Hstep.
    apply rss_step_appends in Hstep
      as (term & pub & Ht & Hpub & Hrecent & Hc & Htitle & Hlink & Hco & Hreason).
    exists term, pub. unfold SearchApi.cutoff in Hrecent.
    split; [exact Ht|]. split; [exact Hreason|]. split; [exact Hrecent|].
    right. exists rss, entries, entry. repeat split; assumption. }
  rewrite Forall_forall in Hall. exact (Hall m Hin).
Qed.

Lemma enhanced_provenance_witness :
  exists term pub,
    In term (SearchApi.search_terms (Sample.only_role "Tester"))
    /\ ("Matches: Tester" = "Matches: " ++ term)%string
    /\ (Sample.today_ordinal - 30 <= pub)%Z.
Proof.
  destruct (enhanced_provenance
              (Sample.jobicy_only
                 [Sample.jobicy_listing "Tester" "" "Acme" (DateValue Sample.today_ordinal)])
              (Sample.only_role "Tester") 10
              {| m_url := "https://jobicy.com/jobs/1"; m_title := "Tester";
                 m_company := "Acme"; m_match_reason := "Matches: Tester" |})
    as (term & pub & H1 & H2 & H3 & _).
  - left. reflexivity.
  - exists term, pub. auto.
Defined.

Lemma contains_empty (s : string) : PyStr.contains "" s = true.
Proof. destruct s; reflexivity. Qed.

Lemma first_match_empty_term (terms : list string) (text : string) :
  SearchApi.first_match ("" :: terms) text = Some "".
Proof.
  unfold SearchApi.first_match. simpl find.
  change (PyStr.lower "") with "". now rewrite contains_empty.
Qed.

Lemma collect_all_jobicy (cut : Z) (kws : list string) (data : list JobicyJob) :
  Forall (fun job => exists pub u t,
              jobicy_published_at job = DateValue pub /\ (cut <= pub)%Z
              /\ jobicy_url job = Some u /\ jobicy_title job = Some t) data ->
  forall matched,
    SearchApi.collect (SearchApi.jobicy_step cut ("" :: kws)) data matched
    = (matched
         ++ map (fun job => {| m_url := get (jobicy_url job) "";
                               m_title := get (jobicy_title job) "";
                               m_company := get (jobicy_company_name job) "Unknown";
                               m_match_reason := "Matches: " |}) data, None).
Proof.
  induction 1 as [|job data (pub & u & t & Hpub & Hrecent & Hu & Ht) _ IH];
    intros matched; simpl.
  - now rewrite app_nil_r.
  - rewrite (jobicy_step_match _ _ job pub t u Hpub Hrecent Ht Hu).
    rewrite first_match_empty_term. cbv beta iota.
    rewrite IH, Hu, Ht, <- app_assoc. reflexivity.
Qed.

Lemma collect_all_rss (cut : Z) (kws : list string) (entries : list RssEntry) :
  Forall (fun entry => exists pub l t,
              entry_published entry = DateValue pub /\ (cut <= pub)%Z
              /\ entry_link entry = Some l /\ entry_title entry = Some t) entries ->
  forall matched,
    SearchApi.collect (SearchApi.rss_step cut ("" :: kws)) entries matched
    = (matched
         ++ map (fun entry => {| m_url := get (entry_link entry) "";
                                 m_title := get (entry_title entry) "";
                                 m_company := "Remote";
                                 m_match_reason := "Matches: " |}) entries, None).
Proof.
  induction 1 as [|entry entries (pub & l & t & Hpub & Hrecent & Hl & Ht) _ IH];
    intros matched; simpl.
  - now rewrite app_nil_r.
  - rewrite (rss_step_match _ _ entry pub t l Hpub Hrecent Ht Hl).
    rewrite first_match_empty_term. cbv beta iota.
    rewrite IH, Hl, Ht, <- app_assoc. reflexivity.
Qed.

Lemma feeds_loop_all (src : Sources) (cut : Z) (kws : list string) (feeds : list string) :
  (forall rss, In rss feeds ->
     exists entries,
       feed_entries src rss = Ok entries
       /\ Forall (fun entry => exists pub l t,
                     entry_published entry = DateValue pub /\ (cut <= pub)%Z
                     /\ entry_link entry = Some l /\ entry_title entry = Some t)
            entries) ->
  forall matched,
    SearchApi.feeds_loop src cut ("" :: kws) feeds matched
    = (matched
         ++ flat_map (fun rss =>
                        map (fun entry => {| m_url := get (entry_link entry) "";
                                             m_title := get (entry_title entry) "";
                                             m_company := "Remote";
                                             m_match_reason := "Matches: " |})
                          match feed_entries src rss with
                          | Ok entries => entries
                          | Raised _ => []
                          end) feeds, None).
Proof.
  induction feeds as [|rss feeds IH]; intros Hfeeds matched; simpl.
  - now rewrite app_nil_r.
  - destruct (Hfeeds rss (or_introl eq_refl)) as (entries & Hfeed & Hgood).
    rewrite Hfeed, (collect_all_rss cut kws entries Hgood matched).
    rewrite IH by (intros rss' Hin; apply Hfeeds; now right).
    now rewrite <- app_assoc.
Qed.

(** X9. A profile without a primary role (the key is absent, or its value is
    the empty string) gives the empty search term, which occurs in every
    text, so nothing is filtered by keyword. When every Jobicy record and
    every entry of the two feeds is dated within the last thirty days and
    carries the fields read, the adapter returns one record for each of
    them, whatever it is about: the Jobicy records in order, then the
    entries of the feeds in order, each with the reason "Matches: ", the
    whole cut to the limit. *)
Theorem empty_role_matches_every_listing (src : Sources) (p : RoleProfile)
    (limit : Z) (data : list JobicyJob) :
  get (primary_role p) "" = "" ->
  jobicy_jobs src = Ok data ->
  Forall (fun job => exists pub u t,
              jobicy_published_at job = DateValue pub /\ (today src - 30 <= pub)%Z
              /\ jobicy_url job = Some u /\ jobicy_title job = Some t) data ->
  (forall rss, In rss SearchApi._RSS_FEEDS ->
     exists entries,
       feed_entries src rss = Ok entries
       /\ Forall (fun entry => exists pub l t,
                     entry_published entry = DateValue pub
                     /\ (today src - 30 <= pub)%Z
                     /\ entry_link entry = Some l /\ entry_title entry = Some t)
            entries) ->
  SearchApi.enhanced_jobicy_search src p limit
  = slice_to limit
      (map (fun job => {| m_url := get (jobicy_url job) "";
                          m_title := get (jobicy_title job) "";
                          m_company := get (jobicy_company_name job) "Unknown";
                          m_match_reason := "Matches: " |}) data
         ++ flat_map (fun rss =>
                        map (fun entry => {| m_url := get (entry_link entry) "";
                                             m_title := get (entry_title entry) "";
                                             m_company := "Remote";
                                             m_match_reason := "Matches: " |})
                          match feed_entries src rss with
                          | Ok entries => entries
                          | Raised _ => []
                          end) SearchApi._RSS_FEEDS).
Proof.
  intros Hrole Hdata Hgood Hfeeds.
  unfold SearchApi.enhanced_jobicy_search, SearchApi.rss_stage, SearchApi.jobicy_stage,
    SearchApi.search_terms.
  rewrite Hrole, Hdata.
  rewrite (collect_all_jobicy (SearchApi.cutoff (today src)) _ data Hgood []).
  cbn [fst app].
  rewrite (feeds_loop_all src (SearchApi.cutoff (today src)) _ SearchApi._RSS_FEEDS Hfeeds).
  reflexivity.
Qed.

Lemma empty_role_matches_every_listing_witness :
  let src := {| jobicy_jobs :=
                  Ok [Sample.jobicy_listing "Pastry Chef" "croissants" "Boulangerie"
                        (DateValue Sample.today_ordinal);
                      Sample.jobicy_listing "Welder" "" "Forge"
                        (DateValue (Sample.today_ordinal - 30))];
                feed_entries := fun _ =>
                  Ok [Sample.rss_entry "Florist" (DateValue (Sample.today_ordinal - 1))];
                today := Sample.today_ordinal |} in
  let p := {| primary_role := None; alternative_roles := None; career_level := None;
              key_strengths := None; recommended_keywords := Some ["python"] |} in
  map m_title (SearchApi.enhanced_jobicy_search src p 3)
  = ["Pastry Chef"; "Welder"; "Florist"].
Proof.
  intros src p.
  rewrite (empty_role_matches_every_listing src p 3
             [Sample.jobicy_listing "Pastry Chef" "croissants" "Boulangerie"
                (DateValue Sample.today_ordinal);
              Sample.jobicy_listing "Welder" "" "Forge"
                (DateValue (Sample.today_ordinal - 30))]).
  - reflexivity.
  - reflexivity.
  - reflexivity.
  - constructor; [|constructor; [|constructor]].
    + exists Sample.today_ordinal, "https://jobicy.com/jobs/1", "Pastry Chef".
      repeat split. unfold src, Sample.today_ordinal. simpl. lia.
    + exists (Sample.today_ordinal - 30)%Z, "https://jobicy.com/jobs/1", "Welder".
      repeat split. unfold src, Sample.today_ordinal. simpl. lia.
  - intros rss _.
    exists [Sample.rss_entry "Florist" (DateValue (Sample.today_ordinal - 1))].
    split; [reflexivity|]. constructor; [|constructor].
    exists (Sample.today_ordinal - 1)%Z, "https://weworkremotely.com/listing", "Florist".
    repeat split. unfold src, Sample.today_ordinal. simpl. lia.
Defined.

(** * Further properties of [detect_suitable_job_roles] *)

(** ** Stripping and splitting *)

Lemma blank_lstrip (s : string) : PyStr.is_blank s = true -> PyStr.lstrip s = "".
Proof.
  induction s as [|c s IH]; [reflexivity|]. simpl.
  intros H. apply andb_true_iff in H as [-> H]. now apply IH.
Qed.

Lemma rstrip_idempotent (s : string) : PyStr.rstrip (PyStr.rstrip s) = PyStr.rstrip s.
Proof.
  induction s as [|c s IH]; [reflexivity|]. simpl.
  destruct (PyStr.rstrip s) as [|c' r] eqn:E.
  - destruct (PyStr.is_space c) eqn:Ec; [reflexivity|]. simpl. now rewrite Ec.
  - simpl. simpl in IH. now rewrite IH.
Qed.

Lemma lstrip_first (s : string) :
  PyStr.lstrip s = "" \/ exists c r, PyStr.lstrip s = String c r /\ PyStr.is_space c = false.
Proof.
  induction s as [|c s IH]; [now left|]. simpl.
  destruct (PyStr.is_space c) eqn:E; [exact IH|].
  right. exists c, s. auto.
Qed.

Lemma rstrip_keeps_first (c : ascii) (s : string) :
  PyStr.is_space c = false ->
  exists r, PyStr.rstrip (String c s) = String c r.
Proof.
  intros H. simpl. destruct (PyStr.rstrip s); [rewrite H|]; eauto.
Qed.

Lemma strip_idempotent (s : string) : PyStr.strip (PyStr.strip s) = PyStr.strip s.
Proof.
  unfold PyStr.strip.
  destruct (lstrip_first s) as [->|(c & r & -> & Hc)]; [reflexivity|].
  destruct (rstrip_keeps_first c r Hc) as [r' Hr]. rewrite Hr.
  simpl PyStr.lstrip. rewrite Hc, <- Hr. apply rstrip_idempotent.
Qed.

Lemma strip_fixed (s : string) :
  PyStr.lstrip s = s -> PyStr.rstrip s = s -> PyStr.strip s = s.
Proof. intros Hl Hr. unfold PyStr.strip. now rewrite Hl. Qed.

Lemma lstrip_app (a b : string) :
  a <> "" -> PyStr.lstrip a = a -> PyStr.lstrip (a ++ b) = (a ++ b)%string.
Proof.
  destruct a as [|c a]; [congruence|]. intros _ H. simpl in *.
  destruct (PyStr.is_space c); [|reflexivity].
  exfalso.
  assert (Hlen : forall s, String.length (PyStr.lstrip s) <= String.length s).
  { induction s as [|c' s' IH]; simpl; [lia|].
    destruct (PyStr.is_space c'); simpl; lia. }
  pose proof (Hlen a) as Ha. rewrite H in Ha. simpl in Ha. lia.
Qed.

Lemma rstrip_app (a b : string) :
  b <> "" -> PyStr.rstrip b = b -> PyStr.rstrip (a ++ b) = (a ++ b)%string.
Proof.
  intros Hne Hb. induction a as [|c a IH]; [exact Hb|].
  simpl. rewrite IH. destruct (a ++ b)%string eqn:E; [|reflexivity].
  destruct a; simpl in E; [congruence|discriminate].
Qed.

Lemma split_app (sep : ascii) (a b : string) :
  PyStr.split sep (a ++ String sep b) = PyStr.split sep a ++ PyStr.split sep b.
Proof.
  induction a as [|c a IH]; simpl.
  - now rewrite Ascii.eqb_refl.
  - destruct (Ascii.eqb c sep); [now rewrite IH|].
    rewrite IH. destruct (PyStr.split sep a) as [|piece pieces] eqn:E.
    + now destruct (split_not_nil sep a).
    + reflexivity.
Qed.

Lemma split_no_separator (sep : ascii) (s : string) :
  ~ In sep (chars s) -> PyStr.split sep s = [s].
Proof.
  induction s as [|c s IH]; intros H; [reflexivity|]. simpl in *.
  destruct (Ascii.eqb_spec c sep) as [->|Hne]; [tauto|].
  rewrite IH by tauto. reflexivity.
Qed.

Lemma chars_app (a b : string) : chars (a ++ b) = chars a ++ chars b.
Proof. induction a as [|c a IH]; simpl; [reflexivity|]. now rewrite IH. Qed.

Lemma prefix_empty (s : string) : String.prefix "" s = true.
Proof. destruct s; reflexivity. Qed.

Lemma prefix_chars (p s : string) :
  String.prefix p s = true -> forall c, In c (chars p) -> In c (chars s).
Proof.
  revert s. induction p as [|a p IH]; intros s H c Hc; [destruct Hc|].
  destruct s as [|b s]; simpl in H; [discriminate|].
  destruct (Ascii.ascii_dec a b) as [->|]; [|discriminate].
  destruct Hc as [<-|Hc]; simpl; [now left|]. right. now apply (IH s).
Qed.

Lemma contains_chars (p s : string) :
  PyStr.contains p s = true -> forall c, In c (chars p) -> In c (chars s).
Proof.
  induction s as [|b s IH]; intros H c Hc.
  - simpl in H. rewrite orb_false_r in H. now apply (prefix_chars p "").
  - cbn [PyStr.contains] in H. apply orb_true_iff in H as [H|H].
    + now apply (prefix_chars p (String b s)).
    + simpl. right. now apply IH.
Qed.

(** Removing a label that does not occur changes nothing. *)
Lemma remove_absent (old s : string) :
  PyStr.contains old s = false -> PyStr.remove_from old 0 s = s.
Proof.
  induction s as [|c s IH]; intros H; [reflexivity|].
  cbn [PyStr.contains] in H. apply orb_false_iff in H as [Hp Hc].
  cbn [PyStr.remove_from]. rewrite Hp, IH by exact Hc. reflexivity.
Qed.

Lemma remove_skip (old pre rest : string) :
  PyStr.remove_from old (String.length pre) (pre ++ rest) = PyStr.remove_from old 0 rest.
Proof.
  induction pre as [|c pre IH]; [reflexivity|]. simpl. exact IH.
Qed.

Lemma prefix_self (a b : string) : String.prefix a (a ++ b) = true.
Proof.
  induction a as [|c a IH]; [apply prefix_empty|]. simpl.
  destruct (Ascii.ascii_dec c c); [exact IH|congruence].
Qed.

(** A line made of a label and a rest in which the label does not occur
    loses exactly the label. *)
Lemma remove_label (old rest : string) :
  old <> "" -> PyStr.contains old rest = false ->
  PyStr.remove old (old ++ rest) = rest.
Proof.
  intros Hne Hrest. unfold PyStr.remove.
  destruct old as [|c old]; [congruence|].
  change (String c old ++ rest)%string with (String c (old ++ rest)%string).
  cbn [PyStr.remove_from].
  change (String c (old ++ rest)%string) with (String c old ++ rest)%string.
  rewrite prefix_self.
  replace (String.length (String c old) - 1) with (String.length old) by (simpl; lia).
  rewrite remove_skip. apply remove_absent. exact Hrest.
Qed.

(** ** The answer is read line by line *)

Lemma detect_as_fold (response : string) :
  App.detect_suitable_job_roles response
  = fold_left App.parse_line (PyStr.split "010" response) App.default_roles.
Proof.
  unfold App.detect_suitable_job_roles. destruct response; reflexivity.
Qed.

Lemma detect_append_line (response line : string) :
  ~ In "010"%char (chars line) ->
  App.detect_suitable_job_roles (response ++ PyStr.nl ++ line)
  = App.parse_line (App.detect_suitable_job_roles response) line.
Proof.
  intros Hline. rewrite !detect_as_fold.
  change (response ++ PyStr.nl ++ line)%string with (response ++ String "010" line)%string.
  rewrite split_app, (split_no_separator "010" line Hline), fold_left_app.
  reflexivity.
Qed.

(** X11. Reading an answer that ends with one more line is reading the answer
    without that line and then applying the loop body to the line: lines are
    taken in order and a later line overrides what earlier lines set. *)
Theorem detect_line_by_line (response line : string) :
  ~ In "010"%char (chars line) ->
  App.detect_suitable_job_roles (response ++ PyStr.nl ++ line)
  = App.parse_line (App.detect_suitable_job_roles response) line.
Proof. exact (detect_append_line response line). Qed.

Lemma detect_line_by_line_witness :
  App.detect_suitable_job_roles
    ("CAREER LEVEL: Junior" ++ PyStr.nl ++ "CAREER LEVEL: Senior")
  = App.parse_line (App.detect_suitable_job_roles "CAREER LEVEL: Junior")
      "CAREER LEVEL: Senior".
Proof.
  apply detect_line_by_line. simpl. intros H.
  repeat (destruct H as [H|H]; [discriminate H|]). exact H.
Defined.

Lemma label_absent (f : App.Field) (v : string) :
  ~ In ":"%char (chars v) -> PyStr.contains (App.label f) v = false.
Proof.
  intros H. destruct (PyStr.contains (App.label f) v) eqn:E; [|reflexivity].
  exfalso. apply H. apply (contains_chars _ _ E).
  destruct f; simpl; tauto.
Qed.

Lemma field_text_label (f : App.Field) (v : string) :
  ~ In ":"%char (chars v) ->
  App.field_text f (App.label f ++ v) = PyStr.strip v.
Proof.
  intros H. unfold App.field_text.
  rewrite remove_label; [reflexivity| |apply label_absent; exact H].
  destruct f; discriminate.
Qed.

Lemma prefix_head (a : ascii) (p : string) (c : ascii) (l : string) :
  String.prefix (String a p) (String c l) = true -> a = c.
Proof.
  intros H.
  change (String.prefix (String a p) (String c l))
    with (match Ascii.ascii_dec a c with
          | left _ => String.prefix p l
          | right _ => false
          end) in H.
  destruct (Ascii.ascii_dec a c); [assumption|discriminate H].
Qed.

Lemma label_exclusive (f g : App.Field) (line : string) :
  PyStr.startswith line (App.label f) = true -> f <> g ->
  PyStr.startswith line (App.label g) = false.
Proof.
  unfold PyStr.startswith. intros H Hfg.
  destruct line as [|c line]; [destruct f; discriminate H|].
  destruct f; apply prefix_head in H; subst c;
    destruct g; try reflexivity; congruence.
Qed.

(** A line that starts with the label of [f] sets field [f], whatever the
    profile held. *)
Lemma parse_line_sets (f : App.Field) (parsed : RoleProfile) (line : string) :
  PyStr.startswith line (App.label f) = true ->
  match f with
  | App.PrimaryRole =>
      primary_role (App.parse_line parsed line) = Some (App.field_text f line)
  | App.AlternativeRoles =>
      alternative_roles (App.parse_line parsed line)
      = Some (App.comma_list (App.field_text f line))
  | App.CareerLevel =>
      career_level (App.parse_line parsed line) = Some (App.field_text f line)
  | App.KeyStrengths =>
      key_strengths (App.parse_line parsed line)
      = Some (App.comma_list (App.field_text f line))
  | App.RecommendedKeywords =>
      recommended_keywords (App.parse_line parsed line)
      = Some (App.comma_list (App.field_text f line))
  end.
Proof.
  intros H. unfold App.parse_line.
  destruct f;
    repeat first
      [ rewrite H
      | rewrite (label_exclusive _ App.PrimaryRole line H) by discriminate
      | rewrite (label_exclusive _ App.AlternativeRoles line H) by discriminate
      | rewrite (label_exclusive _ App.CareerLevel line H) by discriminate
      | rewrite (label_exclusive _ App.KeyStrengths line H) by discriminate
      | rewrite (label_exclusive _ App.RecommendedKeywords line H) by discriminate ];
    reflexivity.
Qed.

Lemma blank_no_colon (value : string) :
  PyStr.is_blank value = true -> ~ In ":"%char (chars value).
Proof.
  induction value as [|c value IH]; [intros _ []|].
  intros H. cbn [PyStr.is_blank] in H. apply andb_true_iff in H as [Hc Hv].
  cbn [chars In]. intros [Heq|Hin]; [|now apply IH].
  subst c. vm_compute in Hc. discriminate Hc.
Qed.

(** X12. Among the lines of the answer, the last one that starts with the
    label of a field decides that field, whatever lines come before or after
    it: the field is the text of that line with every occurrence of the
    label removed and then stripped, split at the commas for the three
    lists. When the rest of the line holds no colon, that text is the
    stripped rest of the line; when the rest is blank, the field is the empty
    string (for a list, one empty entry) and the default does not come
    back. *)
Theorem last_labelled_line_wins (response : string) (before after : list string)
    (line : string) (f : App.Field) :
  PyStr.split "010" response = before ++ line :: after ->
  PyStr.startswith line (App.label f) = true ->
  Forall (fun later => PyStr.startswith later (App.label f) = false) after ->
  match f with
  | App.PrimaryRole =>
      primary_role (App.detect_suitable_job_roles response)
      = Some (App.field_text f line)
  | App.AlternativeRoles =>
      alternative_roles (App.detect_suitable_job_roles response)
      = Some (App.comma_list (App.field_text f line))
  | App.CareerLevel =>
      career_level (App.detect_suitable_job_roles response)
      = Some (App.field_text f line)
  | App.KeyStrengths =>
      key_strengths (App.detect_suitable_job_roles response)
      = Some (App.comma_list (App.field_text f line))
  | App.RecommendedKeywords =>
      recommended_keywords (App.detect_suitable_job_roles response)
      = Some (App.comma_list (App.field_text f line))
  end
  /\ (forall value, line = (App.label f ++ value)%string ->
        ~ In ":"%char (chars value) ->
        App.field_text f line = PyStr.strip value)
  /\ (forall value, line = (App.label f ++ value)%string ->
        PyStr.is_blank value = true ->
        App.field_text f line = "" /\ App.comma_list (App.field_text f line) = [""]).
Proof.
  intros Hsplit Hline Hafter.
  split; [|split].
  - rewrite detect_as_fold, Hsplit, fold_left_app. cbn [fold_left].
    set (parsed := fold_left App.parse_line before App.default_roles).
    assert (Hkeep : App.same_field f
                      (fold_left App.parse_line after (App.parse_line parsed line))
                      (App.parse_line parsed line)).
    { apply parse_lines_other_label.
      clear Hsplit. induction Hafter as [|later after Hl _ IH]; [reflexivity|].
      simpl. now rewrite Hl. }
    pose proof (parse_line_sets f parsed line Hline) as Hset.
    destruct f; simpl in Hkeep; rewrite Hkeep; exact Hset.
  - intros value -> Hcolon. apply field_text_label. exact Hcolon.
  - intros value -> Hblank.
    rewrite field_text_label by (apply blank_no_colon; exact Hblank).
    unfold PyStr.strip. rewrite blank_lstrip by exact Hblank. auto.
Qed.

Lemma last_labelled_line_wins_witness :
  let response := ("PRIMARY ROLE: Data Scientist" ++ PyStr.nl
                   ++ "CAREER LEVEL: Senior" ++ PyStr.nl
                   ++ "PRIMARY ROLE:   " ++ PyStr.nl
                   ++ "KEY STRENGTHS: Python, SQL")%string in
  primary_role (App.detect_suitable_job_roles response) = Some ""
  /\ career_level (App.detect_suitable_job_roles response) = Some "Senior".
Proof.
  intros response. split.
  - destruct (last_labelled_line_wins response
                ["PRIMARY ROLE: Data Scientist"; "CAREER LEVEL: Senior"]
                ["KEY STRENGTHS: Python, SQL"] "PRIMARY ROLE:   " App.PrimaryRole)
      as (Hfield & _ & Hblank).
    + reflexivity.
    + reflexivity.
    + repeat constructor.
    + rewrite Hfield. rewrite (proj1 (Hblank "   " eq_refl eq_refl)). reflexivity.
  - destruct (last_labelled_line_wins response
                ["PRIMARY ROLE: Data Scientist"]
                ["PRIMARY ROLE:   "; "KEY STRENGTHS: Python, SQL"]
                "CAREER LEVEL: Senior" App.CareerLevel)
      as (Hfield & Hvalue & _).
    + reflexivity.
    + reflexivity.
    + repeat constructor.
    + rewrite Hfield. rewrite (Hvalue " Senior" eq_refl); [reflexivity|absent_char].
Defined.

(** ** What every parsed profile satisfies *)

Lemma comma_list_stripped (text : string) :
  Forall (fun s => PyStr.strip s = s) (App.comma_list text).
Proof.
  unfold App.comma_list. apply Forall_forall. intros s Hs.
  apply in_map_iff in Hs as (x & <- & _). apply strip_idempotent.
Qed.

Lemma comma_list_not_nil (text : string) : App.comma_list text <> [].
Proof.
  unfold App.comma_list. destruct (PyStr.split "," text) eqn:E; [|discriminate].
  now destruct (split_not_nil "," text).
Qed.

Lemma parse_line_stripped (parsed : RoleProfile) (line : string) :
  all_stripped parsed -> all_stripped (App.parse_line parsed line).
Proof.
  intros (H1 & H2 & H3 & H4 & H5). unfold App.parse_line.
  destruct (PyStr.startswith line (App.label App.PrimaryRole));
    [|destruct (PyStr.startswith line (App.label App.AlternativeRoles));
      [|destruct (PyStr.startswith line (App.label App.CareerLevel));
        [|destruct (PyStr.startswith line (App.label App.KeyStrengths));
          [|destruct (PyStr.startswith line (App.label App.RecommendedKeywords))]]]];
    unfold all_stripped; cbn [primary_role alternative_roles career_level
                                key_strengths recommended_keywords];
    repeat split; auto;
    intros x Hx; injection Hx as <-;
    (apply strip_idempotent || apply comma_list_stripped).
Qed.

Lemma detect_all_stripped (response : string) :
  all_stripped (App.detect_suitable_job_roles response).
Proof.
  rewrite detect_as_fold.
  assert (H0 : all_stripped App.default_roles).
  { unfold all_stripped, App.default_roles; cbn. repeat split;
      intros x Hx; injection Hx as <-; repeat constructor. }
  revert H0. generalize App.default_roles.
  induction (PyStr.split "010" response) as [|line lines IH]; intros parsed H;
    [exact H|].
  simpl. apply IH, parse_line_stripped, H.
Qed.

(** X13. Whatever the answer of the model, no value of the parsed profile begins
    or ends with white space. *)
Theorem detect_values_stripped (response : string) :
  all_stripped (App.detect_suitable_job_roles response).
Proof. exact (detect_all_stripped response). Qed.

(** The profile has its five keys and its lists are not empty. *)
Lemma parse_line_complete (parsed : RoleProfile) (line : string) :
  (exists a b c d e,
      parsed = mkRoleProfile (Some a) (Some b) (Some c) (Some d) (Some e)
      /\ b <> [] /\ d <> [] /\ e <> []) ->
  exists a b c d e,
    App.parse_line parsed line = mkRoleProfile (Some a) (Some b) (Some c) (Some d) (Some e)
    /\ b <> [] /\ d <> [] /\ e <> [].
Proof.
  intros (a & b & c & d & e & -> & Hb & Hd & He). unfold App.parse_line.
  destruct (PyStr.startswith line (App.label App.PrimaryRole));
    [|destruct (PyStr.startswith line (App.label App.AlternativeRoles));
      [|destruct (PyStr.startswith line (App.label App.CareerLevel));
        [|destruct (PyStr.startswith line (App.label App.KeyStrengths));
          [|destruct (PyStr.startswith line (App.label App.RecommendedKeywords))]]]];
    cbn [primary_role alternative_roles career_level key_strengths recommended_keywords];
    do 5 eexists; (split; [reflexivity|]);
    repeat split; auto using comma_list_not_nil.
Qed.

Lemma detect_complete (response : string) :
  exists a b c d e,
    App.detect_suitable_job_roles response
    = mkRoleProfile (Some a) (Some b) (Some c) (Some d) (Some e)
    /\ b <> [] /\ d <> [] /\ e <> [].
Proof.
  rewrite detect_as_fold.
  assert (H0 : exists a b c d e,
             App.default_roles = mkRoleProfile (Some a) (Some b) (Some c) (Some d) (Some e)
             /\ b <> [] /\ d <> [] /\ e <> []).
  { do 5 eexists. split; [reflexivity|]. repeat split; discriminate. }
  revert H0. generalize App.default_roles.
  induction (PyStr.split "010" response) as [|line lines IH]; intros parsed H;
    [exact H|].
  simpl. apply IH, parse_line_complete, H.
Qed.

(** X14. On a parsed profile the query list of the inline adapter never raises:
    the four keys it reads are always there. It is the list the other adapter
    builds before filtering, and because the parsed lists are never empty it
    has between four and six entries. *)
Theorem parsed_profile_gives_queries (response : string) :
  let p := App.detect_suitable_job_roles response in
  App.search_queries p = Ok (SearchApi.queries p)
  /\ 4 <= length (SearchApi.queries p) <= 6.
Proof.
  cbv zeta.
  destruct (detect_complete response) as (a & b & c & d & e & -> & Hb & _ & He).
  split; [reflexivity|].
  unfold SearchApi.queries. cbn [primary_role alternative_roles career_level
                                   recommended_keywords get].
  rewrite !length_app. cbn [length].
  destruct b as [|b1 [|b2 b]]; [congruence| |];
    destruct e as [|e1 [|e2 e]]; try congruence; simpl; lia.
Qed.

(** ** An answer in the format asked for is read back exactly *)

Lemma string_app_assoc (a b c : string) : ((a ++ b) ++ c = a ++ (b ++ c))%string.
Proof. induction a as [|x a IH]; simpl; [reflexivity|]. now rewrite IH. Qed.

Lemma join_cons (sep item : string) (rest : list string) :
  rest <> [] -> join sep (item :: rest) = (item ++ sep ++ join sep rest)%string.
Proof. destruct rest; [congruence|reflexivity]. Qed.

Lemma join_not_empty (sep : string) (items : list string) :
  items <> [] -> Forall (fun s => s <> "") items -> join sep items <> "".
Proof.
  intros Hne Hall. destruct items as [|item rest]; [congruence|].
  inversion Hall as [|? ? Hitem _]; subst.
  destruct rest; simpl; [exact Hitem|].
  destruct item; [congruence|discriminate].
Qed.

Lemma join_chars (sep : string) (items : list string) (c : ascii) :
  ~ In c (chars sep) -> Forall (fun s => ~ In c (chars s)) items ->
  ~ In c (chars (join sep items)).
Proof.
  intros Hsep. induction 1 as [|item rest Hitem _ IH]; [simpl; tauto|].
  destruct rest as [|next rest]; [exact Hitem|].
  rewrite join_cons by discriminate. rewrite !chars_app, !in_app_iff. tauto.
Qed.

Lemma join_stripped (items : list string) :
  items <> [] -> Forall plain_item items ->
  PyStr.strip (join ", " items) = join ", " items.
Proof.
  intros Hne Hall. apply strip_fixed.
  - destruct items as [|item rest]; [congruence|].
    inversion Hall as [|? ? ((Hl & _) & Hitem & _) _]; subst.
    destruct rest; [exact Hl|].
    rewrite join_cons by discriminate. now apply lstrip_app.
  - clear Hne. induction Hall as [|item rest ((_ & Hr & _) & Hitem & _) Hrest IH];
      [reflexivity|].
    destruct rest as [|next rest]; [exact Hr|].
    rewrite join_cons by discriminate.
    rewrite <- string_app_assoc. apply rstrip_app; [|exact IH].
    apply join_not_empty; [discriminate|].
    eapply Forall_impl; [|exact Hrest]. intros s (_ & H & _). exact H.
Qed.

Lemma comma_list_space (text : string) :
  App.comma_list (String " " text) = App.comma_list text.
Proof.
  unfold App.comma_list. simpl.
  destruct (PyStr.split "," text) as [|piece pieces] eqn:E;
    [now destruct (split_not_nil "," text)|].
  reflexivity.
Qed.

Lemma comma_list_join (items : list string) :
  items <> [] -> Forall plain_item items ->
  App.comma_list (join ", " items) = items.
Proof.
  intros Hne. destruct items as [|item rest]; [congruence|]. clear Hne.
  revert item. induction rest as [|next rest IH]; intros item Hall;
    inversion Hall as [|? ? ((Hl & Hr & _) & _ & Hcomma) Hrest]; subst.
  - unfold App.comma_list. simpl join.
    rewrite (split_no_separator "," item Hcomma). simpl.
    now rewrite (strip_fixed item Hl Hr).
  - rewrite join_cons by discriminate.
    change (item ++ ", " ++ join ", " (next :: rest))%string
      with (item ++ String "," (String " " (join ", " (next :: rest))))%string.
    unfold App.comma_list at 1.
    rewrite split_app, (split_no_separator "," item Hcomma), map_app.
    change (map PyStr.strip (PyStr.split "," (String " " (join ", " (next :: rest)))))
      with (App.comma_list (String " " (join ", " (next :: rest)))).
    rewrite comma_list_space, (IH next Hrest). simpl.
    now rewrite (strip_fixed item Hl Hr).
Qed.

Lemma startswith_own_label (f : App.Field) (body : string) :
  PyStr.startswith (App.label f ++ body) (App.label f) = true.
Proof. unfold PyStr.startswith. apply prefix_self. Qed.

Lemma startswith_other_label (f g : App.Field) (body : string) :
  f <> g -> PyStr.startswith (App.label f ++ body) (App.label g) = false.
Proof. intros H. destruct f, g; try reflexivity; congruence. Qed.

Lemma strip_leading_space (body : string) :
  PyStr.strip (String " " body) = PyStr.strip body.
Proof. reflexivity. Qed.

(** What the loop body does with a line made of a label, a space and a
    value without colon. *)
Lemma parse_labelled_line (f : App.Field) (parsed : RoleProfile) (body : string) :
  ~ In ":"%char (chars body) ->
  App.parse_line parsed (App.label f ++ String " " body)
  = match f with
    | App.PrimaryRole =>
        mkRoleProfile (Some (PyStr.strip body)) (alternative_roles parsed)
          (career_level parsed) (key_strengths parsed) (recommended_keywords parsed)
    | App.AlternativeRoles =>
        mkRoleProfile (primary_role parsed) (Some (App.comma_list (PyStr.strip body)))
          (career_level parsed) (key_strengths parsed) (recommended_keywords parsed)
    | App.CareerLevel =>
        mkRoleProfile (primary_role parsed) (alternative_roles parsed)
          (Some (PyStr.strip body)) (key_strengths parsed) (recommended_keywords parsed)
    | App.KeyStrengths =>
        mkRoleProfile (primary_role parsed) (alternative_roles parsed)
          (career_level parsed) (Some (App.comma_list (PyStr.strip body)))
          (recommended_keywords parsed)
    | App.RecommendedKeywords =>
        mkRoleProfile (primary_role parsed) (alternative_roles parsed)
          (career_level parsed) (key_strengths parsed)
          (Some (App.comma_list (PyStr.strip body)))
    end.
Proof.
  intros Hcolon.
  assert (Htext : App.field_text f (App.label f ++ String " " body) = PyStr.strip body).
  { rewrite field_text_label; [apply strip_leading_space|].
    simpl. intros [H|H]; [discriminate H|tauto]. }
  unfold App.parse_line.
  destruct f;
    repeat first
      [ rewrite startswith_own_label
      | rewrite startswith_other_label by discriminate ];
    rewrite Htext; reflexivity.
Qed.

Lemma labelled_line_one_line (f : App.Field) (body : string) :
  ~ In "010"%char (chars body) ->
  ~ In "010"%char (chars (App.label f ++ String " " body)).
Proof.
  intros H. rewrite chars_app, in_app_iff. simpl chars at 2.
  intros [Hl|[Hs|Hb]]; [|discriminate Hs|tauto].
  destruct f; simpl in Hl;
    repeat (destruct Hl as [Hl|Hl]; [discriminate Hl|]); exact Hl.
Qed.

(** X15. An answer laid out as the prompt asks, with plain values, is read back
    as exactly the values it was made of: nothing is lost, reordered or
    altered, and no default is left. *)
Theorem formatted_response_round_trip (primary : string) (alternatives : list string)
    (level : string) (strengths keywords : list string) :
  plain primary -> plain level ->
  alternatives <> [] -> Forall plain_item alternatives ->
  strengths <> [] -> Forall plain_item strengths ->
  keywords <> [] -> Forall plain_item keywords ->
  App.detect_suitable_job_roles
    (formatted_response primary alternatives level strengths keywords)
  = mkRoleProfile (Some primary) (Some alternatives) (Some level)
      (Some strengths) (Some keywords).
Proof.
  intros (Hpl & Hpr & Hpc & Hpn) (Hll & Hlr & Hlc & Hln) Ha Has Hs Hss Hk Hks.
  assert (Hlist : forall items,
             items <> [] -> Forall plain_item items ->
             ~ In ":"%char (chars (join ", " items))
             /\ ~ In "010"%char (chars (join ", " items))
             /\ App.comma_list (PyStr.strip (join ", " items)) = items).
  { intros items Hne Hall. split; [|split].
    - apply join_chars.
      + simpl. intros [H|[H|H]]; try discriminate H; exact H.
      + eapply Forall_impl; [|exact Hall]. intros s ((_ & _ & H & _) & _). exact H.
    - apply join_chars.
      + simpl. intros [H|[H|H]]; try discriminate H; exact H.
      + eapply Forall_impl; [|exact Hall]. intros s ((_ & _ & _ & H) & _). exact H.
    - rewrite join_stripped by assumption. now apply comma_list_join. }
  destruct (Hlist alternatives Ha Has) as (Hac & Han & Hav).
  destruct (Hlist strengths Hs Hss) as (Hsc & Hsn & Hsv).
  destruct (Hlist keywords Hk Hks) as (Hkc & Hkn & Hkv).
  rewrite detect_as_fold.
  change (formatted_response primary alternatives level strengths keywords)
    with ((App.label App.PrimaryRole ++ String " " primary)
            ++ String "010"
            ((App.label App.AlternativeRoles ++ String " " (join ", " alternatives))
               ++ String "010"
               ((App.label App.CareerLevel ++ String " " level)
                  ++ String "010"
                  ((App.label App.KeyStrengths ++ String " " (join ", " strengths))
                     ++ String "010"
                     (App.label App.RecommendedKeywords
                        ++ String " " (join ", " keywords))))))%string.
  rewrite !split_app.
  rewrite (split_no_separator "010" _
             (labelled_line_one_line App.PrimaryRole primary Hpn)).
  rewrite (split_no_separator "010" _
             (labelled_line_one_line App.AlternativeRoles _ Han)).
  rewrite (split_no_separator "010" _
             (labelled_line_one_line App.CareerLevel level Hln)).
  rewrite (split_no_separator "010" _
             (labelled_line_one_line App.KeyStrengths _ Hsn)).
  rewrite (split_no_separator "010" _
             (labelled_line_one_line App.RecommendedKeywords _ Hkn)).
  cbn [app fold_left].
  rewrite (parse_labelled_line App.PrimaryRole _ primary Hpc).
  rewrite (parse_labelled_line App.AlternativeRoles _ _ Hac).
  rewrite (parse_labelled_line App.CareerLevel _ level Hlc).
  rewrite (parse_labelled_line App.KeyStrengths _ _ Hsc).
  rewrite (parse_labelled_line App.RecommendedKeywords _ _ Hkc).
  cbn [primary_role alternative_roles career_level key_strengths recommended_keywords].
  rewrite Hav, Hsv, Hkv.
  rewrite (strip_fixed primary Hpl Hpr), (strip_fixed level Hll Hlr).
  reflexivity.
Qed.

Lemma formatted_response_round_trip_witness :
  App.detect_suitable_job_roles
    (formatted_response "Data Scientist" ["ML Engineer"; "Analyst"] "Senior"
       ["Python"] ["python"; "statistics"])
  = mkRoleProfile (Some "Data Scientist") (Some ["ML Engineer"; "Analyst"])
      (Some "Senior") (Some ["Python"]) (Some ["python"; "statistics"]).
Proof.
  apply formatted_response_round_trip; unfold plain_item, plain; plain_value.
Defined.

(** * The inline adapters of [app.py] and the search they serve *)

Lemma inline_same_job_key (e new : AppSearch.JobData) :
  AppSearch.same_job e new = true
  <-> (AppSearch.data_title e, AppSearch.data_company e)
      = (AppSearch.data_title new, AppSearch.data_company new).
Proof.
  unfold AppSearch.same_job. rewrite andb_true_iff, !opt_eqb_eq. split.
  - intros [-> ->]. reflexivity.
  - intros H. injection H. auto.
Qed.

Lemma inline_append_unique_ok (limit : Z) (new : AppSearch.JobData)
    (all_jobs : list AppSearch.JobData) :
  (Z.of_nat (length all_jobs) < limit)%Z ->
  NoDup (map (fun j => (AppSearch.data_title j, AppSearch.data_company j)) all_jobs) ->
  (Z.of_nat (length (AppSearch.append_unique new all_jobs)) <= limit)%Z
  /\ NoDup (map (fun j => (AppSearch.data_title j, AppSearch.data_company j))
              (AppSearch.append_unique new all_jobs)).
Proof.
  intros Hlen Hnd. unfold AppSearch.append_unique.
  destruct (existsb (fun e => AppSearch.same_job e new) all_jobs) eqn:E.
  - split; [lia|exact Hnd].
  - split; [rewrite length_app; simpl; lia|].
    rewrite map_app. simpl. apply NoDup_app. repeat split.
    + exact Hnd.
    + constructor; [intros []|constructor].
    + intros k Hk [Hk'|[]]. subst k.
      apply in_map_iff in Hk as (e & Hkey & Hin).
      assert (AppSearch.same_job e new = true) by (apply inline_same_job_key; exact Hkey).
      assert (existsb (fun e => AppSearch.same_job e new) all_jobs = true)
        by (apply existsb_exists; eauto).
      congruence.
Qed.

Lemma inline_jobs_loop_ok (limit : Z) (query : string) (jobs : list AppSearch.Listing) :
  forall all_jobs,
    (Z.of_nat (length all_jobs) <= Z.max 0 limit)%Z ->
    NoDup (map (fun j => (AppSearch.data_title j, AppSearch.data_company j)) all_jobs) ->
    (Z.of_nat (length (AppSearch.jobs_loop limit query jobs all_jobs)) <= Z.max 0 limit)%Z
    /\ NoDup (map (fun j => (AppSearch.data_title j, AppSearch.data_company j))
                (AppSearch.jobs_loop limit query jobs all_jobs)).
Proof.
  induction jobs as [|job jobs IH]; intros all_jobs Hlen Hnd; simpl; [auto|].
  destruct (len_ge all_jobs limit) eqn:E; [auto|].
  apply len_ge_false in E.
  destruct (inline_append_unique_ok limit (AppSearch.job_data query job) all_jobs E Hnd)
    as [Hlen' Hnd'].
  apply IH; [lia|exact Hnd'].
Qed.

Lemma inline_query_loop_ok (search : AppSearch.Service) (key loc : string) (limit : Z) :
  forall qs all_jobs trace,
    (Z.of_nat (length all_jobs) <= Z.max 0 limit)%Z ->
    NoDup (map (fun j => (AppSearch.data_title j, AppSearch.data_company j)) all_jobs) ->
    let out := AppSearch.query_loop search key loc limit qs all_jobs trace in
    (Z.of_nat (length (fst out)) <= Z.max 0 limit)%Z
    /\ NoDup (map (fun j => (AppSearch.data_title j, AppSearch.data_company j)) (fst out))
    /\ exists n, snd out = trace ++ map (fun query => AppSearch.make_params key query loc)
                                      (firstn n qs).
Proof.
  induction qs as [|query qs IH]; intros all_jobs trace Hlen Hnd; simpl.
  - repeat split; auto. exists 0. simpl. now rewrite app_nil_r.
  - destruct (len_ge all_jobs limit).
    + simpl. repeat split; auto. exists 0. simpl. now rewrite app_nil_r.
    + set (res := search (length trace) (AppSearch.make_params key query loc)).
      assert (Hrun : (Z.of_nat (length (AppSearch.run_query limit query res all_jobs))
                      <= Z.max 0 limit)%Z
                     /\ NoDup (map (fun j => (AppSearch.data_title j,
                                              AppSearch.data_company j))
                                 (AppSearch.run_query limit query res all_jobs))).
      { destruct res as [e|[|] results]; simpl; auto.
        apply inline_jobs_loop_ok; assumption. }
      destruct Hrun as [Hlen' Hnd'].
      destruct (IH (AppSearch.run_query limit query res all_jobs)
                   (trace ++ [AppSearch.make_params key query loc]) Hlen' Hnd')
        as (H1 & H2 & n & H3).
      repeat split; auto. exists (S n). rewrite H3. simpl. now rewrite <- app_assoc.
Qed.

Lemma inline_fetch_cases (search : AppSearch.Service) (key : option string)
    (p : RoleProfile) (loc : string) (limit : Z) :
  match AppSearch.fetch_google_jobs_serpapi search key p loc limit with
  | (Ok all_jobs, trace) =>
      (Z.of_nat (length all_jobs) <= Z.max 0 limit)%Z
      /\ NoDup (map (fun j => (AppSearch.data_title j, AppSearch.data_company j)) all_jobs)
      /\ length trace <= 6
      /\ Forall (fun params => SearchApi.location params = Some loc) trace
  | (Raised e, trace) =>
      e = KeyError /\ trace = [] /\ truthy key = true
      /\ (primary_role p = None \/ career_level p = None
          \/ alternative_roles p = None \/ recommended_keywords p = None)
  end.
Proof.
  unfold AppSearch.fetch_google_jobs_serpapi.
  destruct (truthy key) eqn:Hkey.
  - unfold App.search_queries.
    destruct (primary_role p) as [primary|]; [|simpl; tauto].
    destruct (career_level p) as [level|]; [|simpl; tauto].
    destruct (alternative_roles p) as [alternatives|]; [|simpl; tauto].
    destruct (recommended_keywords p) as [keywords|]; [|simpl; tauto].
    set (qs := ([primary; (primary ++ " " ++ PyStr.lower level)%string]
                  ++ firstn 2 alternatives ++ firstn 2 keywords)).
    assert (Hqs : length qs <= 6).
    { subst qs. rewrite !length_app. cbn [length].
      pose proof (firstn_2_length alternatives). pose proof (firstn_2_length keywords). lia. }
    destruct (inline_query_loop_ok search (get key "") loc limit qs [] [])
      as (H1 & H2 & n & H3); [simpl; lia|constructor|].
    destruct (AppSearch.query_loop search (get key "") loc limit qs [] [])
      as [all_jobs trace].
    simpl in H1, H2, H3. subst trace. repeat split; auto.
    + rewrite length_map. pose proof (firstn_le_length n qs).
      rewrite length_firstn. lia.
    + apply Forall_forall. intros params Hin.
      apply in_map_iff in Hin as (query & <- & _). reflexivity.
  - simpl. repeat split; try constructor; lia.
Qed.

(** X17. The inline adapter either returns a list or raises [KeyError]. A list it
    returns is within the limit, for a negative limit it is empty, without
    any final slice, and holds no two entries with the same title and
    company; at most six requests were issued, each with the location in it.
    It raises only when a credential is configured and the profile lacks one
    of the four keys it reads, and then before any request. *)
Theorem inline_fetch_outcome (search : AppSearch.Service) (key : option string)
    (p : RoleProfile) (loc : string) (limit : Z) :
  match AppSearch.fetch_google_jobs_serpapi search key p loc limit with
  | (Ok all_jobs, trace) =>
      (Z.of_nat (length all_jobs) <= Z.max 0 limit)%Z
      /\ NoDup (map (fun j => (AppSearch.data_title j, AppSearch.data_company j)) all_jobs)
      /\ length trace <= 6
      /\ Forall (fun params => SearchApi.location params = Some loc) trace
  | (Raised e, trace) =>
      e = KeyError /\ trace = [] /\ truthy key = true
      /\ (primary_role p = None \/ career_level p = None
          \/ alternative_roles p = None \/ recommended_keywords p = None)
  end.
Proof. exact (inline_fetch_cases search key p loc limit). Qed.

Lemma collect_raises {A : Type} (step : A -> result (option MatchedJob)) (items : list A) :
  Exists (fun item => exists e, step item = Raised e) items ->
  forall matched, exists e, snd (SearchApi.collect step items matched) = Some e.
Proof.
  induction items as [|item items IH]; intros H matched; [inversion H|].
  simpl. destruct (step item) as [[m|]|e] eqn:E.
  - apply IH. inversion H as [? ? [e' He']|]; subst; [congruence|assumption].
  - apply IH. inversion H as [? ? [e' He']|]; subst; [congruence|assumption].
  - exists e. reflexivity.
Qed.

(** X18. The inline Jobicy search is all or nothing: one record on which the loop
    body raises (a date that is missing or does not parse, a missing title
    or address) empties the whole result, the matches found before it
    included; the module version keeps those. *)
Theorem inline_jobicy_all_or_nothing (src : Sources) (p : RoleProfile) (limit : Z)
    (data : list JobicyJob) (primary : string) (keywords : list string) :
  jobicy_jobs src = Ok data ->
  primary_role p = Some primary -> recommended_keywords p = Some keywords ->
  Exists (fun job => exists e,
              AppSearch.jobicy_step (SearchApi.cutoff (today src)) (primary :: keywords) job
              = Raised e) data ->
  AppSearch.enhanced_jobicy_search src p limit = [].
Proof.
  intros Hdata Hp Hk Hbad. unfold AppSearch.enhanced_jobicy_search.
  rewrite Hdata, Hp, Hk.
  destruct (collect_raises _ data Hbad []) as [e He].
  destruct (SearchApi.collect _ data []) as [matched status].
  simpl in He. subst status. reflexivity.
Qed.

Lemma inline_jobicy_all_or_nothing_witness :
  let data := [Sample.jobicy_listing "Tester" "" "Acme" (DateValue Sample.today_ordinal);
               Sample.jobicy_listing "Tester" "" "Globex" DateMalformed] in
  AppSearch.enhanced_jobicy_search (Sample.jobicy_only data) (Sample.only_role "Tester") 10
    = []
  /\ length (SearchApi.enhanced_jobicy_search (Sample.jobicy_only data)
               (Sample.only_role "Tester") 10) = 1.
Proof.
  intros data. split; [|reflexivity].
  apply (inline_jobicy_all_or_nothing (Sample.jobicy_only data)
           (Sample.only_role "Tester") 10 data "Tester" []); try reflexivity.
  subst data. apply Exists_cons_tl, Exists_cons_hd. exists ValueError. reflexivity.
Defined.

Lemma inline_jobicy_within_limit (src : Sources) (p : RoleProfile) (limit : Z) :
  (0 <= limit)%Z ->
  (Z.of_nat (length (AppSearch.enhanced_jobicy_search src p limit)) <= limit)%Z.
Proof.
  intros H. unfold AppSearch.enhanced_jobicy_search.
  destruct (jobicy_jobs src) as [data|e]; [|simpl; lia].
  destruct (primary_role p); [|simpl; lia].
  destruct (recommended_keywords p); [|simpl; lia].
  destruct (SearchApi.collect _ data []) as [matched [e|]]; [simpl; lia|].
  apply slice_to_length. exact H.
Qed.

(** X19. Whatever the language model answered and whatever the sources return,
    the search behind the button does not raise on the parsed profile and
    shows at most 25 jobs: at most 15 from Google Jobs and at most 10 from
    Jobicy. *)
Theorem search_shows_at_most_25 (search : AppSearch.Service) (src : Sources)
    (key : option string) (response custom_location selected : string) :
  exists found,
    AppSearch.find_jobs search src key (App.detect_suitable_job_roles response)
      custom_location selected = Ok found
    /\ length (fst found) <= 15
    /\ length (snd found) <= 10
    /\ AppSearch.total_jobs found <= 25.
Proof.
  unfold AppSearch.find_jobs.
  set (p := App.detect_suitable_job_roles response).
  set (loc := AppSearch.final_location custom_location selected).
  pose proof (inline_fetch_cases search key p loc 15) as H.
  destruct (AppSearch.fetch_google_jobs_serpapi search key p loc 15)
    as [[google_jobs|e] trace].
  - destruct H as (Hlen & _).
    pose proof (inline_jobicy_within_limit src p 10 ltac:(lia)) as Hj.
    exists (google_jobs, AppSearch.enhanced_jobicy_search src p 10).
    unfold AppSearch.total_jobs. cbn [fst snd]. repeat split; lia.
  - destruct H as (_ & _ & _ & Hmissing). exfalso.
    destruct (detect_complete response) as (a & b & c & d & e' & Hp & _).
    subst p. rewrite Hp in Hmissing. simpl in Hmissing.
    destruct Hmissing as [H|[H|[H|H]]]; discriminate H.
Qed.

(** X20. The location handed to the adapter never reads "remote", in any
    letter case and with any white space around it. A custom location that is
    not blank is used, stripped, in place of the selected one, and the
    selected one is used as it is when the custom location is blank; in both
    cases a location that reads "remote" is replaced by the empty string. *)
Theorem final_location_never_remote (custom_location selected : string) :
  PyStr.lower (PyStr.strip (AppSearch.final_location custom_location selected)) <> "remote"
  /\ (PyStr.nonempty (PyStr.strip custom_location) = true ->
      PyStr.lower (PyStr.strip custom_location) <> "remote" ->
      AppSearch.final_location custom_location selected = PyStr.strip custom_location)
  /\ (PyStr.nonempty (PyStr.strip custom_location) = true ->
      PyStr.lower (PyStr.strip custom_location) = "remote" ->
      AppSearch.final_location custom_location selected = "")
  /\ (PyStr.nonempty (PyStr.strip custom_location) = false ->
      PyStr.lower (PyStr.strip selected) <> "remote" ->
      AppSearch.final_location custom_location selected = selected)
  /\ (PyStr.nonempty (PyStr.strip custom_location) = false ->
      PyStr.lower (PyStr.strip selected) = "remote" ->
      AppSearch.final_location custom_location selected = "").
Proof.
  unfold AppSearch.final_location.
  destruct (PyStr.nonempty (PyStr.strip custom_location)).
  - rewrite strip_idempotent.
    destruct (String.eqb_spec (PyStr.lower (PyStr.strip custom_location)) "remote")
      as [Heq|Hne].
    + repeat split; try discriminate; try reflexivity; intros; congruence.
    + rewrite strip_idempotent.
      repeat split; try discriminate; try reflexivity; try assumption;
        intros; congruence.
  - destruct (String.eqb_spec (PyStr.lower (PyStr.strip selected)) "remote")
      as [Heq|Hne].
    + repeat split; try discriminate; try reflexivity; intros; congruence.
    + repeat split; try discriminate; try reflexivity; try assumption;
        intros; congruence.
Qed.

Lemma final_location_never_remote_witness :
  AppSearch.final_location " Austin, TX " "United States" = "Austin, TX"
  /\ AppSearch.final_location "  " "  ReMoTe " = ""
  /\ AppSearch.final_location "" "London, UK" = "London, UK"
  /\ AppSearch.final_location " remote" "London, UK" = "".
Proof.
  destruct (final_location_never_remote " Austin, TX " "United States")
    as (_ & Hcustom & _).
  destruct (final_location_never_remote "  " "  ReMoTe ") as (_ & _ & _ & _ & Hremote).
  destruct (final_location_never_remote "" "London, UK") as (_ & _ & _ & Hselected & _).
  destruct (final_location_never_remote " remote" "London, UK")
    as (_ & _ & Hcustom_remote & _).
  split; [apply Hcustom; [reflexivity|discriminate]|].
  split; [apply Hremote; reflexivity|].
  split; [apply Hselected; [reflexivity|discriminate]|].
  apply Hcustom_remote; reflexivity.
Defined.

(** ** The credential *)

(** X5. Every request the adapter issues carries the configured credential,
    which is not empty and is the secret whenever the secrets hold one (the
    environment variable otherwise), the fixed engine and locale, one of the
    queries of the profile followed by " remote", and the location unless
    that reads "remote". *)
Theorem requests_carry_credential (search : SearchApi.Service)
    (secrets : result (option string)) (env : option string)
    (p : RoleProfile) (loc : string) (limit : Z) (params : SearchApi.Params) :
  In params (snd (SearchApi.fetch_google_jobs_serpapi search
                    (get_serpapi_key secrets env) p loc limit)) ->
  get_serpapi_key secrets env = Some (SearchApi.api_key params)
  /\ SearchApi.api_key params <> ""
  /\ (forall secret, secrets = Ok (Some secret) -> SearchApi.api_key params = secret)
  /\ ((secrets = Ok None \/ exists e, secrets = Raised e) ->
      env = Some (SearchApi.api_key params))
  /\ SearchApi.engine params = "google_jobs"
  /\ SearchApi.hl params = "en" /\ SearchApi.gl params = "us"
  /\ (exists query,
        In query (SearchApi.filter_None (SearchApi.queries p))
        /\ SearchApi.q params = (query ++ " remote")%string)
  /\ SearchApi.location params
     = (if String.eqb (PyStr.lower (PyStr.strip loc)) "remote" then None else Some loc).
Proof.
  intros Hin. unfold SearchApi.fetch_google_jobs_serpapi in Hin.
  destruct (get_serpapi_key secrets env) as [k|] eqn:Hkey; [|destruct Hin].
  destruct (PyStr.nonempty k) eqn:Hk; [|destruct Hin].
  destruct (query_loop_trace search k loc limit
              (SearchApi.filter_None (SearchApi.queries p)) [] []) as [n Hn].
  destruct (SearchApi.query_loop search k loc limit
              (SearchApi.filter_None (SearchApi.queries p)) [] []) as [jobs trace].
  cbn [fst snd app] in *. subst trace.
  apply in_map_iff in Hin as (query & <- & Hq). apply in_firstn in Hq.
  cbn [SearchApi.api_key SearchApi.engine SearchApi.hl SearchApi.gl SearchApi.q
         SearchApi.location SearchApi.make_params].
  split; [reflexivity|]. split; [intros ->; discriminate Hk|].
  split; [intros secret ->; simpl in Hkey; congruence|].
  split; [intros [->|[e ->]]; simpl in Hkey; exact Hkey|].
  repeat split; eauto.
Qed.

Lemma requests_carry_credential_witness :
  SearchApi.api_key
    (SearchApi.make_params "from-secrets" "Tester" "Berlin") = "from-secrets".
Proof.
  apply (proj1 (proj2 (proj2 (requests_carry_credential
                                (Sample.always []) (Ok (Some "from-secrets"))
                                (Some "from-env") (Sample.only_role "Tester")
                                "Berlin" 15
                                (SearchApi.make_params "from-secrets" "Tester" "Berlin")
                                (or_introl eq_refl))))).
  reflexivity.
Defined.

(** * Text extraction ([extract_text_from_pdf]) *)

Lemma sanitize_kept (text : string) :
  Forall (fun ch => Pdf.keep_char ch = true) (chars (Pdf.sanitize text)).
Proof.
  induction text as [|ch text IH]; simpl; [constructor|].
  destruct (Pdf.keep_char ch) eqn:E; [|exact IH].
  simpl. constructor; assumption.
Qed.

Lemma sanitize_fixed (text : string) :
  Forall (fun ch => Pdf.keep_char ch = true) (chars text) -> Pdf.sanitize text = text.
Proof.
  induction text as [|ch text IH]; intros H; [reflexivity|].
  inversion H as [|? ? Hch Hrest]; subst. simpl. rewrite Hch, IH by exact Hrest.
  reflexivity.
Qed.

Lemma sanitize_length (text : string) :
  String.length (Pdf.sanitize text) <= String.length text.
Proof.
  induction text as [|ch text IH]; simpl; [lia|].
  destruct (Pdf.keep_char ch); simpl; lia.
Qed.

Lemma str_take_length (n : nat) (s : string) : String.length (str_take n s) <= n.
Proof.
  revert s. induction n as [|n IH]; intros s; [simpl; lia|].
  destruct s as [|c s]; simpl; [lia|]. specialize (IH s). lia.
Qed.

Lemma str_slice_to_length (n : Z) (s : string) :
  (0 <= n)%Z -> (Z.of_nat (String.length (str_slice_to n s)) <= n)%Z.
Proof.
  intros H. unfold str_slice_to. destruct (Z.leb_spec 0 n); [|lia].
  pose proof (str_take_length (Z.to_nat n) s). lia.
Qed.

(** X21. Whatever the document, the extracted text holds only printable ASCII
    characters, line feeds, carriage returns and tabs, so that sanitising it
    again changes nothing, and for a budget that is not negative it has at
    most [max_chars] characters. *)
Theorem extracted_text_is_sanitised (upload : Pdf.Document) (max_chars : Z) :
  Forall (fun ch => (32 <= nat_of_ascii ch <= 126)
                    \/ ch = "010"%char \/ ch = "013"%char \/ ch = "009"%char)
    (chars (Pdf.extract_text_from_pdf upload max_chars))
  /\ Pdf.sanitize (Pdf.extract_text_from_pdf upload max_chars)
     = Pdf.extract_text_from_pdf upload max_chars
  /\ ((0 <= max_chars)%Z ->
      (Z.of_nat (String.length (Pdf.extract_text_from_pdf upload max_chars))
       <= max_chars)%Z).
Proof.
  assert (Hkept : Forall (fun ch => Pdf.keep_char ch = true)
                    (chars (Pdf.extract_text_from_pdf upload max_chars))).
  { unfold Pdf.extract_text_from_pdf.
    destruct upload as [pages|e]; [|constructor].
    destruct (fst (Pdf.pages_loop max_chars pages "" 0)) as [text|e]; [|constructor].
    apply sanitize_kept. }
  split; [|split].
  - eapply Forall_impl; [|exact Hkept]. intros ch H. unfold Pdf.keep_char in H.
    apply orb_true_iff in H as [H|H]; [|right; right; right; now apply Ascii.eqb_eq in H].
    apply orb_true_iff in H as [H|H]; [|right; right; left; now apply Ascii.eqb_eq in H].
    apply orb_true_iff in H as [H|H]; [|right; left; now apply Ascii.eqb_eq in H].
    apply andb_true_iff in H as [H1 H2].
    apply Nat.ltb_lt in H1. apply Nat.ltb_lt in H2. left. lia.
  - apply sanitize_fixed. exact Hkept.
  - intros Hmax. unfold Pdf.extract_text_from_pdf.
    destruct upload as [pages|e]; [|simpl; lia].
    destruct (fst (Pdf.pages_loop max_chars pages "" 0)) as [text|e]; [|simpl; lia].
    pose proof (sanitize_length (str_slice_to max_chars text)).
    pose proof (str_slice_to_length max_chars text Hmax). lia.
Qed.

Lemma extracted_text_is_sanitised_witness :
  let upload := Ok [Ok (Some "Jane Doe"); Ok None; Ok (Some "Data Scientist")] in
  Pdf.extract_text_from_pdf upload 12 = ("Jane Doe" ++ PyStr.nl ++ "Dat")%string
  /\ (Z.of_nat (String.length (Pdf.extract_text_from_pdf upload 12)) <= 12)%Z.
Proof.
  cbv zeta. split; [reflexivity|].
  apply (proj2 (proj2 (extracted_text_is_sanitised
                         (Ok [Ok (Some "Jane Doe"); Ok None; Ok (Some "Data Scientist")])
                         12))).
  lia.
Defined.

(** A run of the page loop that ended below the budget went through all its
    pages, so further pages continue from its text. *)
Lemma pages_loop_app (max_chars : Z) (pre : list Pdf.Page) :
  forall text read text' read' more,
    Pdf.pages_loop max_chars pre text read = (Ok text', read') ->
    (Z.of_nat (String.length text') < max_chars)%Z ->
    Pdf.pages_loop max_chars (pre ++ more) text read
    = Pdf.pages_loop max_chars more text' read'.
Proof.
  induction pre as [|page pre IH]; intros text read text' read' more Hrun Hroom; simpl in *.
  - injection Hrun as <- <-. reflexivity.
  - destruct page as [page_text|e]; [|discriminate].
    destruct (Z.leb_spec max_chars
                (Z.of_nat (String.length
                             (if truthy page_text
                              then (text ++ get page_text "" ++ PyStr.nl)%string
                              else text)))).
    + injection Hrun as <- <-. lia.
    + eapply IH; eassumption.
Qed.

(** A run that ended with the budget filled stopped at the page that filled
    it: pages after it are not looked at. *)
Lemma pages_loop_full (max_chars : Z) (pages : list Pdf.Page) :
  forall text read text' read' more,
    (Z.of_nat (String.length text) < max_chars)%Z ->
    Pdf.pages_loop max_chars pages text read = (Ok text', read') ->
    (max_chars <= Z.of_nat (String.length text'))%Z ->
    Pdf.pages_loop max_chars (pages ++ more) text read = (Ok text', read')
    /\ read' <= read + length pages.
Proof.
  induction pages as [|page pages IH]; intros text read text' read' more Hstart Hrun Hfull;
    simpl in *.
  - injection Hrun as <- <-. lia.
  - destruct page as [page_text|e]; [|discriminate].
    destruct (Z.leb_spec max_chars
                (Z.of_nat (String.length
                             (if truthy page_text
                              then (text ++ get page_text "" ++ PyStr.nl)%string
                              else text)))) as [Hge|Hlt].
    + injection Hrun as <- <-. split; [reflexivity|lia].
    + destruct (IH _ (S read) text' read' more Hlt Hrun Hfull) as [H1 H2].
      split; [exact H1|lia].
Qed.

(** X22. Once the pages read so far fill the budget, nothing after them is read:
    the extracted text is the same whatever follows, pages that would raise
    included. *)
Theorem full_budget_ends_reading (max_chars : Z) (pages more : list Pdf.Page)
    (text : string) (read : nat) :
  (0 < max_chars)%Z ->
  Pdf.pages_loop max_chars pages "" 0 = (Ok text, read) ->
  (max_chars <= Z.of_nat (String.length text))%Z ->
  Pdf.pages_loop max_chars (pages ++ more) "" 0 = (Ok text, read)
  /\ read <= length pages
  /\ Pdf.extract_text_from_pdf (Ok (pages ++ more)) max_chars
     = Pdf.extract_text_from_pdf (Ok pages) max_chars.
Proof.
  intros Hmax Hrun Hfull.
  destruct (pages_loop_full max_chars pages "" 0 text read more
              ltac:(simpl; lia) Hrun Hfull) as [H1 H2].
  split; [exact H1|]. split; [exact H2|].
  unfold Pdf.extract_text_from_pdf. rewrite H1, Hrun. reflexivity.
Qed.

Lemma full_budget_ends_reading_witness :
  Pdf.extract_text_from_pdf
    (Ok [Ok (Some "Jane Doe, Data Scientist"); Raised ValueError; Ok (Some "page 3")]) 10
  = "Jane Doe, ".
Proof.
  etransitivity.
  - exact (proj2 (proj2 (full_budget_ends_reading 10
                           [Ok (Some "Jane Doe, Data Scientist")]
                           [Raised ValueError; Ok (Some "page 3")]
                           ("Jane Doe, Data Scientist" ++ PyStr.nl)%string 1
                           ltac:(lia) eq_refl ltac:(simpl; lia)))).
  - reflexivity.
Defined.

(** X23. A page that raises before the budget is filled loses everything, the
    text of the pages read before it included; so does a document that
    cannot be opened. *)
Theorem failing_page_loses_all_text (max_chars : Z) (pre rest : list Pdf.Page)
    (e : exn) (text : string) (read : nat) :
  Pdf.pages_loop max_chars pre "" 0 = (Ok text, read) ->
  (Z.of_nat (String.length text) < max_chars)%Z ->
  Pdf.extract_text_from_pdf (Ok (pre ++ Raised e :: rest)) max_chars = ""
  /\ Pdf.extract_text_from_pdf (Raised e) max_chars = "".
Proof.
  intros Hrun Hroom. split; [|reflexivity].
  unfold Pdf.extract_text_from_pdf.
  rewrite (pages_loop_app max_chars pre "" 0 text read (Raised e :: rest) Hrun Hroom).
  reflexivity.
Qed.

Lemma failing_page_loses_all_text_witness :
  Pdf.extract_text_from_pdf
    (Ok [Ok (Some "Jane Doe, Data Scientist"); Raised ValueError; Ok (Some "page 3")]) 60000
  = "".
Proof.
  apply (failing_page_loses_all_text 60000 [Ok (Some "Jane Doe, Data Scientist")]
           [Ok (Some "page 3")] ValueError
           ("Jane Doe, Data Scientist" ++ PyStr.nl)%string 1 eq_refl).
  simpl. lia.
Defined.

(** * The cached model call ([_ollama], [ask_ollama]) *)

Lemma args_eqb_eq (a b : Ollama.Args) : Ollama.args_eqb a b = true <-> a = b.
Proof.
  unfold Ollama.args_eqb. rewrite !andb_true_iff, !String.eqb_eq.
  destruct a, b; simpl. split.
  - intros [[-> ->] ->]. reflexivity.
  - intros H. injection H. auto.
Qed.

Lemma lookup_none (args : Ollama.Args) (cache : Ollama.Cache) :
  Ollama.lookup args cache = None -> ~ In args (map fst cache).
Proof.
  unfold Ollama.lookup.
  destruct (find (fun entry => Ollama.args_eqb (fst entry) args) cache) eqn:E;
    [discriminate|].
  intros _ Hin. apply in_map_iff in Hin as (entry & Hkey & Hin).
  pose proof (find_none _ _ E entry Hin) as H. simpl in H.
  rewrite (proj2 (args_eqb_eq (fst entry) args) Hkey) in H. discriminate.
Qed.

Lemma lookup_some (args : Ollama.Args) (cache : Ollama.Cache) (response : string) :
  Ollama.lookup args cache = Some response -> In (args, response) cache.
Proof.
  unfold Ollama.lookup.
  destruct (find (fun entry => Ollama.args_eqb (fst entry) args) cache) as [[a r]|] eqn:E;
    [|discriminate].
  intros H. injection H as <-. apply find_some in E as [Hin Heq].
  simpl in Heq. apply args_eqb_eq in Heq. now subst a.
Qed.

Lemma forget_keys (args : Ollama.Args) (cache : Ollama.Cache) :
  ~ In args (map fst (Ollama.forget args cache))
  /\ (NoDup (map fst cache) -> NoDup (map fst (Ollama.forget args cache)))
  /\ (forall response, In (args, response) cache ->
        length (Ollama.forget args cache) < length cache).
Proof.
  unfold Ollama.forget. induction cache as [|[a r] cache (IH1 & IH2 & IH3)]; simpl.
  - split; [tauto|]. split; [intros _; constructor|]. intros ? [].
  - destruct (Ollama.args_eqb a args) eqn:E; simpl.
    + split; [exact IH1|]. split.
      * intros H. inversion H; subst. auto.
      * intros response _.
        pose proof (filter_length_bound
                      (fun entry => negb (Ollama.args_eqb (fst entry) args)) cache).
        lia.
    + split; [|split].
      * intros [H|H]; [|tauto]. subst a.
        rewrite (proj2 (args_eqb_eq args args) eq_refl) in E. discriminate.
      * intros H. inversion H as [|? ? Hnot Hnd]; subst. constructor; [|auto].
        intros Hin. apply Hnot. apply in_map_iff in Hin as (entry & Hk & Hin).
        apply filter_In in Hin as [Hin _]. apply in_map_iff. eauto.
      * intros response [H|H].
        -- injection H as -> _.
           rewrite (proj2 (args_eqb_eq args args) eq_refl) in E. discriminate.
        -- specialize (IH3 response H). lia.
Qed.

(** In this model the cache never holds more than 128 entries and never two entries for
    the same arguments. *)
Lemma cache_stays_bounded (chat : Ollama.Chat) (cache : Ollama.Cache)
    (args : Ollama.Args) :
  length cache <= 128 -> NoDup (map fst cache) ->
  let cache' := snd (fst (Ollama._ollama chat cache args)) in
  length cache' <= 128 /\ NoDup (map fst cache').
Proof.
  intros Hlen Hnd. unfold Ollama._ollama.
  destruct (Ollama.lookup args cache) as [response|] eqn:E; cbn [fst snd].
  - destruct (forget_keys args cache) as (H1 & H2 & H3).
    specialize (H3 response (lookup_some args cache response E)).
    split; [simpl; lia|]. simpl. constructor; auto.
  - split; [apply firstn_le_length|].
    rewrite <- firstn_map. apply NoDup_firstn. simpl.
    constructor; [apply lookup_none; exact E|exact Hnd].
Qed.


(** X25. A question asked once is not asked again: the next call with the same
    model, resume hash and prompt returns the same answer from the cache and
    does not call the model, whatever the model would answer now. That holds
    for the empty answer of a failed call too, so a failure is remembered. *)
Theorem repeated_question_served_from_cache (chat chat' : Ollama.Chat)
    (cache : Ollama.Cache) (model_name prompt_text resume_hash : string) :
  let first := Ollama.ask_ollama chat cache model_name prompt_text resume_hash in
  let second := Ollama.ask_ollama chat' (snd (fst first)) model_name prompt_text resume_hash in
  fst (fst second) = fst (fst first)
  /\ snd second = 0
  /\ (forall e, chat model_name prompt_text = Raised e ->
        snd first = 1 -> fst (fst first) = "" /\ fst (fst second) = "").
Proof.
  cbv zeta. unfold Ollama.ask_ollama.
  set (args := {| Ollama.model := model_name;
                  Ollama.key := (resume_hash ++ str_take 40 prompt_text)%string;
                  Ollama.prompt := prompt_text |}).
  assert (Hhit : forall response rest,
             Ollama._ollama chat' ((args, response) :: rest) args
             = (response, (args, response) :: Ollama.forget args ((args, response) :: rest), 0)).
  { intros response rest. unfold Ollama._ollama, Ollama.lookup. simpl find.
    rewrite (proj2 (args_eqb_eq args args) eq_refl). reflexivity. }
  assert (Hfront : exists rest,
             snd (fst (Ollama._ollama chat cache args))
             = (args, fst (fst (Ollama._ollama chat cache args))) :: rest).
  { unfold Ollama._ollama.
    destruct (Ollama.lookup args cache) as [response|]; cbn [fst snd]; eauto.
    exists (firstn 127 cache). reflexivity. }
  destruct Hfront as [rest Hrest]. rewrite Hrest, Hhit. cbn [fst snd].
  split; [reflexivity|]. split; [reflexivity|]. intros e He Hcalls.
  assert (fst (fst (Ollama._ollama chat cache args)) = "") as ->; [|auto].
  revert Hcalls. unfold Ollama._ollama.
  destruct (Ollama.lookup args cache) as [response|]; cbn [fst snd]; [discriminate|].
  intros _. unfold Ollama.answer. subst args. cbn [Ollama.model Ollama.prompt].
  now rewrite He.
Qed.

Lemma repeated_question_served_from_cache_witness :
  let down : Ollama.Chat := fun _ _ => Raised RequestError in
  let up : Ollama.Chat := fun _ _ => Ok "PRIMARY ROLE: Tester" in
  let first := Ollama.ask_ollama down [] "mistral" "Summarise this" "9f2c" in
  fst (fst first) = ""
  /\ fst (Ollama.ask_ollama up (snd (fst first)) "mistral" "Summarise this" "9f2c")
     = ("", snd (fst first)).
Proof.
  cbv zeta.
  destruct (repeated_question_served_from_cache
              (fun _ _ => Raised RequestError) (fun _ _ => Ok "PRIMARY ROLE: Tester")
              [] "mistral" "Summarise this" "9f2c") as (_ & _ & H).
  destruct (H RequestError eq_refl eq_refl) as [H1 H2].
  split; [exact H1|]. reflexivity.
Defined.

(** * Blank queries from a parsed profile *)

Lemma blank_stripped (s : string) :
  PyStr.strip s = s -> PyStr.is_blank s = true -> s = "".
Proof.
  intros Hs Hb. rewrite <- Hs. unfold PyStr.strip. now rewrite blank_lstrip.
Qed.

Lemma is_blank_app (a b : string) :
  PyStr.is_blank (a ++ b) = PyStr.is_blank a && PyStr.is_blank b.
Proof.
  induction a as [|c a IH]; simpl; [reflexivity|]. now rewrite IH, andb_assoc.
Qed.

Lemma is_space_lower (c : ascii) :
  PyStr.is_space (PyStr.lower_ascii c) = PyStr.is_space c.
Proof. destruct c as [[] [] [] [] [] [] [] []]; reflexivity. Qed.

Lemma is_blank_lower (s : string) : PyStr.is_blank (PyStr.lower s) = PyStr.is_blank s.
Proof.
  induction s as [|c s IH]; simpl; [reflexivity|]. now rewrite is_space_lower, IH.
Qed.

(** X16. The only blank query a parsed profile can give is the single space, and
    only when the answer left both the primary role and the career level
    empty: roles and keywords are stripped, so those that are not empty are
    not blank. *)
Theorem parsed_profile_blank_query (response query : string) :
  let p := App.detect_suitable_job_roles response in
  In query (SearchApi.filter_None (SearchApi.queries p)) ->
  PyStr.is_blank query = true ->
  query = " " /\ primary_role p = Some "" /\ career_level p = Some "".
Proof.
  cbv zeta. intros Hin Hblank.
  destruct (detect_complete response) as (a & b & c & d & e & Hp & _).
  destruct (detect_all_stripped response) as (Ha & Hb & Hc & _ & He).
  rewrite Hp in *. cbn [primary_role alternative_roles career_level
                          recommended_keywords] in *.
  specialize (Ha a eq_refl). specialize (Hb b eq_refl).
  specialize (Hc c eq_refl). specialize (He e eq_refl).
  unfold SearchApi.filter_None in Hin. apply filter_In in Hin as [Hin Hne].
  unfold SearchApi.queries in Hin.
  cbn [primary_role alternative_roles career_level recommended_keywords get] in Hin.
  assert (Hitem : forall l, Forall (fun s => PyStr.strip s = s) l ->
                            In query (firstn 2 l) -> False).
  { intros l Hl Hq. apply in_firstn in Hq.
    rewrite Forall_forall in Hl.
    rewrite (blank_stripped query (Hl query Hq) Hblank) in Hne. discriminate. }
  cbn [app] in Hin. destruct Hin as [<-|[<-|Hin]].
  - rewrite (blank_stripped a Ha Hblank) in Hne. discriminate.
  - rewrite !is_blank_app, is_blank_lower in Hblank.
    apply andb_true_iff in Hblank as [Hba Hbc].
    apply andb_true_iff in Hbc as [_ Hbc].
    rewrite (blank_stripped a Ha Hba), (blank_stripped c Hc Hbc). auto.
  - apply in_app_iff in Hin as [Hin|Hin]; exfalso; eauto.
Qed.

Lemma parsed_profile_blank_query_witness :
  primary_role (App.detect_suitable_job_roles
                  ("PRIMARY ROLE:" ++ PyStr.nl ++ "CAREER LEVEL:   ")) = Some "".
Proof.
  apply (parsed_profile_blank_query
           ("PRIMARY ROLE:" ++ PyStr.nl ++ "CAREER LEVEL:   ") " ").
  - left. reflexivity.
  - reflexivity.
Defined.

(** * The match reason of the Jobicy/RSS adapter *)

(** X10. When the loop body of either source appends a record, its reason names
    the first search term, in the order of the term list, whose lower-cased
    form occurs in the searched text (title, space and description in lower
    case for Jobicy, the title in lower case for a feed); no term before it
    occurs there. *)
Theorem match_reason_names_first_term (cut : Z) (terms : list string) (m : MatchedJob) :
  (forall job,
     SearchApi.jobicy_step cut terms job = Ok (Some m) ->
     exists before term after,
       terms = before ++ term :: after
       /\ m_match_reason m = ("Matches: " ++ term)%string
       /\ PyStr.contains (PyStr.lower term) (SearchApi.content job) = true
       /\ forall t, In t before ->
                    PyStr.contains (PyStr.lower t) (SearchApi.content job) = false)
  /\ (forall entry,
        SearchApi.rss_step cut terms entry = Ok (Some m) ->
        exists before term after,
          terms = before ++ term :: after
          /\ m_match_reason m = ("Matches: " ++ term)%string
          /\ PyStr.contains (PyStr.lower term) (PyStr.lower (m_title m)) = true
          /\ forall t, In t before ->
                       PyStr.contains (PyStr.lower t) (PyStr.lower (m_title m)) = false).
Proof.
  split.
  - intros job. unfold SearchApi.jobicy_step.
    destruct (jobicy_published_at job) as [| |pub]; try discriminate.
    destruct (pub <? cut)%Z; [discriminate|].
    destruct (SearchApi.first_match terms (SearchApi.content job)) as [term|] eqn:E;
      [|discriminate].
    destruct (jobicy_url job) as [u|]; [|discriminate].
    destruct (jobicy_title job) as [t|]; [|discriminate].
    intros Heq. injection Heq as <-.
    destruct (first_match_first terms _ term E) as (before & after & H1 & H2 & H3).
    exists before, term, after. auto.
  - intros entry. unfold SearchApi.rss_step.
    destruct (entry_published entry) as [| |pub]; try discriminate.
    destruct (pub <? cut)%Z; [discriminate|].
    destruct (entry_title entry) as [t|]; [|discriminate].
    destruct (SearchApi.first_match terms (PyStr.lower t)) as [term|] eqn:E;
      [|discriminate].
    destruct (entry_link entry) as [l|]; [|discriminate].
    intros Heq. injection Heq as <-.
    destruct (first_match_first terms _ term E) as (before & after & H1 & H2 & H3).
    exists before, term, after. auto.
Qed.

Lemma match_reason_names_first_term_witness :
  exists before term after,
    ["Data Scientist"; "python"] = before ++ term :: after
    /\ ("Matches: python" = "Matches: " ++ term)%string
    /\ forall t, In t before ->
                 PyStr.contains (PyStr.lower t) "backend developer python and sql" = false.
Proof.
  destruct (proj1 (match_reason_names_first_term
                     (SearchApi.cutoff Sample.today_ordinal)
                     ["Data Scientist"; "python"]
                     {| m_url := "https://jobicy.com/jobs/1";
                        m_title := "Backend Developer";
                        m_company := "Acme";
                        m_match_reason := "Matches: python" |})
              (Sample.jobicy_listing "Backend Developer" "Python and SQL" "Acme"
                 (DateValue Sample.today_ordinal))
              eq_refl)
    as (before & term & after & H1 & H2 & _ & H3).
  exists before, term, after. auto.
Defined.

(** * The link of a listing, where the expression returns *)

Lemma extract_link_first_candidate_witness :
  SearchApi.extract_link Sample.apply_link_only
  = Ok (Some "https://acme.example/apply/42").
Proof.
  rewrite (extract_link_first_candidate Sample.apply_link_only).
  - reflexivity.
  - right. discriminate.
Defined.

(** * The recency filter on the output of the Jobicy/RSS adapter *)

Lemma collect_skip {A : Type} (step : A -> result (option MatchedJob))
    (pre post : list A) (old : A) :
  step old = Ok None ->
  forall matched,
    SearchApi.collect step (pre ++ old :: post) matched
    = SearchApi.collect step (pre ++ post) matched.
Proof.
  intros Hold. induction pre as [|item pre IH]; intros matched; simpl.
  - now rewrite Hold.
  - destruct (step item) as [[m|]|e]; auto.
Qed.

Lemma old_jobicy_skipped (today_ordinal days : Z) (terms : list string) (job : JobicyJob) :
  jobicy_published_at job = DateValue (today_ordinal - days) -> (31 <= days)%Z ->
  SearchApi.jobicy_step (SearchApi.cutoff today_ordinal) terms job = Ok None.
Proof.
  intros Hpub Hold. unfold SearchApi.jobicy_step, SearchApi.cutoff. rewrite Hpub.
  destruct (Z.ltb_spec (today_ordinal - days) (today_ordinal - 30)); [reflexivity|lia].
Qed.

Lemma old_entry_skipped (today_ordinal days : Z) (terms : list string) (entry : RssEntry) :
  entry_published entry = DateValue (today_ordinal - days) -> (31 <= days)%Z ->
  SearchApi.rss_step (SearchApi.cutoff today_ordinal) terms entry = Ok None.
Proof.
  intros Hpub Hold. unfold SearchApi.rss_step, SearchApi.cutoff. rewrite Hpub.
  destruct (Z.ltb_spec (today_ordinal - days) (today_ordinal - 30)); [reflexivity|lia].
Qed.

(** Two sources whose feeds differ only by entries on which the loop body
    appends nothing give the same run over the feeds. *)
Lemma feeds_loop_skip (src src' : Sources) (cut : Z) (terms : list string)
    (feeds : list string) :
  (forall rss,
      feed_entries src' rss = feed_entries src rss
      \/ exists pre old post,
           feed_entries src rss = Ok (pre ++ old :: post)
           /\ feed_entries src' rss = Ok (pre ++ post)
           /\ SearchApi.rss_step cut terms old = Ok None) ->
  forall matched,
    SearchApi.feeds_loop src' cut terms feeds matched
    = SearchApi.feeds_loop src cut terms feeds matched.
Proof.
  intros Hrel. induction feeds as [|rss feeds IH]; intros matched; simpl; [reflexivity|].
  destruct (Hrel rss) as [->|(pre & old & post & -> & -> & Hold)].
  - destruct (feed_entries src rss) as [entries|e]; [|reflexivity].
    destruct (SearchApi.collect (SearchApi.rss_step cut terms) entries matched)
      as [matched' [e|]]; [reflexivity|apply IH].
  - rewrite (collect_skip _ pre post old Hold).
    destruct (SearchApi.collect (SearchApi.rss_step cut terms) (pre ++ post) matched)
      as [matched' [e|]]; [reflexivity|apply IH].
Qed.

(** A well-formed run of items followed by an item on which the body
    appends: the record is in what the loop accumulates, whatever follows. *)
Lemma collect_includes {A : Type} (step : A -> result (option MatchedJob))
    (pre post : list A) (item : A) (m : MatchedJob) :
  Forall (well_formed step) pre -> step item = Ok (Some m) ->
  forall matched, In m (fst (SearchApi.collect step (pre ++ item :: post) matched)).
Proof.
  intros Hpre Hstep matched.
  assert (Hgood : Forall (well_formed step) (pre ++ [item])).
  { apply Forall_app. split; [exact Hpre|].
    constructor; [|constructor]. exists (Some m). exact Hstep. }
  replace (pre ++ item :: post) with ((pre ++ [item]) ++ post)
    by (rewrite <- app_assoc; reflexivity).
  destruct (collect_app step (pre ++ [item]) Hgood post matched) as [-> _].
  destruct (collect_extends step post
              (fst (SearchApi.collect step (pre ++ [item]) matched))) as [ext ->].
  apply in_app_iff. left.
  apply (collect_keeps step (pre ++ [item]) Hgood matched item m); [|exact Hstep].
  apply in_app_iff. right. now left.
Qed.

(** C4, as the code has it. For the list the adapter returns:
    - every record comes from a Jobicy record or a feed entry whose published
      date is not earlier than thirty days before the current date; the code
      sets no upper bound on the date;
    - a Jobicy record dated thirty days before the current date or later is
      returned when a term is found in it, it carries an address and a title,
      the records before it in the answer are well formed, and the limit
      does not cut the list; the same holds for an entry of a feed when the
      feeds before it are read without failure and the entries before it in
      its feed are well formed;
    - a Jobicy record or a feed entry dated 31 days before the current date
      or earlier is excluded: the output is what it would be without it. *)
Theorem recency_filter_on_output (src : Sources) (p : RoleProfile) (limit : Z) :
  let terms := SearchApi.search_terms p in
  let cut := SearchApi.cutoff (today src) in
  let accumulated :=
    fst (SearchApi.rss_stage src terms (fst (SearchApi.jobicy_stage src terms []))) in
  (forall m,
     In m (SearchApi.enhanced_jobicy_search src p limit) ->
     exists pub,
       (today src - 30 <= pub)%Z
       /\ ((exists data job,
              jobicy_jobs src = Ok data /\ In job data
              /\ jobicy_published_at job = DateValue pub
              /\ SearchApi.jobicy_step cut terms job = Ok (Some m))
           \/ (exists rss entries entry,
                 In rss SearchApi._RSS_FEEDS
                 /\ feed_entries src rss = Ok entries /\ In entry entries
                 /\ entry_published entry = DateValue pub
                 /\ SearchApi.rss_step cut terms entry = Ok (Some m))))
  /\ (forall pre job post pub term u t,
        jobicy_jobs src = Ok (pre ++ job :: post) ->
        Forall (well_formed (SearchApi.jobicy_step cut terms)) pre ->
        jobicy_published_at job = DateValue pub -> (today src - 30 <= pub)%Z ->
        SearchApi.first_match terms (SearchApi.content job) = Some term ->
        jobicy_url job = Some u -> jobicy_title job = Some t ->
        (Z.of_nat (length accumulated) <= limit)%Z ->
        In {| m_url := u; m_title := t;
              m_company := get (jobicy_company_name job) "Unknown";
              m_match_reason := ("Matches: " ++ term)%string |}
           (SearchApi.enhanced_jobicy_search src p limit))
  /\ (forall before rss after good entry rest pub term l t,
        SearchApi._RSS_FEEDS = before ++ rss :: after ->
        Forall (clean_feed src cut terms) before ->
        feed_entries src rss = Ok (good ++ entry :: rest) ->
        Forall (well_formed (SearchApi.rss_step cut terms)) good ->
        entry_published entry = DateValue pub -> (today src - 30 <= pub)%Z ->
        entry_title entry = Some t ->
        SearchApi.first_match terms (PyStr.lower t) = Some term ->
        entry_link entry = Some l ->
        (Z.of_nat (length accumulated) <= limit)%Z ->
        In {| m_url := l; m_title := t; m_company := "Remote";
              m_match_reason := ("Matches: " ++ term)%string |}
           (SearchApi.enhanced_jobicy_search src p limit))
  /\ (forall src' pre old post days,
        jobicy_jobs src = Ok (pre ++ old :: post) ->
        jobicy_published_at old = DateValue (today src - days) -> (31 <= days)%Z ->
        jobicy_jobs src' = Ok (pre ++ post) ->
        (forall rss, feed_entries src' rss = feed_entries src rss) ->
        today src' = today src ->
        SearchApi.enhanced_jobicy_search src p limit
        = SearchApi.enhanced_jobicy_search src' p limit)
  /\ (forall src' rss0 pre old post days,
        feed_entries src rss0 = Ok (pre ++ old :: post) ->
        entry_published old = DateValue (today src - days) -> (31 <= days)%Z ->
        feed_entries src' rss0 = Ok (pre ++ post) ->
        (forall rss, rss <> rss0 -> feed_entries src' rss = feed_entries src rss) ->
        jobicy_jobs src' = jobicy_jobs src ->
        today src' = today src ->
        SearchApi.enhanced_jobicy_search src p limit
        = SearchApi.enhanced_jobicy_search src' p limit).
Proof.
  intros terms cut accumulated.
  assert (Hout : forall m, In m accumulated ->
                           (Z.of_nat (length accumulated) <= limit)%Z ->
                           In m (SearchApi.enhanced_jobicy_search src p limit)).
  { intros m Hin Hfit. unfold SearchApi.enhanced_jobicy_search.
    fold terms. fold accumulated. now rewrite slice_to_all. }
  repeat apply conj.
  - intros m Hin. unfold SearchApi.enhanced_jobicy_search in Hin.
    apply in_slice_to in Hin. fold terms in Hin.
    set (P := fun m : MatchedJob =>
                exists pub,
                  (today src - 30 <= pub)%Z
                  /\ ((exists data job,
                         jobicy_jobs src = Ok data /\ In job data
                         /\ jobicy_published_at job = DateValue pub
                         /\ SearchApi.jobicy_step cut terms job = Ok (Some m))
                      \/ (exists rss entries entry,
                            In rss SearchApi._RSS_FEEDS
                            /\ feed_entries src rss = Ok entries /\ In entry entries
                            /\ entry_published entry = DateValue pub
                            /\ SearchApi.rss_step cut terms entry = Ok (Some m)))).
    assert (Hjobicy : Forall P (fst (SearchApi.jobicy_stage src terms []))).
    { unfold SearchApi.jobicy_stage.
      destruct (jobicy_jobs src) as [data|e] eqn:Hdata; [|constructor].
      apply collect_forall; [|constructor].
      intros job m' Hjob Hstep.
      destruct (jobicy_step_appends _ _ _ _ Hstep)
        as (term & pub & _ & Hpub & Hrecent & _).
      exists pub. unfold SearchApi.cutoff in Hrecent. split; [exact Hrecent|].
      left. exists data, job. auto. }
    assert (Hall : Forall P (fst (SearchApi.rss_stage src terms
                                    (fst (SearchApi.jobicy_stage src terms []))))).
    { unfold SearchApi.rss_stage. apply feeds_loop_forall; [|exact Hjobicy].
      intros rss entries entry m' Hrss Hfeed Hentry Hstep.
      destruct (rss_step_appends _ _ _ _ Hstep)
        as (term & pub & _ & Hpub & Hrecent & _).
      exists pub. unfold SearchApi.cutoff in Hrecent. split; [exact Hrecent|].
      right. exists rss, entries, entry. auto. }
    rewrite Forall_forall in Hall. exact (Hall m Hin).
  - intros pre job post pub term u t Hdata Hpre Hpub Hrecent Hterm Hu Ht Hfit.
    apply Hout; [|exact Hfit]. subst accumulated. unfold SearchApi.rss_stage.
    destruct (feeds_loop_extends src (SearchApi.cutoff (today src)) terms
                SearchApi._RSS_FEEDS (fst (SearchApi.jobicy_stage src terms [])))
      as [ext ->].
    apply in_app_iff. left. unfold SearchApi.jobicy_stage. rewrite Hdata.
    apply collect_includes; [exact Hpre|].
    rewrite (jobicy_step_match _ _ job pub t u Hpub) by
        (try assumption; unfold SearchApi.cutoff; lia).
    now rewrite Hterm.
  - intros before rss after good entry rest pub term l t
           Hfeeds Hbefore Hfeed Hgood Hpub Hrecent Ht Hterm Hl Hfit.
    apply Hout; [|exact Hfit]. subst accumulated. unfold SearchApi.rss_stage.
    fold cut. rewrite Hfeeds.
    set (m0 := fst (SearchApi.jobicy_stage src terms [])).
    destruct (feeds_loop_clean src cut terms before Hbefore (rss :: after) m0) as [-> _].
    set (m1 := fst (SearchApi.feeds_loop src cut terms before m0)).
    assert (Hstep : SearchApi.rss_step cut terms entry
                    = Ok (Some {| m_url := l; m_title := t; m_company := "Remote";
                                  m_match_reason := ("Matches: " ++ term)%string |})).
    { rewrite (rss_step_match _ _ entry pub t l Hpub) by
          (try assumption; unfold cut, SearchApi.cutoff; lia).
      now rewrite Hterm. }
    assert (Hgood' : Forall (well_formed (SearchApi.rss_step cut terms)) (good ++ [entry])).
    { apply Forall_app. split; [exact Hgood|].
      constructor; [|constructor]. eexists. exact Hstep. }
    assert (Hfeed' : feed_entries src rss = Ok ((good ++ [entry]) ++ rest))
      by (rewrite <- app_assoc; exact Hfeed).
    destruct (feeds_loop_first_feed src cut terms rss after (good ++ [entry]) rest m1
                Hfeed' Hgood') as [ext ->].
    apply in_app_iff. left.
    apply (collect_keeps _ (good ++ [entry]) Hgood' m1 entry); [|exact Hstep].
    apply in_app_iff. right. now left.
  - intros src' pre old post days Hdata Hpub Hold Hdata' Hfeeds' Htoday.
    unfold SearchApi.enhanced_jobicy_search, SearchApi.rss_stage, SearchApi.jobicy_stage.
    rewrite Hdata, Hdata', Htoday.
    rewrite (collect_skip _ pre post old
               (old_jobicy_skipped (today src) days
                  (SearchApi.search_terms p) old Hpub Hold)).
    rewrite (feeds_loop_skip src src' (SearchApi.cutoff (today src))
               (SearchApi.search_terms p) SearchApi._RSS_FEEDS
               (fun rss => or_introl (Hfeeds' rss))).
    reflexivity.
  - intros src' rss0 pre old post days Hfeed Hpub Hold Hfeed' Hothers Hdata' Htoday.
    unfold SearchApi.enhanced_jobicy_search, SearchApi.rss_stage, SearchApi.jobicy_stage.
    rewrite Hdata', Htoday.
    rewrite (feeds_loop_skip src src' (SearchApi.cutoff (today src))
               (SearchApi.search_terms p) SearchApi._RSS_FEEDS); [reflexivity|].
    intros rss. destruct (String.string_dec rss rss0) as [->|Hne].
    + right. exists pre, old, post. split; [exact Hfeed|]. split; [exact Hfeed'|].
      apply (old_entry_skipped (today src) days); assumption.
    + left. apply Hothers. exact Hne.
Qed.

Lemma recency_filter_on_output_witness :
  let recent := Sample.jobicy_listing "Data Scientist I" "" "New"
                  (DateValue (Sample.today_ordinal - 3)) in
  let edge := Sample.jobicy_listing "Data Scientist II" "" "Edge"
                (DateValue (Sample.today_ordinal - 30)) in
  let old := Sample.jobicy_listing "Data Scientist III" "" "Old"
               (DateValue (Sample.today_ordinal - 31)) in
  let p := Sample.only_role "Data Scientist" in
  In {| m_url := "https://jobicy.com/jobs/1"; m_title := "Data Scientist II";
        m_company := "Edge"; m_match_reason := "Matches: Data Scientist" |}
     (SearchApi.enhanced_jobicy_search (Sample.jobicy_only [recent; edge]) p 10)
  /\ SearchApi.enhanced_jobicy_search (Sample.jobicy_only [recent; old; edge]) p 10
     = SearchApi.enhanced_jobicy_search (Sample.jobicy_only [recent; edge]) p 10.
Proof.
  intros recent edge old p. split.
  - destruct (recency_filter_on_output (Sample.jobicy_only [recent; edge]) p 10)
      as (_ & Hin & _).
    apply (Hin [recent] edge [] (Sample.today_ordinal - 30)%Z "Data Scientist"
             "https://jobicy.com/jobs/1" "Data Scientist II").
    + reflexivity.
    + constructor; [|constructor]. eexists. reflexivity.
    + reflexivity.
    + unfold Sample.jobicy_only. cbn [today]. lia.
    + reflexivity.
    + reflexivity.
    + reflexivity.
    + vm_compute. discriminate.
  - destruct (recency_filter_on_output (Sample.jobicy_only [recent; old; edge]) p 10)
      as (_ & _ & _ & Hout & _).
    apply (Hout (Sample.jobicy_only [recent; edge]) [recent] old [edge] 31%Z).
    + reflexivity.
    + reflexivity.
    + lia.
    + reflexivity.
    + reflexivity.
    + reflexivity.
Defined.

(** C4 as stated fails on the upper side of the window: the filter only
    rejects dates before the cutoff, so a listing dated a week after the
    current date, which is not within the last thirty days, is returned. *)
Lemma future_dated_listing_returned :
  let job := Sample.jobicy_listing "Tester" "" "Acme"
               (DateValue (Sample.today_ordinal + 7)) in
  SearchApi.enhanced_jobicy_search (Sample.jobicy_only [job]) (Sample.only_role "Tester") 10
  = [ {| m_url := "https://jobicy.com/jobs/1"; m_title := "Tester";
         m_company := "Acme"; m_match_reason := "Matches: Tester" |} ]
  /\ ~ (today (Sample.jobicy_only [job]) - 30 <= Sample.today_ordinal + 7
        <= today (Sample.jobicy_only [job]))%Z.
Proof.
  cbv zeta. split; [reflexivity|]. unfold Sample.jobicy_only. cbn [today]. lia.
Qed.
